(** * SweetAlert.js: the instance controller of the modal dialog

    A shallow embedding of [src/SweetAlert.js].  JavaScript objects live in
    a heap of property maps with a [frozen] flag, the module's own state
    (the module-level [currentInstance], the private [#promise] field) is
    kept apart from the state it shares with the modules it imports
    ([globalState], [privateMethods], [privateProps], the DOM), and every
    call that leaves the file is recorded in a trace. *)

From Stdlib Require Import ZArith String List Bool Lia.
From stdpp Require Import base option list gmap strings pretty.

Local Open Scope string_scope.
Local Open Scope Z_scope.

(** ** JavaScript values and objects *)

Abbreviation loc := positive (only parsing).   (* heap address of an object *)
Abbreviation iref := positive (only parsing).  (* a SweetAlert instance *)
Abbreviation pid := positive (only parsing).   (* a Promise *)
Abbreviation tid := positive (only parsing).   (* a Timer *)
Abbreviation elem := positive (only parsing).  (* a DOM element *)
Abbreviation fid := positive (only parsing).   (* a caller-supplied function *)

Inductive Value :=
| VUndefined
| VNull
| VBool (b : bool)
| VNum (n : Z)
| VStr (s : string)
| VRef (l : loc)
| VFun (f : fid).

#[global] Instance Value_eq_dec : EqDecision Value.
Proof. solve_decision. Defined.

Abbreviation props := (gmap string Value).

Record Obj := mkObj { obj_props : props; obj_frozen : bool }.

(** ToBoolean *)
Definition truthy (v : Value) : bool :=
  match v with
  | VUndefined | VNull => false
  | VBool b => b
  | VNum n => negb (n =? 0)
  | VStr s => negb (String.eqb s "")
  | VRef _ | VFun _ => true
  end.

(** [v === false] *)
Definition strict_eq_false (v : Value) : bool :=
  match v with VBool false => true | _ => false end.

(** The own enumerable properties of a string: its characters under their
    decimal indices. *)
Fixpoint string_props (i : nat) (s : string) : props :=
  match s with
  | EmptyString => ∅
  | String c s' => <[pretty i := VStr (String c EmptyString)]> (string_props (S i) s')
  end.

(** The own enumerable properties [Object.assign] copies from a source:
    [undefined] and [null] are skipped, primitives other than strings have
    none. *)
Definition own_props (h : gmap loc Obj) (v : Value) : props :=
  match v with
  | VRef l => match h !! l with Some o => obj_props o | None => ∅ end
  | VStr s => string_props 0 s
  | _ => ∅
  end.

(** [Object.assign({}, s1, ..., sn)]: later sources win. *)
Definition assign (srcs : list props) : props :=
  foldl (λ acc s, s ∪ acc) ∅ srcs.

(** ** Results, promises, closures *)

(** The value a result promise is settled with is an object literal; it is
    kept by value. *)
Inductive PState :=
| Pending
| Fulfilled (v : props)
| Rejected (reason : Value).

(** [resolve(v)] and [reject(e)] of a promise: only a pending promise
    changes state. *)
Definition settle (new : PState) (old : option PState) : option PState :=
  match old with
  | Some Pending | None => Some new
  | Some s => Some s
  end.

(** The elements [populateDomCache] collects; a getter of [dom] may return
    [null]. *)
Record DomCache := mkDomCache {
  dc_popup : option elem;
  dc_container : option elem;
  dc_actions : option elem;
  dc_confirmButton : option elem;
  dc_denyButton : option elem;
  dc_cancelButton : option elem;
  dc_loader : option elem;
  dc_closeButton : option elem;
  dc_validationMessage : option elem;
  dc_progressSteps : option elem
}.

(** The closures the file creates, by the place that creates them and the
    variables they capture. *)
Inductive Closure :=
| OnConfirmClick (instance : iref)      (* () => handleConfirmButtonClick(instance) *)
| OnDenyClick (instance : iref)         (* () => handleDenyButtonClick(instance) *)
| OnCancelClick (instance : iref)       (* () => handleCancelButtonClick(instance, dismissWith) *)
| OnCloseClick (instance : iref)        (* () => dismissWith(DismissReason.close) *)
| DismissWith (instance : iref)         (* dismissWith *)
| TimerExpired (instance : iref).       (* () => { dismissWith('timer'); delete globalState.timeout } *)

(** The callbacks handed to [setTimeout] without a delay. *)
Inductive Task :=
| ProgressBarStart (innerParams : loc)  (* queued by setupTimer *)
| ScrollTop (container : option elem)   (* queued by swalPromise *)
| RestoreFocus.                         (* queued by close *)

(** Calls that leave the file: functions of the imported modules and
    methods of DOM elements. *)
Inductive ExtCall :=
| XshowWarningsForParams (p : props)
| X_destroy (instance : iref)
| XunsetAriaHidden
| XsetParameters (innerParams : loc)
| XclearTimeout
| Xrender (instance : iref) (innerParams : loc)
| XsetOnclick (e : elem) (f : Closure)
| XhandlePopupClick (innerParams : loc) (dc : DomCache) (f : Closure)
| XaddKeydownHandler (innerParams : loc) (f : Closure)
| XhandleInputOptionsAndValue (instance : iref) (innerParams : loc)
| XopenPopup (innerParams : loc)
| Xhide (e : option elem)
| Xshow (e : option elem)
| XapplyCustomClass (e : option elem) (innerParams : loc)
| XanimateTimerProgressBar (timer : Value)
| XsetScrollTop (e : elem)
| XwarnAboutDeprecation (name : string)
| Xcall (f : fid)
| Xblur (e : elem)
| Xfocus (e : elem)
| XhandleConfirmButtonClick (instance : iref)
| XhandleDenyButtonClick (instance : iref)
| XhandleCancelButtonClick (instance : iref) (f : Closure)
| Xmethod (instance : iref) (key : string) (args : list Value)
| Xteardown (instance : iref)
| XrestoreFocus.

Inductive Event :=
| ECall (c : ExtCall)
| EResolve (p : pid) (v : props)                 (* a resolve function is called *)
| ESetCurrent (i : option iref)                  (* globalState.currentInstance is written *)
| EParams (i : iref) (l : loc)                   (* instance.params is written *)
| EInnerParams (i : iref) (l : loc)              (* privateProps.innerParams.set(instance, l) *)
| ETimerFired (t : tid).                         (* a Timer runs its callback *)

(** Modelled from the spec: the Timer of [utils/Timer.js], which is not
    part of the sources. "State machine: idle -> running -> (paused <->
    running) -> fired | stopped"; "On expiry of the running duration,
    invokes its callback exactly once and transitions to fired; no further
    operations have effect after fired or stop()". *)
Inductive TimerState := TIdle | TRunning | TPaused | TFired | TStopped.

Record Timer := mkTimer {
  t_callback : Closure;
  t_remaining : Z;          (* milliseconds left of the running duration *)
  t_state : TimerState
}.

(** The own public fields of an instance; [None] is an unset field. *)
Record Instance := mkInstance {
  params : option loc;
  isAwaitingPromise : option bool
}.

(** The outcome of a call: a value, or a thrown exception. *)
Inductive Res (A : Type) :=
| Ok (a : A)
| Throw (e : Value).
Arguments Ok {A} a.
Arguments Throw {A} e.

Section Model.

(** The state of the rendering layer, which this file never inspects but
    through the query functions below. *)
Context {Env : Type}.

(** The state shared with the imported modules. *)
Record Shared := mkShared {
  heap : gmap loc Obj;
  instances : gmap iref Instance;
  gs_currentInstance : option iref;       (* globalState.currentInstance *)
  gs_timeout : option tid;                (* globalState.timeout *)
  swalPromiseResolve : gmap iref pid;     (* privateMethods.swalPromiseResolve *)
  swalPromiseReject : gmap iref pid;      (* privateMethods.swalPromiseReject *)
  pp_innerParams : gmap iref loc;         (* privateProps.innerParams *)
  pp_domCache : gmap iref DomCache;       (* privateProps.domCache *)
  promises : gmap pid PState;
  timers : gmap tid Timer;
  tasks : list Task;                      (* callbacks queued by setTimeout(f) *)
  env : Env
}.

(** The state of the module: what only this file can write. *)
Record World := mkWorld {
  shared : Shared;
  currentInstance : option iref;          (* let currentInstance *)
  promise_ : gmap iref pid;               (* the private field #promise *)
  trace : list Event
}.

(** What the imported modules do is not in the sources: their effect on
    the shared state and the answers of their queries are parameters. *)
Record Externals := mkExternals {
  window_defined : bool;                  (* typeof window !== 'undefined' *)
  defaultParams : loc;
  getTemplateParams : Shared → Value → props;
  argsToParams : Shared → list Value → props;
  effect : ExtCall → Shared → Shared;
  isModal : Shared → bool;
  getPopup : Shared → option elem;
  getContainer : Shared → option elem;
  getActions : Shared → option elem;
  getConfirmButton : Shared → option elem;
  getDenyButton : Shared → option elem;
  getCancelButton : Shared → option elem;
  getLoader : Shared → option elem;
  getCloseButton : Shared → option elem;
  getValidationMessage : Shared → option elem;
  getProgressSteps : Shared → option elem;
  getTimerProgressBar : Shared → option elem;
  querySelectorAll_autofocus : Shared → elem → list elem;
  isHTMLElement : Shared → elem → bool;
  isVisible : Shared → option elem → bool;
  getFocusableElements : Shared → list elem;
  activeElement : Shared → option elem;
  hasBlur : Shared → elem → bool;
  callResult : Shared → fid → Value;
  instanceMethods_keys : list string;     (* Object.keys(instanceMethods) *)
  methodResult : Shared → iref → string → list Value → Value
}.

Definition set_heap (f : gmap loc Obj → gmap loc Obj) (s : Shared) : Shared :=
  mkShared (f (heap s)) (instances s) (gs_currentInstance s) (gs_timeout s)
    (swalPromiseResolve s) (swalPromiseReject s) (pp_innerParams s) (pp_domCache s)
    (promises s) (timers s) (tasks s) (env s).

Definition set_instances (f : gmap iref Instance → gmap iref Instance) (s : Shared) : Shared :=
  mkShared (heap s) (f (instances s)) (gs_currentInstance s) (gs_timeout s)
    (swalPromiseResolve s) (swalPromiseReject s) (pp_innerParams s) (pp_domCache s)
    (promises s) (timers s) (tasks s) (env s).

Definition set_gs_currentInstance (c : option iref) (s : Shared) : Shared :=
  mkShared (heap s) (instances s) c (gs_timeout s)
    (swalPromiseResolve s) (swalPromiseReject s) (pp_innerParams s) (pp_domCache s)
    (promises s) (timers s) (tasks s) (env s).

Definition set_gs_timeout (t : option tid) (s : Shared) : Shared :=
  mkShared (heap s) (instances s) (gs_currentInstance s) t
    (swalPromiseResolve s) (swalPromiseReject s) (pp_innerParams s) (pp_domCache s)
    (promises s) (timers s) (tasks s) (env s).

Definition set_swalPromiseResolve (f : gmap iref pid → gmap iref pid) (s : Shared) : Shared :=
  mkShared (heap s) (instances s) (gs_currentInstance s) (gs_timeout s)
    (f (swalPromiseResolve s)) (swalPromiseReject s) (pp_innerParams s) (pp_domCache s)
    (promises s) (timers s) (tasks s) (env s).

Definition set_swalPromiseReject (f : gmap iref pid → gmap iref pid) (s : Shared) : Shared :=
  mkShared (heap s) (instances s) (gs_currentInstance s) (gs_timeout s)
    (swalPromiseResolve s) (f (swalPromiseReject s)) (pp_innerParams s) (pp_domCache s)
    (promises s) (timers s) (tasks s) (env s).

Definition set_pp_innerParams (f : gmap iref loc → gmap iref loc) (s : Shared) : Shared :=
  mkShared (heap s) (instances s) (gs_currentInstance s) (gs_timeout s)
    (swalPromiseResolve s) (swalPromiseReject s) (f (pp_innerParams s)) (pp_domCache s)
    (promises s) (timers s) (tasks s) (env s).

Definition set_pp_domCache (f : gmap iref DomCache → gmap iref DomCache) (s : Shared) : Shared :=
  mkShared (heap s) (instances s) (gs_currentInstance s) (gs_timeout s)
    (swalPromiseResolve s) (swalPromiseReject s) (pp_innerParams s) (f (pp_domCache s))
    (promises s) (timers s) (tasks s) (env s).

Definition set_promises (f : gmap pid PState → gmap pid PState) (s : Shared) : Shared :=
  mkShared (heap s) (instances s) (gs_currentInstance s) (gs_timeout s)
    (swalPromiseResolve s) (swalPromiseReject s) (pp_innerParams s) (pp_domCache s)
    (f (promises s)) (timers s) (tasks s) (env s).

Definition set_timers (f : gmap tid Timer → gmap tid Timer) (s : Shared) : Shared :=
  mkShared (heap s) (instances s) (gs_currentInstance s) (gs_timeout s)
    (swalPromiseResolve s) (swalPromiseReject s) (pp_innerParams s) (pp_domCache s)
    (promises s) (f (timers s)) (tasks s) (env s).

Definition set_tasks (f : list Task → list Task) (s : Shared) : Shared :=
  mkShared (heap s) (instances s) (gs_currentInstance s) (gs_timeout s)
    (swalPromiseResolve s) (swalPromiseReject s) (pp_innerParams s) (pp_domCache s)
    (promises s) (timers s) (f (tasks s)) (env s).

(** ** The monad of the module: state, trace and exceptions *)

Definition M (A : Type) : Type := World → Res A * World.

Definition ret {A} (a : A) : M A := λ w, (Ok a, w).

Definition bind {A B} (m : M A) (k : A → M B) : M B :=
  λ w, match m w with
       | (Ok a, w') => k a w'
       | (Throw e, w') => (Throw e, w')
       end.

Definition throw {A} (e : Value) : M A := λ w, (Throw e, w).

Definition TypeError (msg : string) : Value := VStr ("TypeError: " ++ msg).

Definition get {A} (q : Shared → A) : M A := λ w, (Ok (q (shared w)), w).

Definition on_shared (f : Shared → Shared) (w : World) : World :=
  mkWorld (f (shared w)) (currentInstance w) (promise_ w) (trace w).

Definition modify (f : Shared → Shared) : M unit :=
  λ w, (Ok tt, on_shared f w).

Definition emit (e : Event) : M unit :=
  λ w, (Ok tt, mkWorld (shared w) (currentInstance w) (promise_ w) ((trace w ++ [e])%list)).

Definition get_currentInstance : M (option iref) := λ w, (Ok (currentInstance w), w).

Definition set_currentInstance (c : option iref) : M unit :=
  λ w, (Ok tt, mkWorld (shared w) c (promise_ w) (trace w)).

Definition set_promise_ (i : iref) (p : pid) : M unit :=
  λ w, (Ok tt, mkWorld (shared w) (currentInstance w) (<[i := p]> (promise_ w)) (trace w)).

Definition when (b : bool) (m : M unit) : M unit := if b then m else ret tt.

End Model.

Arguments Shared : clear implicits.
Arguments World : clear implicits.
Arguments Externals : clear implicits.
Arguments M : clear implicits.

Declare Scope js_scope.
Delimit Scope js_scope with js.
Notation "x <- m ;; k" := (bind m (λ x, k))
  (at level 100, m at next level, right associativity) : js_scope.
Notation "m ;; k" := (bind m (λ _, k))
  (at level 100, right associativity) : js_scope.

Local Open Scope js_scope.

Section Program.

Context {Env : Type} (X : Externals Env).

Local Abbreviation M := (M Env).

(** ** Heap operations *)

(** An object literal, or the fresh target of [Object.assign({}, ...)]. *)
Definition alloc (p : props) : M loc :=
  h <- get heap ;;
  let l := fresh (dom h) in
  modify (set_heap <[l := mkObj p false]>) ;;
  ret l.

(** [o.k]; a missing property reads as [undefined]. *)
Definition prop_of (s : Shared Env) (l : loc) (k : string) : Value :=
  match heap s !! l with
  | Some o => default VUndefined (obj_props o !! k)
  | None => VUndefined
  end.

Definition getProp (l : loc) (k : string) : M Value :=
  get (λ s, prop_of s l k).

(** [o.k = v] in module (strict) code: a write to a frozen object throws
    and leaves it as it was. *)
Definition setProp (l : loc) (k : string) (v : Value) : M unit :=
  h <- get heap ;;
  match h !! l with
  | Some o =>
      if obj_frozen o
      then throw (TypeError "Cannot assign to read only property")
      else modify (set_heap <[l := mkObj (<[k := v]> (obj_props o)) false]>)
  | None => throw (TypeError "Cannot set properties of undefined")
  end.

(** [delete o.k] in module (strict) code. *)
Definition deleteProp (l : loc) (k : string) : M unit :=
  h <- get heap ;;
  match h !! l with
  | Some o =>
      if obj_frozen o
      then throw (TypeError "Cannot delete property")
      else modify (set_heap <[l := mkObj (delete k (obj_props o)) false]>)
  | None => throw (TypeError "Cannot convert undefined to object")
  end.

(** [Object.freeze(o)]: the object itself, not the objects it refers to. *)
Definition freeze (l : loc) : M unit :=
  modify (set_heap (λ h, match h !! l with
                         | Some o => <[l := mkObj (obj_props o) true]> h
                         | None => h
                         end)).

(** ** Calls and promises *)

Definition call (c : ExtCall) : M unit :=
  emit (ECall c) ;;
  modify (effect X c).

(** Calling the resolve function kept in a weak map; [get] of a missing
    key is [undefined], and calling that throws. *)
Definition callResolve (f : option pid) (v : props) : M unit :=
  match f with
  | Some p =>
      emit (EResolve p v) ;;
      modify (set_promises (partial_alter (settle (Fulfilled v)) p))
  | None => throw (TypeError "swalPromiseResolve is not a function")
  end.

(** [new Promise(executor)]: the executor runs at once, and an exception
    it throws rejects the promise. *)
Definition newPromise (executor : pid → M unit) : M pid :=
  ps <- get promises ;;
  let p := fresh (dom ps) in
  modify (set_promises <[p := Pending]>) ;;
  (λ w, match executor p w with
        | (Ok _, w') => (Ok p, w')
        | (Throw e, w') =>
            (modify (set_promises (partial_alter (settle (Rejected e)) p)) ;; ret p) w'
        end).

(** [setTimeout(f)] *)
Definition setTimeout (f : Task) : M unit :=
  modify (set_tasks (λ q, (q ++ [f])%list)).

(** [weakMap.set(instance, v)]: [undefined] is not a valid key. *)
Definition requireKey (instance : option iref) : M iref :=
  match instance with
  | Some i => ret i
  | None => throw (TypeError "Invalid value used as weak map key")
  end.

(** [element.onclick = f] *)
Definition setOnclick (e : option elem) (f : Closure) : M unit :=
  match e with
  | Some e => call (XsetOnclick e f)
  | None => throw (TypeError "Cannot set properties of null")
  end.

(** [element.focus()] *)
Definition focus (e : option elem) : M unit :=
  match e with
  | Some e => call (Xfocus e)
  | None => throw (TypeError "Cannot read properties of null")
  end.

(** Modelled from the spec: callIfFunction of [utils/utils.js], which is
    not part of the sources. The directive is "bool | predicate" and the
    chain tests what it "evaluates to": a predicate is called and its
    answer taken, any other value is taken as it is. *)
Definition callIfFunction (v : Value) : M Value :=
  match v with
  | VFun f =>
      r <- get (λ s, callResult X s f) ;;
      call (Xcall f) ;;
      ret r
  | _ => ret v
  end.

(** Modelled from the spec: the Timer of [utils/Timer.js]. The source
    only constructs it and never calls start(), and open "arms Timer": a
    Timer runs from its construction. A duration that is not a number
    counts as zero. *)
Definition to_ms (v : Value) : Z :=
  match v with VNum n => n | _ => 0 end.

Definition newTimer (callback : Closure) (delay : Value) : M tid :=
  ts <- get timers ;;
  let t := fresh (dom ts) in
  modify (set_timers <[t := mkTimer callback (to_ms delay) TRunning]>) ;;
  ret t.

(** Modelled from the spec: [stop()] is "terminal, callback never fires",
    and "no further operations have effect after fired or stop()". *)
Definition stopped (tm : Timer) : Timer :=
  match t_state tm with
  | TFired | TStopped => tm
  | _ => mkTimer (t_callback tm) (t_remaining tm) TStopped
  end.

Definition timer_stop (t : tid) : M unit :=
  modify (set_timers (alter stopped t)).

Definition timer_running (s : Shared Env) (t : tid) : bool :=
  match timers s !! t with
  | Some tm => match t_state tm with TRunning => true | _ => false end
  | None => false
  end.

(** ** prepareParams *)

Definition prepareParams (userParams mixinParams : Value) : M loc :=
  templateParams <- get (λ s, getTemplateParams X s userParams) ;;
  h <- get heap ;;
  params <- alloc (assign [own_props h (VRef (defaultParams X));
                           own_props h mixinParams;
                           templateParams;
                           own_props h userParams]) ;;
  d <- getProp (defaultParams X) "showClass" ;;
  p <- getProp params "showClass" ;;
  h <- get heap ;;
  showClass <- alloc (assign [own_props h d; own_props h p]) ;;
  setProp params "showClass" (VRef showClass) ;;
  d <- getProp (defaultParams X) "hideClass" ;;
  p <- getProp params "hideClass" ;;
  h <- get heap ;;
  hideClass <- alloc (assign [own_props h d; own_props h p]) ;;
  setProp params "hideClass" (VRef hideClass) ;;
  animation <- getProp params "animation" ;;
  (if strict_eq_false animation
   then
     showClass <- alloc {[ "backdrop" := VStr "swal2-noanimation" ]} ;;
     setProp params "showClass" (VRef showClass) ;;
     hideClass <- alloc ∅ ;;
     setProp params "hideClass" (VRef hideClass)
   else ret tt) ;;
  ret params.

(** ** populateDomCache *)

Definition populateDomCache (instance : option iref) : M DomCache :=
  s <- get id ;;
  let domCache :=
    mkDomCache (getPopup X s) (getContainer X s) (getActions X s)
      (getConfirmButton X s) (getDenyButton X s) (getCancelButton X s)
      (getLoader X s) (getCloseButton X s) (getValidationMessage X s)
      (getProgressSteps X s) in
  i <- requireKey instance ;;
  modify (set_pp_domCache <[i := domCache]>) ;;
  ret domCache.

(** ** setupTimer *)

Definition setupTimer (innerParams : loc) (instance : iref) : M unit :=
  timerProgressBar <- get (getTimerProgressBar X) ;;
  call (Xhide timerProgressBar) ;;
  timer <- getProp innerParams "timer" ;;
  if truthy timer
  then
    t <- newTimer (TimerExpired instance) timer ;;
    modify (set_gs_timeout (Some t)) ;;
    bar <- getProp innerParams "timerProgressBar" ;;
    if truthy bar
    then
      call (Xshow timerProgressBar) ;;
      call (XapplyCustomClass timerProgressBar innerParams) ;;
      setTimeout (ProgressBarStart innerParams)
    else ret tt
  else ret tt.

(** ** Focus *)

Definition blurActiveElement : M unit :=
  a <- get (activeElement X) ;;
  match a with
  | Some e =>
      html <- get (λ s, isHTMLElement X s e) ;;
      blur <- get (λ s, hasBlur X s e) ;;
      when (html && blur) (call (Xblur e))
  | None => ret tt
  end.

Fixpoint focusAutofocus_loop (autofocusElements : list elem) : M bool :=
  match autofocusElements with
  | [] => ret false
  | autofocusElement :: rest =>
      html <- get (λ s, isHTMLElement X s autofocusElement) ;;
      visible <- get (λ s, isVisible X s (Some autofocusElement)) ;;
      if html && visible
      then focus (Some autofocusElement) ;; ret true
      else focusAutofocus_loop rest
  end.

Definition focusAutofocus (domCache : DomCache) : M bool :=
  match dc_popup domCache with
  | Some popup =>
      autofocusElements <- get (λ s, querySelectorAll_autofocus X s popup) ;;
      focusAutofocus_loop autofocusElements
  | None => throw (TypeError "Cannot read properties of null")
  end.

Definition focusButton (domCache : DomCache) (innerParams : loc) : M bool :=
  focusDeny <- getProp innerParams "focusDeny" ;;
  denyVisible <- get (λ s, isVisible X s (dc_denyButton domCache)) ;;
  if truthy focusDeny && denyVisible
  then focus (dc_denyButton domCache) ;; ret true
  else
    focusCancel <- getProp innerParams "focusCancel" ;;
    cancelVisible <- get (λ s, isVisible X s (dc_cancelButton domCache)) ;;
    if truthy focusCancel && cancelVisible
    then focus (dc_cancelButton domCache) ;; ret true
    else
      focusConfirm <- getProp innerParams "focusConfirm" ;;
      confirmVisible <- get (λ s, isVisible X s (dc_confirmButton domCache)) ;;
      if truthy focusConfirm && confirmVisible
      then focus (dc_confirmButton domCache) ;; ret true
      else ret false.

(** Modelled from the spec: setFocus of [keydown-handler.js], which is not
    part of the sources. Step 5 of the chain: "focus the first focusable
    element inside the dialog, or no-op if none exists"; the call is
    [setFocus(-1, 1)], the element at [index + increment]. *)
Definition setFocus (index increment : Z) : M unit :=
  focusable <- get (getFocusableElements X) ;;
  match focusable !! Z.to_nat (index + increment) with
  | Some e => focus (Some e)
  | None => ret tt
  end.

Definition initFocus (domCache : DomCache) (innerParams : loc) : M unit :=
  toast <- getProp innerParams "toast" ;;
  if truthy toast then ret tt
  else
    allowEnterKey <- getProp innerParams "allowEnterKey" ;;
    allowed <- callIfFunction allowEnterKey ;;
    if negb (truthy allowed)
    then
      call (XwarnAboutDeprecation "allowEnterKey") ;;
      blurActiveElement
    else
      focused <- focusAutofocus domCache ;;
      if focused then ret tt
      else
        focused <- focusButton domCache innerParams ;;
        if focused then ret tt
        else setFocus (-1) 1.

(** ** Instance methods *)

(** Modelled from the spec: close of [instanceMethods.js], which is not
    part of the sources. It "settles the asynchronous-result handle with
    the given partial result (filling omitted boolean fields as
    false/undefined), tears down rendered state, stops any owned Timer,
    clears itself from GlobalState if it is still current, and schedules
    focus restoration"; the "Timer is stopped before any other close path
    proceeds", and "a second close() call is a no-op". *)
Definition fillResult (resultPartial : props) : props :=
  resultPartial ∪ {[ "isConfirmed" := VBool false;
                     "isDenied" := VBool false;
                     "isDismissed" := VBool false ]}.

Definition close (instance : iref) (resultPartial : props) : M unit :=
  resolve <- get (λ s, swalPromiseResolve s !! instance) ;;
  state <- get (λ s, resolve ≫= λ p, promises s !! p) ;;
  match state with
  | Some Pending =>
      t <- get gs_timeout ;;
      match t with
      | Some t => timer_stop t ;; modify (set_gs_timeout None)
      | None => ret tt
      end ;;
      callResolve resolve (fillResult resultPartial) ;;
      call (Xteardown instance) ;;
      cur <- get gs_currentInstance ;;
      when (bool_decide (cur = Some instance))
        (emit (ESetCurrent None) ;; modify (set_gs_currentInstance None)) ;;
      setTimeout RestoreFocus
  | _ => ret tt
  end.

(** Modelled from the spec: update of [instanceMethods.js], which is not
    part of the sources. It "merges into the current effective
    configuration and re-renders affected parts without changing identity
    or re-settling the result"; "updates replace it with a new merged
    object". *)
Definition update (instance : iref) (partialConfig : Value) : M unit :=
  current <- get (λ s, pp_innerParams s !! instance) ;;
  match current with
  | Some innerParams =>
      h <- get heap ;;
      updated <- alloc (assign [own_props h (VRef innerParams); own_props h partialConfig]) ;;
      freeze updated ;;
      emit (EInnerParams instance updated) ;;
      modify (set_pp_innerParams <[instance := updated]>) ;;
      call (Xrender instance updated)
  | None => ret tt
  end.

(** [instance.close({ isDismissed: true, dismiss })] *)
Definition dismissWith (instance : iref) (dismiss : Value) : M unit :=
  close instance {[ "isDismissed" := VBool true; "dismiss" := dismiss ]}.

(** ** swalPromise *)

Definition swalPromise (instance : option iref) (domCache : DomCache) (innerParams : loc)
  : M pid :=
  newPromise (λ resolve,
    i <- requireKey instance ;;
    modify (set_swalPromiseResolve <[i := resolve]>) ;;
    modify (set_swalPromiseReject <[i := resolve]>) ;;
    setOnclick (dc_confirmButton domCache) (OnConfirmClick i) ;;
    setOnclick (dc_denyButton domCache) (OnDenyClick i) ;;
    setOnclick (dc_cancelButton domCache) (OnCancelClick i) ;;
    setOnclick (dc_closeButton domCache) (OnCloseClick i) ;;
    call (XhandlePopupClick innerParams domCache (DismissWith i)) ;;
    call (XaddKeydownHandler innerParams (DismissWith i)) ;;
    call (XhandleInputOptionsAndValue i innerParams) ;;
    call (XopenPopup innerParams) ;;
    setupTimer innerParams i ;;
    initFocus domCache innerParams ;;
    setTimeout (ScrollTop (dc_container domCache))).

(** ** The class *)

(** [const { isAwaitingPromise } = instance], as [!isAwaitingPromise]
    reads it: an unset field is falsy. *)
Definition awaiting (s : Shared Env) (instance : iref) : bool :=
  match instances s !! instance with
  | Some o => default false (isAwaitingPromise o)
  | None => false
  end.

Definition _main (userParams mixinParams : Value) : M pid :=
  h <- get heap ;;
  call (XshowWarningsForParams (assign [own_props h mixinParams; own_props h userParams])) ;;
  registered <- get gs_currentInstance ;;
  match registered with
  | Some old =>
      swalPromiseResolve <- get (λ s, swalPromiseResolve s !! old) ;;
      isAwaitingPromise <- get (λ s, awaiting s old) ;;
      call (X_destroy old) ;;
      (if negb isAwaitingPromise
       then callResolve swalPromiseResolve {[ "isDismissed" := VBool true ]}
       else ret tt) ;;
      modal <- get (isModal X) ;;
      when modal (call XunsetAriaHidden)
  | None => ret tt
  end ;;
  current <- get_currentInstance ;;
  emit (ESetCurrent current) ;;
  modify (set_gs_currentInstance current) ;;
  innerParams <- prepareParams userParams mixinParams ;;
  call (XsetParameters innerParams) ;;
  freeze innerParams ;;
  t <- get gs_timeout ;;
  match t with
  | Some t => timer_stop t ;; modify (set_gs_timeout None)
  | None => ret tt
  end ;;
  call XclearTimeout ;;
  domCache <- populateDomCache current ;;
  i <- requireKey current ;;
  call (Xrender i innerParams) ;;
  emit (EInnerParams i innerParams) ;;
  modify (set_pp_innerParams <[i := innerParams]>) ;;
  swalPromise current domCache innerParams.

(** [this.params = v] and [this.isAwaitingPromise = b] *)
Definition set_params (this : iref) (v : loc) : M unit :=
  emit (EParams this v) ;;
  modify (set_instances (alter (λ o, mkInstance (Some v) (isAwaitingPromise o)) this)).

Definition set_isAwaitingPromise (this : iref) (b : bool) : M unit :=
  modify (set_instances (alter (λ o, mkInstance (params o) (Some b)) this)).

(** [instance.params], as an argument *)
Definition params_of (s : Shared Env) (instance : option iref) : Value :=
  match instance with
  | Some i =>
      match instances s !! i with
      | Some o => from_option VRef VUndefined (params o)
      | None => VUndefined
      end
  | None => VUndefined
  end.

(** The [new] operator makes [this], an object with no field of its own,
    before the constructor body runs. *)
Definition new_instance : M iref :=
  known <- get instances ;;
  let this := fresh (dom known) in
  modify (set_instances <[this := mkInstance None None]>) ;;
  ret this.

Definition constructor (this : iref) (args : list Value) : M unit :=
  if negb (window_defined X) then ret tt
  else
    set_currentInstance (Some this) ;;
    outer <- get (λ s, argsToParams X s args) ;;
    outerParams <- alloc outer ;;
    freeze outerParams ;;
    set_params this outerParams ;;
    set_isAwaitingPromise this false ;;
    current <- get_currentInstance ;;
    userParams <- get (λ s, params_of s current) ;;
    promise <- _main userParams VUndefined ;;
    set_promise_ this promise.

(** [new SweetAlert(...args)] *)
Definition new_SweetAlert (args : list Value) : M iref :=
  this <- new_instance ;;
  constructor this args ;;
  ret this.

(** ** The static proxies *)

(** The names assigned on [SweetAlert.prototype]. *)
Definition prototype_methods : list string :=
  [ "disableButtons"; "enableButtons"; "getInput"; "disableInput"; "enableInput";
    "hideLoading"; "disableLoading"; "showValidationMessage"; "resetValidationMessage";
    "close"; "closePopup"; "closeModal"; "closeToast"; "rejectPromise"; "update";
    "_destroy" ].

(** [instance[key](...args)]: [close] and [update] as modelled above,
    [_destroy] and the other methods as calls that leave the file. *)
Definition invoke (instance : iref) (key : string) (args : list Value) : M Value :=
  if String.eqb key "close" then
    h <- get heap ;;
    close instance (own_props h (default VUndefined (head args))) ;;
    ret VUndefined
  else if String.eqb key "update" then
    update instance (default VUndefined (head args)) ;;
    ret VUndefined
  else if String.eqb key "_destroy" then
    call (X_destroy instance) ;;
    ret VUndefined
  else
    r <- get (λ s, methodResult X s instance key args) ;;
    call (Xmethod instance key args) ;;
    ret r.

(** [SweetAlert[key]], for a [key] of [Object.keys(instanceMethods)]. The
    exports of [instanceMethods] are functions, and none of them has the
    name of a field or of a method the class defines itself: [instance[key]]
    is truthy exactly for the names assigned on the prototype. *)
Definition static_proxy (key : string) (args : list Value) : M Value :=
  current <- get_currentInstance ;;
  match current with
  | Some instance =>
      if bool_decide (key ∈ prototype_methods)
      then invoke instance key args
      else ret VNull
  | None => ret VNull
  end.

(** ** The event loop, while nobody touches the page *)

(** Calling a closure without an argument. [DismissReason.close] is the
    reason "close" of the spec's closed set. *)
Definition run_closure (f : Closure) : M unit :=
  match f with
  | OnConfirmClick i => call (XhandleConfirmButtonClick i)
  | OnDenyClick i => call (XhandleDenyButtonClick i)
  | OnCancelClick i => call (XhandleCancelButtonClick i (DismissWith i))
  | OnCloseClick i => dismissWith i (VStr "close")
  | DismissWith i => dismissWith i VUndefined
  | TimerExpired i => dismissWith i (VStr "timer") ;; modify (set_gs_timeout None)
  end.

Definition run_task (f : Task) : M unit :=
  match f with
  | ProgressBarStart innerParams =>
      t <- get gs_timeout ;;
      running <- get (λ s, from_option (timer_running s) false t) ;;
      if running
      then timer <- getProp innerParams "timer" ;; call (XanimateTimerProgressBar timer)
      else ret tt
  | ScrollTop container =>
      match container with
      | Some e => call (XsetScrollTop e)
      | None => throw (TypeError "Cannot set properties of null")
      end
  | RestoreFocus => call XrestoreFocus
  end.

(** An exception a callback throws ends that callback and nothing else. *)
Definition attempt (m : M unit) : M unit :=
  λ w, (Ok tt, (m w).2).

Fixpoint run_tasks (q : list Task) : M unit :=
  match q with
  | [] => ret tt
  | f :: q => attempt (run_task f) ;; run_tasks q
  end.

(** Modelled from the spec: [dt] milliseconds pass for one Timer. "On
    expiry of the running duration, invokes its callback exactly once and
    transitions to fired". *)
Definition advance (dt : Z) (t : tid) : M unit :=
  tm <- get (λ s, timers s !! t) ;;
  match tm with
  | Some tm =>
      match t_state tm with
      | TRunning =>
          if t_remaining tm <=? dt
          then
            modify (set_timers <[t := mkTimer (t_callback tm) 0 TFired]>) ;;
            emit (ETimerFired t) ;;
            run_closure (t_callback tm)
          else
            modify (set_timers <[t := mkTimer (t_callback tm) (t_remaining tm - dt) TRunning]>)
      | _ => ret tt
      end
  | None => ret tt
  end.

Fixpoint advance_all (dt : Z) (ts : list tid) : M unit :=
  match ts with
  | [] => ret tt
  | t :: ts => attempt (advance dt t) ;; advance_all dt ts
  end.

(** One turn of the event loop with no user interaction: the queued
    callbacks run, then [dt] milliseconds pass. *)
Definition idle (dt : Z) : M unit :=
  q <- get tasks ;;
  modify (set_tasks (λ _, [])) ;;
  run_tasks q ;;
  ts <- get (λ s, (map_to_list (timers s)).*1) ;;
  advance_all dt ts.

Fixpoint idle_for (dts : list Z) : M unit :=
  match dts with
  | [] => ret tt
  | dt :: dts => idle dt ;; idle_for dts
  end.

(** ** What can happen to the page *)

Inductive Op :=
| New (args : list Value)                              (* new SweetAlert(...args) *)
| Static (key : string) (args : list Value)            (* SweetAlert[key](...args) *)
| Method (instance : iref) (key : string) (args : list Value)  (* instance[key](...args) *)
| Click (f : Closure)                                  (* a handler runs *)
| Idle (dt : Z).                                       (* time passes *)

Definition perform (o : Op) : M unit :=
  match o with
  | New args => this <- new_SweetAlert args ;; ret tt
  | Static key args => r <- static_proxy key args ;; ret tt
  | Method instance key args =>
      if bool_decide (key ∈ prototype_methods)
      then r <- invoke instance key args ;; ret tt
      else throw (TypeError "instance[key] is not a function")
  | Click f => run_closure f
  | Idle dt => idle dt
  end.

(** A run of operations; an exception ends the operation that threw it. *)
Fixpoint session (ops : list Op) : M unit :=
  match ops with
  | [] => ret tt
  | o :: ops => attempt (perform o) ;; session ops
  end.

End Program.

(** ** Running a program *)

Definition outcome {Env A} (m : M Env A) (w : World Env) : Res A := (m w).1.
Definition exec {Env A} (m : M Env A) (w : World Env) : World Env := (m w).2.

(** The properties of the object at [l], if there is one. *)
Definition object_at {Env} (w : World Env) (l : loc) : option props :=
  obj_props <$> heap (shared w) !! l.

Definition frozen_at {Env} (w : World Env) (l : loc) : bool :=
  from_option obj_frozen false (heap (shared w) !! l).

(** [o.k] where [o] is the value of a property: the object a reference
    leads to. *)
Definition object_of {Env} (w : World Env) (v : option Value) : option props :=
  match v with
  | Some (VRef l) => object_at w l
  | _ => None
  end.

(** The first of the sources, from the highest precedence down, that has
    the key. *)
Fixpoint first_of (k : string) (sources : list props) : option Value :=
  match sources with
  | [] => None
  | s :: rest => match s !! k with Some v => Some v | None => first_of k rest end
  end.

(** ** Vocabulary of the statements *)

(** The events a run appends to the trace. *)
Definition new_events {Env} (w w' : World Env) : list Event :=
  drop (length (trace w)) (trace w').

(** [f] leaves the frozen objects of [s] as they are. *)
Definition frozen_kept_at {Env} (s : Shared Env) (f : Shared Env → Shared Env) : Prop :=
  ∀ l o, heap s !! l = Some o → obj_frozen o = true → heap (f s) !! l = Some o.

(** What JavaScript guarantees of the imported modules as of any code:
    an object stays in the heap, and a frozen object stays as it is. *)
Definition respects_frozen {Env} (X : Externals Env) : Prop :=
  ∀ c s l o, heap s !! l = Some o →
    ∃ o', heap (effect X c s) !! l = Some o' ∧ (obj_frozen o = true → o' = o).

(** The imported modules leave the heap, the timers, the promises and the
    resolve functions to this file. *)
Definition quiet {Env} (X : Externals Env) : Prop :=
  ∀ c s,
    heap (effect X c s) = heap s ∧
    timers (effect X c s) = timers s ∧
    promises (effect X c s) = promises s ∧
    swalPromiseResolve (effect X c s) = swalPromiseResolve s ∧
    gs_timeout (effect X c s) = gs_timeout s.

(** [R] relates every world to the one a run of [m] leaves. *)
Definition always {Env A} (R : World Env → World Env → Prop) (m : M Env A) : Prop :=
  ∀ w, R w (exec m w).

(** [Q] holds of the outcome and the world a run of [m] leaves. *)
Definition wp {Env A} (m : M Env A) (Q : Res A → World Env → Prop) (w : World Env) : Prop :=
  Q (outcome m w) (exec m w).

(** The events of the calls and weak-map writes that follow the eviction
    in [_main]: no [_destroy], no resolve, no write to the registry. *)
Definition leaves_file (e : Event) : Prop :=
  match e with
  | ECall (X_destroy _) => False
  | ECall _ => True
  | EInnerParams _ _ => True
  | _ => False
  end.

(** The calls that leave the file, [_destroy] apart. *)
Definition quiet_call (e : Event) : Prop :=
  match e with
  | ECall (X_destroy _) => False
  | ECall _ => True
  | _ => False
  end.

(** The events that attach a configuration to an instance. *)
Definition attaches (e : Event) : Prop :=
  match e with
  | EInnerParams _ _ | EParams _ _ => True
  | _ => False
  end.


(** The shared state when [_main] reaches the eviction, that is after
    [showWarningsForParams]. *)
Definition warned {Env} (X : Externals Env) (userParams mixinParams : Value) (w : World Env)
  : Shared Env :=
  let h := heap (shared w) in
  effect X (XshowWarningsForParams (assign [own_props h mixinParams; own_props h userParams]))
    (shared w).

(** What [_main] does once the registry holds the new instance. *)
Definition main_after_install {Env} (X : Externals Env) (userParams mixinParams : Value)
    (current : option iref) : M Env pid :=
  innerParams <- prepareParams X userParams mixinParams ;;
  call X (XsetParameters innerParams) ;;
  freeze innerParams ;;
  t <- get gs_timeout ;;
  match t with
  | Some t => timer_stop t ;; modify (set_gs_timeout None)
  | None => ret tt
  end ;;
  call X XclearTimeout ;;
  domCache <- populateDomCache X current ;;
  i <- requireKey current ;;
  call X (Xrender i innerParams) ;;
  emit (EInnerParams i innerParams) ;;
  modify (set_pp_innerParams <[i := innerParams]>) ;;
  swalPromise X current domCache innerParams.

(** The eviction in [_main]: what it does before it writes the
    registry. *)
Definition main_eviction {Env} (X : Externals Env) (userParams mixinParams : Value)
  : M Env unit :=
  h <- get heap ;;
  call X (XshowWarningsForParams (assign [own_props h mixinParams; own_props h userParams])) ;;
  registered <- get gs_currentInstance ;;
  match registered with
  | Some old =>
      swalPromiseResolve <- get (λ s, swalPromiseResolve s !! old) ;;
      isAwaitingPromise <- get (λ s, awaiting s old) ;;
      call X (X_destroy old) ;;
      (if negb isAwaitingPromise
       then callResolve swalPromiseResolve {[ "isDismissed" := VBool true ]}
       else ret tt) ;;
      modal <- get (isModal X) ;;
      when modal (call X XunsetAriaHidden)
  | None => ret tt
  end.

(** [globalState.currentInstance = currentInstance], the write of the
    registry. *)
Definition install {Env} (current : option iref) : M Env unit :=
  emit (ESetCurrent current) ;;
  modify (set_gs_currentInstance current).

(** What the constructor does, where [window] is defined, before it
    calls [_main], from the [new] operator on. *)
Definition constructor_before_main {Env} (X : Externals Env) (args : list Value)
  : M Env (iref * loc) :=
  this <- new_instance ;;
  set_currentInstance (Some this) ;;
  outer <- get (λ s, argsToParams X s args) ;;
  outerParams <- alloc outer ;;
  freeze outerParams ;;
  set_params this outerParams ;;
  set_isAwaitingPromise this false ;;
  ret (this, outerParams).

(** What the constructor does once the module-level [currentInstance]
    holds the new instance. *)
Definition constructor_after_assignment {Env} (X : Externals Env) (this : iref)
    (args : list Value) : M Env unit :=
  outer <- get (λ s, argsToParams X s args) ;;
  outerParams <- alloc outer ;;
  freeze outerParams ;;
  set_params this outerParams ;;
  set_isAwaitingPromise this false ;;
  current <- get_currentInstance ;;
  userParams <- get (λ s, params_of s current) ;;
  promise <- _main X userParams VUndefined ;;
  set_promise_ this promise.

(** A relation between the world before and after a run that every step
    of the module keeps, provided the events it emits are [allowed]. *)
Record Frame {Env} (X : Externals Env) (R : World Env → World Env → Prop)
    (allowed : Event → Prop) : Prop := mkFrame {
  R_refl : ∀ w, R w w;
  R_trans : ∀ a b c, R a b → R b c → R a c;
  R_modify : ∀ f w, frozen_kept_at (shared w) f → R w (on_shared f w);
  R_effect : ∀ c w, R w (on_shared (effect X c) w);
  R_emit : ∀ e w, allowed e → R w (exec (emit e) w);
  R_promise_ : ∀ i p w, R w (exec (set_promise_ i p) w)
}.
Arguments R_refl {Env X R allowed} _.
Arguments R_trans {Env X R allowed} _.
Arguments R_modify {Env X R allowed} _.
Arguments R_effect {Env X R allowed} _.
Arguments R_emit {Env X R allowed} _.
Arguments R_promise_ {Env X R allowed} _.

(** The run only appends events, all of them in [P]. *)
Definition extends {Env} (P : Event → Prop) (w w' : World Env) : Prop :=
  ∃ evs, trace w' = (trace w ++ evs)%list ∧ Forall P evs.

(** The module-level [currentInstance] is left as it was. *)
Definition same_currentInstance {Env} (w w' : World Env) : Prop :=
  currentInstance w' = currentInstance w.

(** The frozen objects are left as they were. *)
Definition frozen_kept {Env} (w w' : World Env) : Prop :=
  ∀ l o, heap (shared w) !! l = Some o → obj_frozen o = true →
         heap (shared w') !! l = Some o.

(** [Object.assign({}, defaultParams, mixinParams, templateParams, userParams)] *)
Definition merged_params {Env} (X : Externals Env) (userParams mixinParams : Value)
    (w : World Env) : props :=
  let h := heap (shared w) in
  assign [own_props h (VRef (defaultParams X)); own_props h mixinParams;
          getTemplateParams X (shared w) userParams; own_props h userParams].

(** The own property [k] of the object at [l]. *)
Definition own_prop {Env} (w : World Env) (l : loc) (k : string) : option Value :=
  heap (shared w) !! l ≫= λ o, obj_props o !! k.

(** ** A page to run the module on *)

(** A browser page with a rendered dialog: the popup and its parts are
    the elements 1 to 11, the imported modules change nothing, and
    [argsToParams] copies the structured configuration it is given. The
    dialog has no input: [getInput] answers [null], and the other
    instance methods return nothing. *)
Definition page (window : bool) (template : props) (autofocus focusable : list elem)
    (html visible : elem → bool) : Externals unit :=
  {| window_defined := window;
     defaultParams := 1%positive;
     getTemplateParams := λ _ _, template;
     argsToParams := λ s args, own_props (heap s) (default VUndefined (head args));
     effect := λ _ s, s;
     isModal := λ _, true;
     getPopup := λ _, Some 1%positive;
     getContainer := λ _, Some 2%positive;
     getActions := λ _, Some 3%positive;
     getConfirmButton := λ _, Some 4%positive;
     getDenyButton := λ _, Some 5%positive;
     getCancelButton := λ _, Some 6%positive;
     getLoader := λ _, Some 7%positive;
     getCloseButton := λ _, Some 8%positive;
     getValidationMessage := λ _, Some 9%positive;
     getProgressSteps := λ _, Some 10%positive;
     getTimerProgressBar := λ _, Some 11%positive;
     querySelectorAll_autofocus := λ _ _, autofocus;
     isHTMLElement := λ _, html;
     isVisible := λ _ e, from_option visible false e;
     getFocusableElements := λ _, focusable;
     activeElement := λ _, None;
     hasBlur := λ _ _, true;
     callResult := λ _ _, VBool true;
     instanceMethods_keys := prototype_methods;
     methodResult := λ _ _ key _,
       if String.eqb key "getInput" then VNull else VUndefined |}.

(** The page before any dialog was opened, with the objects of [h]. *)
Definition fresh_page {Env} (e : Env) (h : gmap loc Obj) : World Env :=
  {| shared := {| heap := h; instances := ∅; gs_currentInstance := None;
                  gs_timeout := None; swalPromiseResolve := ∅; swalPromiseReject := ∅;
                  pp_innerParams := ∅; pp_domCache := ∅; promises := ∅; timers := ∅;
                  tasks := []; env := e |};
     currentInstance := None;
     promise_ := ∅;
     trace := [] |}.

Definition obj (l : list (string * Value)) : Obj := mkObj (list_to_map l) false.

(** The example of the merge: defaults [{a:1, b:1}] at 1, mixin [{b:2}]
    at 2, caller [{a:9}] at 3, declarative [{c:3}]. *)
Definition merge_example : World unit :=
  fresh_page tt
    (list_to_map [ (1%positive, obj [("a", VNum 1); ("b", VNum 1)]);
                   (2%positive, obj [("b", VNum 2)]);
                   (3%positive, obj [("a", VNum 9)]) ]).

Definition merge_page : Externals unit :=
  page true {[ "c" := VNum 3 ]} [] [] (λ _, true) (λ _, true).

(** Defaults as the library ships them, as far as this file reads them,
    at 1 with their class maps at 2 and 3. *)
Definition stock_defaults : gmap loc Obj :=
  list_to_map
    [ (1%positive, obj [("animation", VBool true); ("allowEnterKey", VBool true);
                        ("focusConfirm", VBool true); ("focusDeny", VBool false);
                        ("focusCancel", VBool false); ("toast", VBool false);
                        ("showClass", VRef 2); ("hideClass", VRef 3)]);
      (2%positive, obj [("popup", VStr "swal2-show"); ("backdrop", VStr "swal2-backdrop-show")]);
      (3%positive, obj [("popup", VStr "swal2-hide"); ("backdrop", VStr "swal2-backdrop-hide")]) ].

(** The same page with the caller's configuration at 4. *)
Definition stock_page (config : list (string * Value)) : World unit :=
  fresh_page tt (<[4%positive := obj config]> stock_defaults).

Definition plain_page : Externals unit :=
  page true ∅ [] [4%positive] (λ _, true) (λ _, true).

(** A dialog opened on the stock page with the caller's [config]. *)
Definition opened (config : list (string * Value)) : World unit :=
  exec (new_SweetAlert plain_page [VRef 4]) (stock_page config).

(** The same on a page without [window]. *)
Definition headless : Externals unit :=
  page false ∅ [] [] (λ _, true) (λ _, true).

(** ** Vocabulary of the focus chain *)

(** A focus directive is set and its button is visible. *)
Definition wants {Env} (X : Externals Env) (w : World Env) (innerParams : loc)
    (directive : string) (button : option elem) : bool :=
  truthy (prop_of (shared w) innerParams directive) && isVisible X (shared w) button.

(** The world after [e.focus()]. *)
Definition focused {Env} (X : Externals Env) (e : elem) (w : World Env) : World Env :=
  exec (call X (Xfocus e)) w.

(** What a directive evaluates to: the answer of a predicate, or the
    value itself. *)
Definition evaluated {Env} (X : Externals Env) (s : Shared Env) (v : Value) : Value :=
  match v with VFun f => callResult X s f | _ => v end.

(** The first element marked autofocus that is an HTMLElement and
    visible. *)
Definition first_autofocus {Env} (X : Externals Env) (s : Shared Env) (popup : elem)
  : option elem :=
  find (λ e, isHTMLElement X s e && isVisible X s (Some e))
    (querySelectorAll_autofocus X s popup).

(** Step 3 of the chain in the words of the specification: where the
    dialog is no toast and Enter is allowed, "the first visible element
    marked autofocus is focused". *)
Definition autofocus_step_as_stated : Prop :=
  ∀ Env (X : Externals Env) (domCache : DomCache) (innerParams : loc) (w : World Env)
    (popup e : elem),
    truthy (prop_of (shared w) innerParams "toast") = false →
    prop_of (shared w) innerParams "allowEnterKey" = VBool true →
    dc_popup domCache = Some popup →
    find (λ e, isVisible X (shared w) (Some e))
      (querySelectorAll_autofocus X (shared w) popup) = Some e →
    new_events w (exec (initFocus X domCache innerParams) w) = [ECall (Xfocus e)].

(** A dialog whose first autofocus element, 20, is an SVG element, and
    whose second, 21, is a button; both are visible. *)
Definition svg_page : Externals unit :=
  page true ∅ [20%positive; 21%positive] [4%positive]
    (λ e, negb (Pos.eqb e 20)) (λ _, true).

Definition rendered : DomCache :=
  mkDomCache (Some 1%positive) (Some 2%positive) (Some 3%positive) (Some 4%positive)
    (Some 5%positive) (Some 6%positive) (Some 7%positive) (Some 8%positive)
    (Some 9%positive) (Some 10%positive).

(** ** Vocabulary of the registry and the results *)

(** What the result of an evicted instance is resolved with. *)
Definition superseded : props := {[ "isDismissed" := VBool true ]}.

(** The imported modules settle no promise themselves. *)
Definition keeps_promises {Env} (X : Externals Env) : Prop :=
  ∀ c s, promises (effect X c s) = promises s.

(** No function of the imported modules but [_destroy] writes the
    registry. *)
Definition keeps_registry {Env} (X : Externals Env) : Prop :=
  ∀ c s, quiet_call (ECall c) → gs_currentInstance (effect X c s) = gs_currentInstance s.

(** Every promise of [w] is in [w'] in the state it had. *)
Definition promises_kept {Env} (w w' : World Env) : Prop :=
  ∀ p, is_Some (promises (shared w) !! p) →
       promises (shared w') !! p = promises (shared w) !! p.

(** The registry is left as it was. *)
Definition registry_kept {Env} (w w' : World Env) : Prop :=
  gs_currentInstance (shared w') = gs_currentInstance (shared w).

(** A relation between the world before and after a run that is kept
    by the functions of the imported modules, [_destroy] apart, by the
    trace and by every write that leaves the heap, the promises and the
    registry alone. *)
Record Keeps {Env} (X : Externals Env) (R : World Env → World Env → Prop) : Prop := mkKeeps {
  K_refl : ∀ w, R w w;
  K_trans : ∀ a b c, R a b → R b c → R a c;
  K_effect : ∀ c w, quiet_call (ECall c) → R w (on_shared (effect X c) w);
  K_emit : ∀ e w, R w (exec (emit e) w);
  K_write : ∀ f w,
    heap (f (shared w)) = heap (shared w) →
    promises (f (shared w)) = promises (shared w) →
    gs_currentInstance (f (shared w)) = gs_currentInstance (shared w) →
    R w (on_shared f w)
}.
Arguments K_refl {Env X R} _.
Arguments K_trans {Env X R} _.
Arguments K_effect {Env X R} _.
Arguments K_emit {Env X R} _.
Arguments K_write {Env X R} _.

(** The relation is kept by every write of the heap, or of the
    promises. *)
Definition heap_free {Env} (R : World Env → World Env → Prop) : Prop :=
  ∀ f w, R w (on_shared (set_heap f) w).

Definition promise_free {Env} (R : World Env → World Env → Prop) : Prop :=
  ∀ f w, R w (on_shared (set_promises f) w).

(** The page of an open dialog while a second one is constructed: the
    world in which the constructor of the second calls [_main], with the
    second instance, 2, in the module-level [currentInstance], the first,
    1, in the registry, and the frozen [params] of the second at 9. *)
Definition reopening (config : list (string * Value)) : World unit :=
  exec (constructor_before_main plain_page [VRef 4]) (opened config).

(** The same where a handler of the open dialog has set its
    [isAwaitingPromise]. *)
Definition reopening_awaited (config : list (string * Value)) : World unit :=
  exec (constructor_before_main plain_page [VRef 4])
    (on_shared (set_instances (alter (λ o, mkInstance (params o) (Some true)) 1%positive))
       (opened config)).

(** ** Vocabulary of the static proxies *)



(** ** Vocabulary of the frozen configurations *)

(** [l] was attached to an instance, as its [params] or as its
    [innerParams]. *)
Definition attached (l : loc) (evs : list Event) : Prop :=
  ∃ i, EInnerParams i l ∈ evs ∨ EParams i l ∈ evs.

(** The frozen objects are kept, and what the run attached is frozen. *)
Definition attached_frozen {Env} (w w' : World Env) : Prop :=
  frozen_kept w w' ∧
  ∃ evs, trace w' = (trace w ++ evs)%list ∧ ∀ l, attached l evs → frozen_at w' l = true.

(** The configuration in the words of the specification: it is
    "deep-frozen", so that a write to a property of a nested class map
    of the attached configuration leaves the property as it was. *)
Definition deep_frozen_as_stated : Prop :=
  ∀ Env (X : Externals Env) (e : Env) (h : gmap loc Obj) (args : list Value),
    respects_frozen X →
    let w := exec (new_SweetAlert X args) (fresh_page e h) in
    ∀ i l sub k v,
      pp_innerParams (shared w) !! i = Some l →
      own_prop w l "showClass" = Some (VRef sub) ∨ own_prop w l "hideClass" = Some (VRef sub) →
      own_prop (exec (setProp sub k v) w) sub k = own_prop w sub k.

(** The imported modules freeze no object: one that is not frozen stays
    in the heap, not frozen. *)
Definition freezes_nothing {Env} (X : Externals Env) : Prop :=
  ∀ c s l o, heap s !! l = Some o → obj_frozen o = false →
    ∃ o', heap (effect X c s) !! l = Some o' ∧ obj_frozen o' = false.

(** [l] is an object that is not frozen. *)
Definition mutable_at {Env} (w : World Env) (l : loc) : Prop :=
  ∃ o, heap (shared w) !! l = Some o ∧ obj_frozen o = false.

(** The objects other than [l] that were not frozen are not frozen. *)
Definition freezes_at_most {Env} (l : loc) (w w' : World Env) : Prop :=
  ∀ x, x ≠ l → mutable_at w x → mutable_at w' x.

(** The page while its first dialog is constructed: the world in which
    [_main] has written the registry and goes on to prepare the
    parameters; the caller's configuration is at 4 and the frozen
    [params] of the instance, 1, at 5. *)
Definition installing (config : list (string * Value)) : World unit :=
  let calling := exec (constructor_before_main plain_page [VRef 4]) (stock_page config) in
  exec (install (Some 1%positive))
    (exec (main_eviction plain_page (VRef 5) VUndefined) calling).

(** The configuration [l] is frozen, and the run from [w0] up to here
    kept what was frozen and froze what it attached. *)
Definition holds_frozen {Env} (l : loc) (w0 w : World Env) : Prop :=
  attached_frozen w0 w ∧ frozen_at w l = true.

(** ** Vocabulary of the timer *)

(** What [close] settles the result with when the timer dismisses. *)
Definition timer_result : props :=
  {[ "isConfirmed" := VBool false; "isDenied" := VBool false;
     "isDismissed" := VBool true; "dismiss" := VStr "timer" ]}.

(** How often the Timer [t] ran its callback. *)
Definition fired_by (t : tid) (e : Event) : bool :=
  match e with ETimerFired t' => Pos.eqb t t' | _ => false end.

Definition fires (t : tid) (evs : list Event) : nat :=
  length (List.filter (fired_by t) evs).

Definition elapsed (dts : list Z) : Z := foldr Z.add 0 dts.

(** The run changed neither the timers, the promises and the resolve
    functions nor the count of [t]'s firings. *)
Definition inert {Env} (t : tid) (w w' : World Env) : Prop :=
  timers (shared w') = timers (shared w) ∧
  promises (shared w') = promises (shared w) ∧
  swalPromiseResolve (shared w') = swalPromiseResolve (shared w) ∧
  fires t (trace w') = fires t (trace w).

(** The Timer [t] of instance [i] runs with [r] milliseconds left, no
    other Timer runs, and the result [p] of [i] is pending. *)
Definition armed {Env} (t : tid) (i : iref) (p : pid) (n : nat) (r : Z) (w : World Env)
  : Prop :=
  timers (shared w) !! t = Some (mkTimer (TimerExpired i) r TRunning) ∧
  0 < r ∧
  (∀ t', t' ≠ t → timer_running (shared w) t' = false) ∧
  swalPromiseResolve (shared w) !! i = Some p ∧
  promises (shared w) !! p = Some Pending ∧
  fires t (trace w) = n.

(** The Timer fired, once more than before: no Timer runs and the result
    is settled by the timer. *)
Definition dismissed {Env} (t : tid) (p : pid) (n : nat) (w : World Env) : Prop :=
  (∀ t', timer_running (shared w) t' = false) ∧
  promises (shared w) !! p = Some (Fulfilled timer_result) ∧
  fires t (trace w) = S n.

(** A page whose dialog 1 waits for its result, the pending promise 1;
    the configuration object 4 asks for a timer of 1500 ms. *)
Definition timed_page : World unit :=
  on_shared (λ s, set_promises <[1%positive := Pending]>
                    (set_swalPromiseResolve <[1%positive := 1%positive]> s))
    (stock_page [("timer", VNum 1500)]).

(** ** Vocabulary of the frame properties *)

(** The fields of the state: those shared with the imported modules,
    and the two of the module, the module-level [currentInstance] and the
    private [#promise] of the instances. *)
Inductive Field :=
| FHeap | FInstances | FCurrentInstance | FTimeout | FResolve | FReject
| FInnerParams | FDomCache | FPromises | FTimers | FTasks | FEnv
| FModuleInstance | FPrivatePromise.

#[global] Instance Field_eq_dec : EqDecision Field.
Proof. solve_decision. Defined.

Definition same_at {Env} (f : Field) (w w' : World Env) : Prop :=
  match f with
  | FHeap => heap (shared w') = heap (shared w)
  | FInstances => instances (shared w') = instances (shared w)
  | FCurrentInstance => gs_currentInstance (shared w') = gs_currentInstance (shared w)
  | FTimeout => gs_timeout (shared w') = gs_timeout (shared w)
  | FResolve => swalPromiseResolve (shared w') = swalPromiseResolve (shared w)
  | FReject => swalPromiseReject (shared w') = swalPromiseReject (shared w)
  | FInnerParams => pp_innerParams (shared w') = pp_innerParams (shared w)
  | FDomCache => pp_domCache (shared w') = pp_domCache (shared w)
  | FPromises => promises (shared w') = promises (shared w)
  | FTimers => timers (shared w') = timers (shared w)
  | FTasks => tasks (shared w') = tasks (shared w)
  | FEnv => env (shared w') = env (shared w)
  | FModuleInstance => currentInstance w' = currentInstance w
  | FPrivatePromise => promise_ w' = promise_ w
  end.

(** The run wrote the fields [F] at most. *)
Definition touches {Env} (F : list Field) (w w' : World Env) : Prop :=
  ∀ f, f ∉ F → same_at f w w'.

(** The imported modules write the fields [E] at most. *)
Definition footprint {Env} (X : Externals Env) (E : list Field) : Prop :=
  ∀ c w, touches E w (on_shared (effect X c) w).

(** The imported modules write the state of the rendering layer only. *)
Definition passive {Env} (X : Externals Env) : Prop := footprint X [FEnv].

(** ** Vocabulary of the class maps *)

(** A reference leads to an object of the heap; JavaScript has no other
    references. *)
Definition refers_inside {Env} (s : Shared Env) (v : Value) : Prop :=
  match v with
  | VRef l => is_Some (heap s !! l)
  | _ => True
  end.

(** [defaultParams[key]] and the value of [key] in the merge of the four
    sources. *)
Definition default_class {Env} (X : Externals Env) (w : World Env) (key : string) : Value :=
  prop_of (shared w) (defaultParams X) key.

Definition merged_class {Env} (X : Externals Env) (userParams mixinParams : Value)
    (w : World Env) (key : string) : Value :=
  default VUndefined (merged_params X userParams mixinParams w !! key).

(** ** Vocabulary of the timers *)

(** [s] with another state of the rendering layer. *)
Definition with_env {Env} (e : Env) (s : Shared Env) : Shared Env :=
  mkShared (heap s) (instances s) (gs_currentInstance s) (gs_timeout s)
    (swalPromiseResolve s) (swalPromiseReject s) (pp_innerParams s) (pp_domCache s)
    (promises s) (timers s) (tasks s) e.

(** Only the Timer in [globalState.timeout] may be running. *)
Definition one_timer {Env} (s : Shared Env) : Prop :=
  ∀ t, timer_running s t = true → gs_timeout s = Some t.

(** The run left the Timers and [globalState.timeout] as they were, or
    it made one Timer, running, and stored it in [globalState.timeout]. *)
Definition arms {Env} (w w' : World Env) : Prop :=
  (timers (shared w') = timers (shared w) ∧ gs_timeout (shared w') = gs_timeout (shared w))
  ∨ ∃ t tm, timers (shared w) !! t = None ∧ t_state tm = TRunning ∧
            timers (shared w') = <[t := tm]> (timers (shared w)) ∧
            gs_timeout (shared w') = Some t.

(** The Timers once the one in [globalState.timeout] is stopped. *)
Definition timeout_stopped {Env} (s : Shared Env) : gmap tid Timer :=
  match gs_timeout s with
  | Some t => alter stopped t (timers s)
  | None => timers s
  end.

(** The run stopped the Timer in [globalState.timeout] and emptied the
    field, and then made at most one Timer, running, and stored it there. *)
Definition rearms {Env} (w w' : World Env) : Prop :=
  (timers (shared w') = timeout_stopped (shared w) ∧ gs_timeout (shared w') = None)
  ∨ ∃ t tm, timers (shared w) !! t = None ∧ t_state tm = TRunning ∧
            timers (shared w') = <[t := tm]> (timeout_stopped (shared w)) ∧
            gs_timeout (shared w') = Some t.

(** ** Vocabulary of the eviction *)

(** The eviction in [_main] does not throw: no instance is registered, or
    the registered instance awaits a promise, or it has a resolve
    function. *)
Definition evicts_cleanly {Env} (s : Shared Env) : Prop :=
  match gs_currentInstance s with
  | Some old => awaiting s old = true ∨ is_Some (swalPromiseResolve s !! old)
  | None => True
  end.

(** The promises once the registered instance is evicted. *)
Definition after_eviction {Env} (s : Shared Env) : gmap pid PState :=
  match gs_currentInstance s with
  | Some old =>
      if awaiting s old then promises s
      else match swalPromiseResolve s !! old with
           | Some resolve =>
               partial_alter (settle (Fulfilled {[ "isDismissed" := VBool true ]})) resolve
                 (promises s)
           | None => promises s
           end
  | None => promises s
  end.

(** [setParameters] leaves the key [k] of the object it is given as it
    was. *)
Definition setParameters_keeps {Env} (X : Externals Env) (k : string) : Prop :=
  ∀ s l, (heap (effect X (XsetParameters l) s) !! l ≫= λ o, obj_props o !! k)
         = (heap s !! l ≫= λ o, obj_props o !! k).

(** A page whose caller configuration, at 4, brings a class map of its
    own, at 5. *)
Definition classy_page : World unit :=
  fresh_page tt
    (<[5%positive := obj [("popup", VStr "fade-in")]]>
       (<[4%positive := obj [("showClass", VRef 5)]]> stock_defaults)).

(** ** Vocabulary of the result promise *)

(** A click handler is installed on a button. *)
Definition installs_handler (e : Event) : Prop :=
  match e with
  | ECall (XsetOnclick _ _) => True
  | _ => False
  end.

(** One of the four buttons is missing from the DOM cache. *)
Definition button_missing (domCache : DomCache) : Prop :=
  dc_confirmButton domCache = None ∨ dc_denyButton domCache = None ∨
  dc_cancelButton domCache = None ∨ dc_closeButton domCache = None.

(** The same dialog without its deny button. *)
Definition no_deny_button : DomCache :=
  mkDomCache (Some 1%positive) (Some 2%positive) (Some 3%positive) (Some 4%positive)
    None (Some 6%positive) (Some 7%positive) (Some 8%positive)
    (Some 9%positive) (Some 10%positive).

(** ** The thenable methods *)

(** What [then] and [finally] return: the result of the method of that
    name of a promise, called with the callback. What the promise does
    with the callback is the runtime's matter. *)
Inductive PromiseCall :=
| PThen (p : pid) (onFulfilled : Value)
| PFinally (p : pid) (onFinally : Value).

(** [this.#promise.then(onFulfilled)]; the field of an instance whose
    constructor did not reach its last line is [undefined], and reading a
    property of that throws. *)
Definition then_ {Env} (this : iref) (onFulfilled : Value) : M Env PromiseCall :=
  λ w, match promise_ w !! this with
       | Some p => (Ok (PThen p onFulfilled), w)
       | None => (Throw (TypeError "Cannot read properties of undefined"), w)
       end.

(** [this.#promise.finally(onFinally)] *)
Definition finally_ {Env} (this : iref) (onFinally : Value) : M Env PromiseCall :=
  λ w, match promise_ w !! this with
       | Some p => (Ok (PFinally p onFinally), w)
       | None => (Throw (TypeError "Cannot read properties of undefined"), w)
       end.

(** ** Vocabulary of the focus *)

(** The event is a [focus()] or a [blur()] of an element. *)
Definition moves_focus (e : Event) : bool :=
  match e with
  | ECall (Xfocus _) | ECall (Xblur _) => true
  | _ => false
  end.

Definition focus_moves (evs : list Event) : nat := length (List.filter moves_focus evs).

(** ** Vocabulary of the order of the calls *)

(** The calls of the timer setup and of the focus chain. *)
Definition timer_or_focus_call (e : Event) : Prop :=
  match e with
  | ECall (Xhide _) | ECall (Xshow _) | ECall (XapplyCustomClass _ _)
  | ECall (XwarnAboutDeprecation _) | ECall (Xcall _)
  | ECall (Xblur _) | ECall (Xfocus _) => True
  | _ => False
  end.

(** The calls [swalPromise] makes up to [openPopup], in their order. *)
Definition opening_calls (instance : iref) (domCache : DomCache) (innerParams : loc)
    (confirm deny cancel close : elem) : list Event :=
  [ ECall (XsetOnclick confirm (OnConfirmClick instance));
    ECall (XsetOnclick deny (OnDenyClick instance));
    ECall (XsetOnclick cancel (OnCancelClick instance));
    ECall (XsetOnclick close (OnCloseClick instance));
    ECall (XhandlePopupClick innerParams domCache (DismissWith instance));
    ECall (XaddKeydownHandler innerParams (DismissWith instance));
    ECall (XhandleInputOptionsAndValue instance innerParams);
    ECall (XopenPopup innerParams) ].

(** * Proofs *)

(** ** Relations every step keeps *)

Create HintDb frames.


Section Frames.
Context {Env : Type} (X : Externals Env).
Variable R : World Env → World Env → Prop.
Variable allowed : Event → Prop.
Hypothesis F : Frame X R allowed.

Hypothesis allowed_calls : ∀ e, quiet_call e → allowed e.

Lemma always_bind {A B} (m : M Env A) (k : A → M Env B) :
  always R m → (∀ a, always R (k a)) → always R (bind m k).
Proof.
  intros Hm Hk w. specialize (Hm w). unfold exec, bind in *.
  destruct (m w) as [[a|e] w'] eqn:E; cbn in *; [|done].
  eapply (R_trans F); [exact Hm|]. apply Hk.
Qed.

Lemma always_ret {A} (a : A) : always R (ret a).
Proof. intros w. apply (R_refl F). Qed.

Lemma always_throw {A} e : always R (@throw Env A e).
Proof. intros w. apply (R_refl F). Qed.

Lemma always_get {A} (q : Shared Env → A) : always R (get q).
Proof. intros w. apply (R_refl F). Qed.

Lemma always_get_currentInstance : always R (@get_currentInstance Env).
Proof. intros w. apply (R_refl F). Qed.

Lemma always_emit e : allowed e → always R (emit e).
Proof. intros H w. by apply (R_emit F). Qed.

Lemma always_call c : allowed (ECall c) → always R (call X c).
Proof.
  intros H. apply always_bind; [by apply always_emit|]. intros _ w. apply (R_effect F).
Qed.

Lemma always_attempt (m : M Env unit) : always R m → always R (attempt m).
Proof. intros H w. apply H. Qed.

Lemma always_modify_noheap f : (∀ s, heap (f s) = heap s) → always R (modify f).
Proof. intros H w. apply (R_modify F). intros l o Hl _. by rewrite H. Qed.


Lemma always_alloc p : always R (alloc p).
Proof.
  intros w. apply (R_modify F). intros l o Hl _. cbn.
  rewrite lookup_insert_ne; [done|]. intros <-.
  pose proof (is_fresh (dom (heap (shared w)))) as Hf.
  apply Hf, elem_of_dom. eauto.
Qed.

Lemma always_getProp l k : always R (getProp l k).
Proof. intros w. apply (R_refl F). Qed.

Lemma always_setProp l k v : always R (setProp l k v).
Proof.
  intros w. unfold exec, setProp, bind, get. cbn.
  destruct (heap (shared w) !! l) as [[p []]|] eqn:E; cbn; try apply (R_refl F).
  apply (R_modify F). intros l' o Hl Hf. cbn.
  rewrite lookup_insert_ne; [done|]. intros <-. rewrite E in Hl. by simplify_eq.
Qed.

Lemma always_deleteProp l k : always R (deleteProp l k).
Proof.
  intros w. unfold exec, deleteProp, bind, get. cbn.
  destruct (heap (shared w) !! l) as [[p []]|] eqn:E; cbn; try apply (R_refl F).
  apply (R_modify F). intros l' o Hl Hf. cbn.
  rewrite lookup_insert_ne; [done|]. intros <-. rewrite E in Hl. by simplify_eq.
Qed.

Lemma always_freeze l : always R (freeze l).
Proof.
  intros w. apply (R_modify F). intros l' o Hl Hf. cbn.
  destruct (heap (shared w) !! l) as [o'|] eqn:E; [|done].
  destruct (decide (l = l')) as [<-|Hne].
  - rewrite lookup_insert_eq. rewrite E in Hl. simplify_eq. destruct o; cbn in *; by subst.
  - by rewrite lookup_insert_ne.
Qed.


Ltac allowed_event :=
  first [ apply allowed_calls; exact I
        | match goal with H : ∀ e, ¬ attaches e → allowed e |- _ => apply H; intros [] end
        | solve [auto] ].

Ltac walk_step :=
  lazymatch goal with
  | |- always _ (ret _) => apply always_ret
  | |- always _ (throw _) => apply always_throw
  | |- always _ (get _) => apply always_get
  | |- always _ get_currentInstance => apply always_get_currentInstance
  | |- always _ (bind _ _) => apply always_bind; [|intros ?]
  | |- always _ (attempt _) => apply always_attempt
  | |- always _ (alloc _) => apply always_alloc
  | |- always _ (getProp _ _) => apply always_getProp
  | |- always _ (setProp _ _ _) => apply always_setProp
  | |- always _ (deleteProp _ _) => apply always_deleteProp
  | |- always _ (freeze _) => apply always_freeze
  | |- always _ (modify _) => apply always_modify_noheap; intros ?; reflexivity
  | |- always _ (call _ _) => apply always_call; allowed_event
  | |- always _ (emit _) => apply always_emit; allowed_event
  | |- always _ (when ?b _) => destruct b; cbn [when]
  | |- always _ (if ?b then _ else _) => destruct b
  | |- always _ (match ?x with _ => _ end) => destruct x
  | |- always _ _ => solve [auto with frames]
  end.

Ltac walk := repeat walk_step.

Lemma always_callIfFunction v : always R (callIfFunction X v).
Proof. unfold callIfFunction. walk. Qed.

Lemma always_prepareParams u m : always R (prepareParams X u m).
Proof. unfold prepareParams. walk. Qed.

Lemma always_requireKey i : always R (@requireKey Env i).
Proof. unfold requireKey. walk. Qed.
Local Hint Resolve always_requireKey always_prepareParams always_callIfFunction : frames.

Lemma always_populateDomCache i : always R (populateDomCache X i).
Proof. unfold populateDomCache. walk. Qed.

Lemma always_newTimer f d : always R (@newTimer Env f d).
Proof. unfold newTimer. walk. Qed.

Lemma always_timer_stop t : always R (@timer_stop Env t).
Proof. unfold timer_stop. walk. Qed.

Lemma always_setTimeout f : always R (@setTimeout Env f).
Proof. unfold setTimeout. walk. Qed.
Local Hint Resolve always_populateDomCache always_newTimer always_timer_stop always_setTimeout : frames.

Lemma always_setupTimer l i : always R (setupTimer X l i).
Proof. unfold setupTimer. walk. Qed.

Lemma always_focus e : always R (focus X e).
Proof. unfold focus. walk. Qed.

Lemma always_setOnclick e f : always R (setOnclick X e f).
Proof. unfold setOnclick. walk. Qed.
Local Hint Resolve always_setupTimer always_focus always_setOnclick : frames.

Lemma always_blurActiveElement : always R (blurActiveElement X).
Proof. unfold blurActiveElement. walk. Qed.

Lemma always_focusAutofocus_loop es : always R (focusAutofocus_loop X es).
Proof. induction es as [|e es IH]; cbn [focusAutofocus_loop]; walk. Qed.
Local Hint Resolve always_blurActiveElement always_focusAutofocus_loop : frames.

Lemma always_focusAutofocus dc : always R (focusAutofocus X dc).
Proof. unfold focusAutofocus. walk. Qed.

Lemma always_focusButton dc l : always R (focusButton X dc l).
Proof. unfold focusButton. walk. Qed.

Lemma always_setFocus a b : always R (setFocus X a b).
Proof. unfold setFocus. walk. Qed.
Local Hint Resolve always_focusAutofocus always_focusButton always_setFocus : frames.

Lemma always_initFocus dc l : always R (initFocus X dc l).
Proof. unfold initFocus. walk. Qed.
Local Hint Resolve always_initFocus : frames.

Lemma always_newPromise (executor : positive → M Env unit) :
  (∀ p, always R (executor p)) → always R (newPromise executor).
Proof.
  intros H. unfold newPromise. walk.
  intros w. unfold exec. specialize (H (fresh (dom a)) w). unfold exec in H.
  destruct (executor _ w) as [[[]|e] w']; cbn in *; [done|].
  eapply (R_trans F); [exact H|]. apply (R_modify F). by intros l o Hl _.
Qed.

Lemma always_swalPromise i dc l : always R (swalPromise X i dc l).
Proof. unfold swalPromise. apply always_newPromise. intros p. walk. Qed.
Local Hint Resolve always_swalPromise : frames.

Lemma always_main_after_install u m current :
  (∀ i l, allowed (EInnerParams i l)) → always R (main_after_install X u m current).
Proof. intros Hinner. unfold main_after_install. walk. Qed.

Lemma always_update i v : (∀ i l, allowed (EInnerParams i l)) → always R (update X i v).
Proof. intros Hinner. unfold update. walk. Qed.

Lemma always_set_isAwaitingPromise i b : always R (@set_isAwaitingPromise Env i b).
Proof. unfold set_isAwaitingPromise. walk. Qed.

Lemma always_set_promise_ i p : always R (@set_promise_ Env i p).
Proof. intros w. apply (R_promise_ F). Qed.

Lemma always_new_instance : always R (@new_instance Env).
Proof. unfold new_instance. walk. Qed.
Local Hint Resolve always_set_isAwaitingPromise always_set_promise_ : frames.

Lemma always_run_task f : always R (run_task X f).
Proof. unfold run_task. walk. Qed.
Local Hint Resolve always_run_task : frames.

Lemma always_run_tasks q : always R (run_tasks X q).
Proof. induction q; cbn [run_tasks]; walk. Qed.



(** The programs that settle, destroy and write the registry, given the
    three that attach a configuration. *)
Section Everything.
Hypothesis allowed_rest : ∀ e, ¬ attaches e → allowed e.
Hypothesis always_tail : ∀ u m current, always R (main_after_install X u m current).
Hypothesis always_updating : ∀ i v, always R (update X i v).
Local Hint Resolve always_tail always_updating always_run_tasks always_new_instance : frames.

Lemma always_callResolve f v : always R (@callResolve Env f v).
Proof. unfold callResolve. walk. Qed.
Local Hint Resolve always_callResolve : frames.

Lemma always_close i p : always R (close X i p).
Proof. unfold close. walk. Qed.
Local Hint Resolve always_close : frames.

Lemma always_dismissWith i v : always R (dismissWith X i v).
Proof. unfold dismissWith. walk. Qed.
Local Hint Resolve always_dismissWith : frames.

Lemma always_run_closure f : always R (run_closure X f).
Proof. unfold run_closure. walk. Qed.
Local Hint Resolve always_run_closure : frames.

Lemma always_advance dt t : always R (advance X dt t).
Proof. unfold advance. walk. Qed.
Local Hint Resolve always_advance : frames.

Lemma always_advance_all dt ts : always R (advance_all X dt ts).
Proof. induction ts; cbn [advance_all]; walk. Qed.
Local Hint Resolve always_advance_all : frames.

Lemma always_idle dt : always R (idle X dt).
Proof. unfold idle. walk. Qed.
Local Hint Resolve always_idle : frames.

Lemma always_idle_for dts : always R (idle_for X dts).
Proof. induction dts; cbn [idle_for]; walk. Qed.

Lemma always__main u m : always R (_main X u m).
Proof.
  change (_main X u m) with
    (h <- get heap ;;
     call X (XshowWarningsForParams (assign [own_props h m; own_props h u])) ;;
     registered <- get gs_currentInstance ;;
     match registered with
     | Some old =>
         swalPromiseResolve <- get (λ s, swalPromiseResolve s !! old) ;;
         isAwaitingPromise <- get (λ s, awaiting s old) ;;
         call X (X_destroy old) ;;
         (if negb isAwaitingPromise
          then callResolve swalPromiseResolve {[ "isDismissed" := VBool true ]}
          else ret tt) ;;
         modal <- get (isModal X) ;;
         when modal (call X XunsetAriaHidden)
     | None => ret tt
     end ;;
     current <- get_currentInstance ;;
     emit (ESetCurrent current) ;;
     modify (set_gs_currentInstance current) ;;
     main_after_install X u m current).
  walk.
Qed.
Local Hint Resolve always__main : frames.

Lemma always_invoke i key args : always R (invoke X i key args).
Proof. unfold invoke. walk. Qed.
Local Hint Resolve always_invoke : frames.

Lemma always_static_proxy key args : always R (static_proxy X key args).
Proof. unfold static_proxy. walk. Qed.
Local Hint Resolve always_static_proxy : frames.



Section Constructing.
Hypothesis always_constructing : ∀ this args, always R (constructor X this args).
Local Hint Resolve always_constructing : frames.

Lemma always_new_SweetAlert args : always R (new_SweetAlert X args).
Proof. unfold new_SweetAlert. walk. Qed.
Local Hint Resolve always_new_SweetAlert : frames.

Lemma always_perform_any o : always R (perform X o).
Proof. destruct o; cbn [perform]; walk. Qed.

Lemma always_session_any ops : always R (session X ops).
Proof.
  induction ops as [|o ops IH]; cbn [session]; [walk|].
  apply always_bind; [apply always_attempt, always_perform_any|]. by intros _.
Qed.

End Constructing.
End Everything.

(** The constructor, where every event is allowed. *)
Lemma always_constructor_after_assignment this args :
  (∀ e, allowed e) → always R (constructor_after_assignment X this args).
Proof.
  intros Hall.
  assert (∀ u m, always R (_main X u m)).
  { intros u m. apply always__main; [by intros e _|].
    intros. by apply always_main_after_install. }
  unfold constructor_after_assignment, set_params. walk.
Qed.

Lemma always_constructor this args :
  (∀ e, allowed e) →
  (∀ c w, R w (exec (set_currentInstance c) w)) →
  always R (constructor X this args).
Proof.
  intros Hall Hset.
  assert (∀ c, always R (@set_currentInstance Env c)) by (intros c w; apply Hset).
  pose proof (always_constructor_after_assignment this args Hall).
  change (constructor X this args) with
    (if negb (window_defined X) then ret tt
     else set_currentInstance (Some this) ;; constructor_after_assignment X this args).
  walk.
Qed.

End Frames.

(** The same walk with the frame [F] of a given relation, and [C] that
    allows its quiet calls. *)
Ltac keeps_step X F C :=
  lazymatch goal with
  | |- always _ (ret _) => apply (always_ret X _ _ F)
  | |- always _ (throw _) => apply (always_throw X _ _ F)
  | |- always _ (get _) => apply (always_get X _ _ F)
  | |- always _ get_currentInstance => apply (always_get_currentInstance X _ _ F)
  | |- always _ (bind _ _) => apply (always_bind X _ _ F); [|intros ?]
  | |- always _ (modify _) => apply (always_modify_noheap X _ _ F); intros ?; reflexivity
  | |- always _ (call _ _) => apply (always_call X _ _ F), C; exact I
  | |- always _ (alloc _) => apply (always_alloc X _ _ F)
  | |- always _ (freeze _) => apply (always_freeze X _ _ F)
  | |- always _ (prepareParams _ _ _) => apply (always_prepareParams X _ _ F)
  | |- always _ (timer_stop _) => apply (always_timer_stop X _ _ F)
  | |- always _ (populateDomCache _ _) => apply (always_populateDomCache X _ _ F)
  | |- always _ (requireKey _) => apply (always_requireKey X _ _ F)
  | |- always _ (swalPromise _ _ _ _) => apply (always_swalPromise X _ _ F C)
  | |- always _ (set_isAwaitingPromise _ _) => apply (always_set_isAwaitingPromise X _ _ F)
  | |- always _ (set_promise_ _ _) => apply (always_set_promise_ X _ _ F)
  | |- always _ (when ?b _) => destruct b; cbn [when]
  | |- always _ (if ?b then _ else _) => destruct b
  | |- always _ (match ?x with _ => _ end) => destruct x
  end.

Ltac keeps X F C := repeat keeps_step X F C.

Section Stepping.
Context {Env : Type} (X : Externals Env).
Implicit Types (w : World Env) (s : Shared Env).

Lemma wp_bind {A B} (m : M Env A) (k : A → M Env B) Q w :
  wp m (λ r w', match r with Ok a => wp (k a) Q w' | Throw e => Q (Throw e) w' end) w →
  wp (bind m k) Q w.
Proof. unfold wp, outcome, exec, bind. by destruct (m w) as [[a|e] w']. Qed.

Lemma wp_ret {A} (a : A) (Q : Res A → World Env → Prop) w : Q (Ok a) w → wp (ret a) Q w.
Proof. done. Qed.

Lemma wp_throw {A} e (Q : Res A → World Env → Prop) w : Q (Throw e) w → wp (throw e) Q w.
Proof. done. Qed.

Lemma wp_get {A} (q : Shared Env → A) (Q : Res A → World Env → Prop) w :
  Q (Ok (q (shared w))) w → wp (get q) Q w.
Proof. done. Qed.

Lemma wp_get_currentInstance (Q : Res (option positive) → World Env → Prop) w :
  Q (Ok (currentInstance w)) w → wp get_currentInstance Q w.
Proof. done. Qed.

Lemma wp_modify f (Q : Res unit → World Env → Prop) w :
  Q (Ok tt) (on_shared f w) → wp (modify f) Q w.
Proof. done. Qed.

Lemma wp_emit e (Q : Res unit → World Env → Prop) w :
  Q (Ok tt) (exec (emit e) w) → wp (emit e) Q w.
Proof. done. Qed.

Lemma wp_call c (Q : Res unit → World Env → Prop) w :
  Q (Ok tt) (on_shared (effect X c) (exec (emit (ECall c)) w)) → wp (call X c) Q w.
Proof. done. Qed.

Lemma wp_always {A} (R : World Env → World Env → Prop) (m : M Env A)
    (Q : Res A → World Env → Prop) w :
  always R m → (∀ r w', R w w' → Q r w') → wp m Q w.
Proof. intros Hm HQ. apply HQ, Hm. Qed.

End Stepping.

Section Traces.
Context {Env : Type} (X : Externals Env).
Variable P : Event → Prop.

Lemma extends_refl (w : World Env) : extends P w w.
Proof. exists []. by rewrite app_nil_r. Qed.

Lemma extends_trans (a b c : World Env) : extends P a b → extends P b c → extends P a c.
Proof.
  intros (e1 & H1 & F1) (e2 & H2 & F2). exists (e1 ++ e2)%list.
  split; [by rewrite H2, H1, <-app_assoc | by apply Forall_app].
Qed.

Lemma extends_modify f (w : World Env) : extends P w (on_shared f w).
Proof. exists []. by rewrite app_nil_r. Qed.

Lemma extends_emit e (w : World Env) : P e → extends P w (exec (emit e) w).
Proof. intros H. exists [e]. split; [done | by constructor]. Qed.

Lemma extends_promise_ i p (w : World Env) : extends P w (exec (set_promise_ i p) w).
Proof. exists []. by rewrite app_nil_r. Qed.

Lemma extends_frame : Frame X (extends P) P.
Proof.
  split.
  - apply extends_refl.
  - apply extends_trans.
  - intros f w _. apply extends_modify.
  - intros c w. apply extends_modify.
  - intros e w. apply extends_emit.
  - apply extends_promise_.
Qed.

End Traces.

Section Main.
Context {Env : Type} (X : Externals Env).

Lemma main_trace u m (w : World Env) old resolve :
  gs_currentInstance (warned X u m w) = Some old →
  swalPromiseResolve (warned X u m w) !! old = Some resolve →
  wp (_main X u m) (λ _ w', ∃ aria post,
    trace w' =
      (trace w ++
       ECall (XshowWarningsForParams
                (assign [own_props (heap (shared w)) m; own_props (heap (shared w)) u]))
       :: ECall (X_destroy old)
       :: (if awaiting (warned X u m w) old then []
           else [EResolve resolve {[ "isDismissed" := VBool true ]}])
       ++ aria ++ ESetCurrent (currentInstance w) :: post)%list
    ∧ (aria = [] ∨ aria = [ECall XunsetAriaHidden])
    ∧ Forall leaves_file post) w.
Proof.
  intros Hold Hres.
  unfold _main.
  apply wp_bind, wp_get, wp_bind, wp_call, wp_bind, wp_get.
  change (shared (on_shared _ _)) with (warned X u m w). rewrite Hold.
  apply wp_bind, wp_bind, wp_get, wp_bind, wp_get, wp_bind, wp_call.
  change (shared (on_shared _ (exec _ w))) with (warned X u m w). rewrite Hres.
  set (warn := ECall (XshowWarningsForParams _)).
  set (res := if awaiting (warned X u m w) old then []
              else [EResolve resolve {[ "isDismissed" := VBool true ]}]).
  assert (Htail : ∀ w1 aria,
    trace w1 = (trace w ++ warn :: ECall (X_destroy old) :: res ++ aria)%list →
    currentInstance w1 = currentInstance w →
    aria = [] ∨ aria = [ECall XunsetAriaHidden] →
    wp (current <- get_currentInstance ;;
        emit (ESetCurrent current) ;;
        modify (set_gs_currentInstance current) ;;
        main_after_install X u m current)
       (λ _ w', ∃ aria post,
          trace w' = (trace w ++ warn :: ECall (X_destroy old) :: res ++ aria
                        ++ ESetCurrent (currentInstance w) :: post)%list
          ∧ (aria = [] ∨ aria = [ECall XunsetAriaHidden])
          ∧ Forall leaves_file post) w1).
  { intros w1 aria Hpre Hci Haria.
    apply wp_bind, wp_get_currentInstance, wp_bind, wp_emit, wp_bind, wp_modify.
    apply (wp_always (extends leaves_file)).
    - apply (always_main_after_install X _ _ (extends_frame X leaves_file)).
      + intros e. by destruct e as [[]| | | | |].
      + by intros i l.
    - intros r w' (post & Hpost & Hall). exists aria, post. split; [|done].
      rewrite Hpost. cbn. rewrite Hpre, Hci.
      by rewrite <-!app_assoc, <-!app_comm_cons, <-!app_assoc. }
  apply wp_bind.
  assert (Hmodal : ∀ w1,
    trace w1 = (trace w ++ warn :: ECall (X_destroy old) :: res)%list →
    currentInstance w1 = currentInstance w →
    wp (modal <- get (isModal X) ;; when modal (call X XunsetAriaHidden))
       (λ r w', match r with
                | Ok _ => ∃ aria,
                    trace w' = (trace w ++ warn :: ECall (X_destroy old) :: res ++ aria)%list
                    ∧ currentInstance w' = currentInstance w
                    ∧ (aria = [] ∨ aria = [ECall XunsetAriaHidden])
                | Throw _ => False
                end) w1).
  { intros w1 Hpre Hci. apply wp_bind, wp_get.
    destruct (isModal X (shared w1)); cbn [when].
    - apply wp_call. exists [ECall XunsetAriaHidden]. cbn. rewrite Hpre.
      split; [|by auto]. by rewrite <-!app_assoc.
    - apply wp_ret. exists []. rewrite app_nil_r. auto. }
  assert (Hjoin : ∀ w1,
    trace w1 = (trace w ++ warn :: ECall (X_destroy old) :: res)%list →
    currentInstance w1 = currentInstance w →
    wp (modal <- get (isModal X) ;; when modal (call X XunsetAriaHidden))
       (λ r w', match r with
                | Ok _ =>
                    wp (current <- get_currentInstance ;;
                        emit (ESetCurrent current) ;;
                        modify (set_gs_currentInstance current) ;;
                        main_after_install X u m current)
                       (λ _ w', ∃ aria post,
                          trace w' = (trace w ++ warn :: ECall (X_destroy old) :: res ++ aria
                                        ++ ESetCurrent (currentInstance w) :: post)%list
                          ∧ (aria = [] ∨ aria = [ECall XunsetAriaHidden])
                          ∧ Forall leaves_file post) w'
                | Throw _ => ∃ aria post,
                          trace w' = (trace w ++ warn :: ECall (X_destroy old) :: res ++ aria
                                        ++ ESetCurrent (currentInstance w) :: post)%list
                          ∧ (aria = [] ∨ aria = [ECall XunsetAriaHidden])
                          ∧ Forall leaves_file post
                end) w1).
  { intros w1 Hpre Hci. specialize (Hmodal w1 Hpre Hci). unfold wp in Hmodal |- *.
    destruct (outcome _ w1); [|done].
    destruct Hmodal as (aria & Ht & Hc & Ha). by apply (Htail _ aria). }
  subst res. destruct (awaiting (warned X u m w) old); cbn [negb]; cbv iota.
  - apply wp_ret. lazy beta iota.
    apply Hjoin; [|done]. cbn. by rewrite <-!app_assoc.
  - unfold callResolve. apply wp_bind, wp_emit. lazy beta iota.
    apply wp_modify. lazy beta iota.
    apply Hjoin; [|done]. cbn. by rewrite <-!app_assoc.
Qed.
End Main.

Section Params.
Context {Env : Type} (X : Externals Env).
Implicit Types (w : World Env) (s : Shared Env).

Lemma wp_alloc p (Q : Res positive → World Env → Prop) w :
  (∀ l, heap (shared w) !! l = None →
        Q (Ok l) (on_shared (set_heap <[l := mkObj p false]>) w)) →
  wp (alloc p) Q w.
Proof. intros H. apply H, not_elem_of_dom, is_fresh. Qed.

Lemma wp_getProp l k (Q : Res Value → World Env → Prop) w :
  Q (Ok (prop_of (shared w) l k)) w → wp (getProp l k) Q w.
Proof. done. Qed.

Lemma wp_setProp l k v p (Q : Res unit → World Env → Prop) w :
  heap (shared w) !! l = Some (mkObj p false) →
  Q (Ok tt) (on_shared (set_heap <[l := mkObj (<[k := v]> p) false]>) w) →
  wp (setProp l k v) Q w.
Proof.
  intros Hl HQ. unfold wp, outcome, exec, setProp, bind, get. cbn. by rewrite Hl.
Qed.

Ltac fresh_facts H :=
  cbn [shared on_shared heap set_heap] in H;
  repeat (apply lookup_insert_None in H as [H ?]).

Ltac heap_lookup :=
  unfold prop_of;
  cbn [shared on_shared heap set_heap];
  repeat first [ rewrite lookup_insert_eq | rewrite lookup_insert_ne by congruence ];
  cbn [obj_props obj_frozen].

Ltac name_object l S :=
  match goal with
  | |- context [<[l := mkObj ?p false]>] => generalize p; intros S
  end.

Lemma prepareParams_spec u m w :
  wp (prepareParams X u m) (λ r w', ∃ params P sc hc S H,
    r = Ok params ∧
    heap (shared w) !! params = None ∧
    heap (shared w') !! params = Some (mkObj P false) ∧
    (∀ k, k ≠ "showClass" → k ≠ "hideClass" → P !! k = merged_params X u m w !! k) ∧
    P !! "showClass" = Some (VRef sc) ∧
    P !! "hideClass" = Some (VRef hc) ∧
    heap (shared w') !! sc = Some (mkObj S false) ∧
    heap (shared w') !! hc = Some (mkObj H false) ∧
    (merged_params X u m w !! "animation" = Some (VBool false) →
       S = {[ "backdrop" := VStr "swal2-noanimation" ]} ∧ H = ∅) ∧
    trace w' = trace w ∧ currentInstance w' = currentInstance w) w.
Proof.
  unfold prepareParams.
  apply wp_bind, wp_get, wp_bind, wp_get, wp_bind, wp_alloc. intros params Hparams.
  fold (merged_params X u m w). set (M0 := merged_params X u m w).
  apply wp_bind, wp_getProp, wp_bind, wp_getProp, wp_bind, wp_get, wp_bind, wp_alloc.
  intros sc Hsc. fresh_facts Hsc. name_object sc showClass0.
  eapply wp_bind, wp_setProp; [by heap_lookup|].
  apply wp_bind, wp_getProp, wp_bind, wp_getProp, wp_bind, wp_get, wp_bind, wp_alloc.
  intros hc Hhc. fresh_facts Hhc. name_object hc hideClass0.
  eapply wp_bind, wp_setProp; [by heap_lookup|].
  apply wp_bind, wp_getProp. heap_lookup.
  rewrite !lookup_insert_ne by done.
  assert (Hkeep : ∀ (a b : Value) k, k ≠ "showClass" → k ≠ "hideClass" →
            <["hideClass" := a]> (<["showClass" := b]> M0) !! k = M0 !! k).
  { intros a b k ? ?. by rewrite !lookup_insert_ne. }
  destruct (strict_eq_false (default VUndefined (M0 !! "animation"))) eqn:Hs.
  - apply wp_bind, wp_bind, wp_alloc. intros sc2 Hsc2. fresh_facts Hsc2.
    eapply wp_bind, wp_setProp; [by heap_lookup|].
    apply wp_bind, wp_alloc. intros hc2 Hhc2. fresh_facts Hhc2.
    eapply wp_setProp; [by heap_lookup|]. apply wp_ret.
    exists params,
      (<["hideClass" := VRef hc2]>
         (<["showClass" := VRef sc2]>
            (<["hideClass" := VRef hc]> (<["showClass" := VRef sc]> M0)))),
      sc2, hc2, {[ "backdrop" := VStr "swal2-noanimation" ]}, ∅.
    split_and!;
      first [ done | by heap_lookup
            | by (intros k ? ?; rewrite !lookup_insert_ne)
            | by rewrite lookup_insert_ne, lookup_insert_eq
            | by rewrite lookup_insert_eq ].
  - apply wp_bind, wp_ret, wp_ret.
    exists params, (<["hideClass" := VRef hc]> (<["showClass" := VRef sc]> M0)),
      sc, hc, showClass0, hideClass0.
    split_and!;
      first [ done | by heap_lookup | by apply Hkeep
            | by rewrite lookup_insert_ne, lookup_insert_eq
            | by rewrite lookup_insert_eq
            | by (intros Ha; rewrite Ha in Hs) ].
Qed.
End Params.
(** ** Relations kept by what writes neither the heap nor the promises *)

Section Bystanders.
Context {Env : Type} (X : Externals Env).
Variable R : World Env → World Env → Prop.
Hypothesis K : Keeps X R.
Implicit Types (w : World Env).

Lemma stays_bind {A B} (m : M Env A) (k : A → M Env B) :
  always R m → (∀ a, always R (k a)) → always R (bind m k).
Proof.
  intros Hm Hk w. specialize (Hm w). unfold exec, bind in *.
  destruct (m w) as [[a|e] w'] eqn:Hmw; cbn in *; [|done].
  eapply (K_trans K); [exact Hm|]. apply Hk.
Qed.

Lemma stays_ret {A} (a : A) : always R (@ret Env A a).
Proof. intros w. apply (K_refl K). Qed.

Lemma stays_throw {A} e : always R (@throw Env A e).
Proof. intros w. apply (K_refl K). Qed.

Lemma stays_get {A} (q : Shared Env → A) : always R (get q).
Proof. intros w. apply (K_refl K). Qed.

Lemma stays_get_currentInstance : always R (@get_currentInstance Env).
Proof. intros w. apply (K_refl K). Qed.

Lemma stays_emit e : always R (@emit Env e).
Proof. intros w. apply (K_emit K). Qed.

Lemma stays_call c : quiet_call (ECall c) → always R (call X c).
Proof.
  intros Hc. apply stays_bind; [apply stays_emit|]. intros _ w. by apply (K_effect K).
Qed.

Lemma stays_destroy i :
  (∀ c w, R w (on_shared (effect X c) w)) → always R (call X (X_destroy i)).
Proof.
  intros H. apply stays_bind; [apply stays_emit|]. intros _ w. apply H.
Qed.

Lemma stays_modify f :
  (∀ s, heap (f s) = heap s) → (∀ s, promises (f s) = promises s) →
  (∀ s, gs_currentInstance (f s) = gs_currentInstance s) →
  always R (modify f).
Proof. intros H1 H2 H3 w. by apply (K_write K). Qed.

End Bystanders.

Create HintDb stays.

(** The walk through a program with the relation of [K]. *)
Ltac stays_step K :=
  lazymatch goal with
  | |- always _ (ret _) => apply (stays_ret _ _ K)
  | |- always _ (throw _) => apply (stays_throw _ _ K)
  | |- always _ (get _) => apply (stays_get _ _ K)
  | |- always _ (getProp _ _) => apply (stays_get _ _ K)
  | |- always _ get_currentInstance => apply (stays_get_currentInstance _ _ K)
  | |- always _ (bind _ _) => apply (stays_bind _ _ K); [|intros ?]
  | |- always _ (call _ (X_destroy _)) => solve [eauto with stays]
  | |- always _ (call _ _) => apply (stays_call _ _ K); exact I
  | |- always _ (emit _) => apply (stays_emit _ _ K)
  | |- always _ (modify (set_heap _)) =>
      intros ?; match goal with H : heap_free _ |- _ => apply H end
  | |- always _ (modify (set_promises _)) =>
      intros ?; match goal with H : promise_free _ |- _ => apply H end
  | |- always _ (modify _) => apply (stays_modify _ _ K); intros ?; reflexivity
  | |- always _ (when ?b _) => destruct b; cbn [when]
  | |- always _ (if ?b then _ else _) => destruct b
  | |- always _ (match ?x with _ => _ end) => destruct x
  | |- always _ _ => solve [eauto with stays]
  end.

Ltac stays K := repeat stays_step K.

Section Kept.
Context {Env : Type} (X : Externals Env).
Variable R : World Env → World Env → Prop.
Hypothesis K : Keeps X R.
Implicit Types (w : World Env).

Lemma stays_callIfFunction v : always R (callIfFunction X v).
Proof. unfold callIfFunction. stays K. Qed.

Lemma stays_requireKey i : always R (@requireKey Env i).
Proof. unfold requireKey. stays K. Qed.

Lemma stays_focus e : always R (focus X e).
Proof. unfold focus. stays K. Qed.

Lemma stays_setOnclick e f : always R (setOnclick X e f).
Proof. unfold setOnclick. stays K. Qed.
Local Hint Resolve stays_callIfFunction stays_requireKey stays_focus stays_setOnclick : stays.

Lemma stays_blurActiveElement : always R (blurActiveElement X).
Proof. unfold blurActiveElement. stays K. Qed.

Lemma stays_focusAutofocus_loop es : always R (focusAutofocus_loop X es).
Proof. induction es as [|e es IH]; cbn [focusAutofocus_loop]; stays K. Qed.
Local Hint Resolve stays_blurActiveElement stays_focusAutofocus_loop : stays.

Lemma stays_focusAutofocus dc : always R (focusAutofocus X dc).
Proof. unfold focusAutofocus. stays K. Qed.

Lemma stays_focusButton dc l : always R (focusButton X dc l).
Proof. unfold focusButton. stays K. Qed.

Lemma stays_setFocus a b : always R (setFocus X a b).
Proof. unfold setFocus. stays K. Qed.
Local Hint Resolve stays_focusAutofocus stays_focusButton stays_setFocus : stays.

Lemma stays_initFocus dc l : always R (initFocus X dc l).
Proof. unfold initFocus. stays K. Qed.

Lemma stays_newTimer f d : always R (@newTimer Env f d).
Proof. unfold newTimer. stays K. Qed.

Lemma stays_timer_stop t : always R (@timer_stop Env t).
Proof. unfold timer_stop. stays K. Qed.

Lemma stays_setTimeout f : always R (@setTimeout Env f).
Proof. unfold setTimeout. stays K. Qed.
Local Hint Resolve stays_initFocus stays_newTimer stays_timer_stop stays_setTimeout : stays.

Lemma stays_setupTimer l i : always R (setupTimer X l i).
Proof. unfold setupTimer. stays K. Qed.

Lemma stays_populateDomCache i : always R (populateDomCache X i).
Proof. unfold populateDomCache. stays K. Qed.
Local Hint Resolve stays_setupTimer stays_populateDomCache : stays.

(** What the executor of [swalPromise] does. *)
Lemma stays_executor i dc l (resolve : positive) :
  always R
    (i <- requireKey i ;;
     modify (set_swalPromiseResolve <[i := resolve]>) ;;
     modify (set_swalPromiseReject <[i := resolve]>) ;;
     setOnclick X (dc_confirmButton dc) (OnConfirmClick i) ;;
     setOnclick X (dc_denyButton dc) (OnDenyClick i) ;;
     setOnclick X (dc_cancelButton dc) (OnCancelClick i) ;;
     setOnclick X (dc_closeButton dc) (OnCloseClick i) ;;
     call X (XhandlePopupClick l dc (DismissWith i)) ;;
     call X (XaddKeydownHandler l (DismissWith i)) ;;
     call X (XhandleInputOptionsAndValue i l) ;;
     call X (XopenPopup l) ;;
     setupTimer X l i ;;
     initFocus X dc l ;;
     setTimeout (ScrollTop (dc_container dc))).
Proof. stays K. Qed.

Section PromiseFree.
Hypothesis Kp : promise_free R.

Lemma stays_newPromise (executor : positive → M Env unit) :
  (∀ p, always R (executor p)) → always R (newPromise executor).
Proof.
  intros H. unfold newPromise. stays K.
  intros w. unfold exec. specialize (H (fresh (dom a)) w). unfold exec in H.
  destruct (executor _ w) as [[[]|e] w']; cbn in *; [done|].
  eapply (K_trans K); [exact H|]. apply Kp.
Qed.

Lemma stays_swalPromise i dc l : always R (swalPromise X i dc l).
Proof. unfold swalPromise. apply stays_newPromise. intros p. apply stays_executor. Qed.

Lemma stays_callResolve f v : always R (@callResolve Env f v).
Proof. unfold callResolve. stays K. Qed.
Local Hint Resolve stays_callResolve : stays.

Lemma stays_main_eviction u m :
  (∀ i, always R (call X (X_destroy i))) → always R (main_eviction X u m).
Proof. intros Hd. unfold main_eviction. stays K. Qed.

End PromiseFree.

Section HeapFree.
Hypothesis Kh : heap_free R.

Lemma stays_alloc p : always R (@alloc Env p).
Proof. unfold alloc. stays K. Qed.

Lemma stays_setProp l k v : always R (@setProp Env l k v).
Proof. unfold setProp. stays K. Qed.

Lemma stays_freeze l : always R (@freeze Env l).
Proof. unfold freeze. stays K. Qed.
Local Hint Resolve stays_alloc stays_setProp stays_freeze : stays.

Lemma stays_prepareParams u m : always R (prepareParams X u m).
Proof. unfold prepareParams. stays K. Qed.

End HeapFree.

(** What [_main] does with the object [prepareParams] returned. *)
Lemma stays_after_prepare current innerParams :
  always R (freeze innerParams) → (∀ i dc l, always R (swalPromise X i dc l)) →
  always R
    (call X (XsetParameters innerParams) ;;
     freeze innerParams ;;
     t <- get gs_timeout ;;
     match t with
     | Some t => timer_stop t ;; modify (set_gs_timeout None)
     | None => ret tt
     end ;;
     call X XclearTimeout ;;
     domCache <- populateDomCache X current ;;
     i <- requireKey current ;;
     call X (Xrender i innerParams) ;;
     emit (EInnerParams i innerParams) ;;
     modify (set_pp_innerParams <[i := innerParams]>) ;;
     swalPromise X current domCache innerParams).
Proof. intros Hf Hs. stays K. Qed.

Lemma stays_main_after_install u m current :
  heap_free R → (∀ i dc l, always R (swalPromise X i dc l)) →
  always R (main_after_install X u m current).
Proof.
  intros Kh Hs. unfold main_after_install.
  apply (stays_bind _ _ K); [by apply stays_prepareParams|]. intros innerParams.
  apply stays_after_prepare; [by apply stays_freeze | done].
Qed.

End Kept.

#[global] Hint Resolve stays_callIfFunction stays_requireKey stays_focus stays_setOnclick
  stays_blurActiveElement stays_focusAutofocus_loop stays_focusAutofocus stays_focusButton
  stays_setFocus stays_initFocus stays_newTimer stays_timer_stop stays_setTimeout
  stays_setupTimer stays_populateDomCache stays_swalPromise : stays.

(** ** Parameter preparation *)

Section Precedence.
Context {Env : Type} (X : Externals Env).

Lemma first_of_app k (a b : list props) :
  first_of k (a ++ b) = match first_of k a with Some v => Some v | None => first_of k b end.
Proof. induction a as [|s a IH]; cbn; [done|]. by destruct (s !! k). Qed.

Lemma foldl_union_lookup k (srcs : list props) (acc : props) :
  foldl (λ acc s, s ∪ acc) acc srcs !! k =
  match first_of k (rev srcs) with Some v => Some v | None => acc !! k end.
Proof.
  revert acc. induction srcs as [|s srcs IH]; intros acc; cbn; [done|].
  rewrite IH, first_of_app. destruct (first_of k (rev srcs)); [done|]. cbn.
  rewrite lookup_union. by destruct (s !! k), (acc !! k).
Qed.

Lemma assign_lookup k (srcs : list props) : assign srcs !! k = first_of k (rev srcs).
Proof.
  unfold assign. rewrite foldl_union_lookup, lookup_empty. by destruct (first_of _ _).
Qed.

Lemma merged_params_lookup u m (w : World Env) k :
  merged_params X u m w !! k =
  first_of k [own_props (heap (shared w)) u;
              getTemplateParams X (shared w) u;
              own_props (heap (shared w)) m;
              own_props (heap (shared w)) (VRef (defaultParams X))].
Proof. unfold merged_params. by rewrite assign_lookup. Qed.

End Precedence.

(** C4. Parameter preparation merges the four sources with precedence
    defaults < mixinConfig < declarative config < callerConfig: every key
    other than the two class maps has, in the effective configuration, the
    value of the highest source that has the key. In particular defaults
    [{a:1,b:1}], mixin [{b:2}], declarative [{c:3}], caller [{a:9}] give a
    configuration that maps a to 9, b to 2 and c to 3. *)
Theorem prepareParams_precedence :
  (∀ Env (X : Externals Env) (userParams mixinParams : Value) (w : World Env),
     ∃ params,
       outcome (prepareParams X userParams mixinParams) w = Ok params ∧
       ∀ k, k ≠ "showClass" → k ≠ "hideClass" →
         own_prop (exec (prepareParams X userParams mixinParams) w) params k =
         first_of k [own_props (heap (shared w)) userParams;
                     getTemplateParams X (shared w) userParams;
                     own_props (heap (shared w)) mixinParams;
                     own_props (heap (shared w)) (VRef (defaultParams X))])
  ∧ (∃ params,
       outcome (prepareParams merge_page (VRef 3) (VRef 2)) merge_example = Ok params ∧
       let w' := exec (prepareParams merge_page (VRef 3) (VRef 2)) merge_example in
       own_prop w' params "a" = Some (VNum 9) ∧
       own_prop w' params "b" = Some (VNum 2) ∧
       own_prop w' params "c" = Some (VNum 3)).
Proof.
  assert (General : ∀ Env (X : Externals Env) (u m : Value) (w : World Env),
     ∃ params,
       outcome (prepareParams X u m) w = Ok params ∧
       ∀ k, k ≠ "showClass" → k ≠ "hideClass" →
         own_prop (exec (prepareParams X u m) w) params k =
         first_of k [own_props (heap (shared w)) u; getTemplateParams X (shared w) u;
                     own_props (heap (shared w)) m;
                     own_props (heap (shared w)) (VRef (defaultParams X))]).
  { intros Env X u m w.
    destruct (prepareParams_spec X u m w)
      as (params & P & sc & hc & S & H & Hr & _ & HP & Hk & _).
    exists params. split; [done|]. intros k Hs Hh.
    unfold own_prop. rewrite HP. cbn. rewrite Hk by done. apply merged_params_lookup. }
  split; [exact General|].
  destruct (General unit merge_page (VRef 3) (VRef 2) merge_example) as (params & Hr & Hk).
  exists params. split; [done|]. cbn zeta.
  rewrite !Hk by done. by vm_compute.
Qed.

Lemma prepareParams_precedence_witness :
  "timer" ≠ "showClass" ∧ "timer" ≠ "hideClass" ∧
  ∃ params,
    outcome (prepareParams plain_page (VRef 4) VUndefined)
      (stock_page [("timer", VNum 1500)]) = Ok params ∧
    own_prop (exec (prepareParams plain_page (VRef 4) VUndefined)
                (stock_page [("timer", VNum 1500)])) params "timer" = Some (VNum 1500).
Proof.
  split; [done|]. split; [done|].
  destruct (proj1 prepareParams_precedence unit plain_page (VRef 4) VUndefined
              (stock_page [("timer", VNum 1500)])) as (params & Hr & Hk).
  exists params. split; [exact Hr|].
  rewrite (Hk "timer") by done. vm_compute. reflexivity.
Defined.

(** C5. Whenever the merged [animation] flag is [false], the effective
    configuration has [showClass] equal to the one-key object
    [{ backdrop: 'swal2-noanimation' }] and [hideClass] equal to the empty
    object, whatever class maps the defaults, the mixin, the declarative
    and the caller configuration supply. *)
Theorem prepareParams_without_animation {Env} (X : Externals Env)
    (userParams mixinParams : Value) (w : World Env) :
  first_of "animation" [own_props (heap (shared w)) userParams;
                        getTemplateParams X (shared w) userParams;
                        own_props (heap (shared w)) mixinParams;
                        own_props (heap (shared w)) (VRef (defaultParams X))]
    = Some (VBool false) →
  ∃ params,
    outcome (prepareParams X userParams mixinParams) w = Ok params ∧
    let w' := exec (prepareParams X userParams mixinParams) w in
    object_of w' (own_prop w' params "showClass")
      = Some {[ "backdrop" := VStr "swal2-noanimation" ]} ∧
    object_of w' (own_prop w' params "hideClass") = Some ∅.
Proof.
  intros Ha. rewrite <-merged_params_lookup in Ha.
  destruct (prepareParams_spec X userParams mixinParams w)
    as (params & P & sc & hc & S & H & Hr & _ & HP & _ & Hsc & Hhc & HS & HH & Hanim & _).
  destruct (Hanim Ha) as [-> ->].
  exists params. split; [done|]. cbn zeta. unfold own_prop. rewrite HP. cbn.
  rewrite Hsc, Hhc. cbn. unfold object_at. by rewrite HS, HH.
Qed.

Lemma prepareParams_without_animation_witness :
  ∃ params,
    outcome (prepareParams plain_page (VRef 4) VUndefined)
      (stock_page [("animation", VBool false); ("showClass", VRef 2)]) = Ok params ∧
    let w' := exec (prepareParams plain_page (VRef 4) VUndefined)
                (stock_page [("animation", VBool false); ("showClass", VRef 2)]) in
    object_of w' (own_prop w' params "showClass")
      = Some {[ "backdrop" := VStr "swal2-noanimation" ]} ∧
    object_of w' (own_prop w' params "hideClass") = Some ∅.
Proof.
  apply (prepareParams_without_animation plain_page (VRef 4) VUndefined
           (stock_page [("animation", VBool false); ("showClass", VRef 2)])).
  vm_compute. reflexivity.
Defined.
(** ** Eviction *)

Section Eviction.
Context {Env : Type} (X : Externals Env).
Implicit Types (w : World Env).

Lemma new_events_app (w w' : World Env) evs :
  trace w' = (trace w ++ evs)%list → new_events w w' = evs.
Proof. intros H. unfold new_events. rewrite H. apply drop_app_length. Qed.

Lemma leaves_file_no_resolve post p v : Forall leaves_file post → EResolve p v ∉ post.
Proof. intros H Hin. by apply (proj1 (Forall_forall _ _) H) in Hin. Qed.

Lemma leaves_file_no_install post c : Forall leaves_file post → ESetCurrent c ∉ post.
Proof. intros H Hin. by apply (proj1 (Forall_forall _ _) H) in Hin. Qed.

Lemma bind_assoc {A B C} (m : M Env A) (k : A → M Env B) (k' : B → M Env C) w :
  bind (bind m k) k' w = bind m (λ a, bind (k a) k') w.
Proof. unfold bind. by destruct (m w) as [[a|e] w']. Qed.

Lemma bind_ext {A B} (m : M Env A) (k k' : A → M Env B) w :
  (∀ a w', k a w' = k' a w') → bind m k w = bind m k' w.
Proof. intros H. unfold bind. destruct (m w) as [[a|e] w']; [apply H | done]. Qed.

(** [_main] is the eviction, the write of the registry and the rest, in
    this order. *)
Lemma main_split u m w :
  _main X u m w =
  (main_eviction X u m ;;
   current <- get_currentInstance ;;
   install current ;;
   main_after_install X u m current) w.
Proof.
  unfold main_eviction. rewrite bind_assoc. apply bind_ext. intros h w1.
  rewrite bind_assoc. apply bind_ext. intros _ w2.
  rewrite bind_assoc. apply bind_ext. intros registered w3.
  apply bind_ext. intros _ w4. apply bind_ext. intros current w5.
  unfold install. by rewrite bind_assoc.
Qed.

(** What the eviction of a registered instance does. *)
Lemma main_eviction_run u m w old resolve :
  gs_currentInstance (warned X u m w) = Some old →
  swalPromiseResolve (warned X u m w) !! old = Some resolve →
  wp (main_eviction X u m) (λ r evicted,
    r = Ok tt ∧
    currentInstance evicted = currentInstance w ∧
    promise_ evicted = promise_ w ∧
    (∃ aria,
       trace evicted =
         (trace w ++
          ECall (XshowWarningsForParams
                   (assign [own_props (heap (shared w)) m; own_props (heap (shared w)) u]))
          :: ECall (X_destroy old)
          :: (if awaiting (warned X u m w) old then [] else [EResolve resolve superseded])
          ++ aria)%list
       ∧ (aria = [] ∨ aria = [ECall XunsetAriaHidden])) ∧
    (keeps_promises X →
     promises (shared evicted) =
       if awaiting (warned X u m w) old then promises (shared w)
       else partial_alter (settle (Fulfilled superseded)) resolve (promises (shared w)))) w.
Proof.
  intros Hold Hres. unfold main_eviction.
  apply wp_bind, wp_get, wp_bind, wp_call, wp_bind, wp_get.
  change (shared (on_shared _ _)) with (warned X u m w). rewrite Hold.
  apply wp_bind, wp_get, wp_bind, wp_get, wp_bind, wp_call.
  change (shared (on_shared _ (exec _ w))) with (warned X u m w). rewrite Hres.
  set (warn := ECall (XshowWarningsForParams _)).
  assert (Hmodal : ∀ w1 (Q : Res unit → World Env → Prop),
    (∀ w2 aria, currentInstance w2 = currentInstance w1 → promise_ w2 = promise_ w1 →
       trace w2 = (trace w1 ++ aria)%list → (aria = [] ∨ aria = [ECall XunsetAriaHidden]) →
       (keeps_promises X → promises (shared w2) = promises (shared w1)) →
       Q (Ok tt) w2) →
    wp (modal <- get (isModal X) ;; when modal (call X XunsetAriaHidden)) Q w1).
  { intros w1 Q HQ. apply wp_bind, wp_get.
    destruct (isModal X (shared w1)); cbn [when].
    - apply wp_call. apply (HQ _ [ECall XunsetAriaHidden]); try done; [by right|].
      intros HP. cbn. by rewrite HP.
    - apply wp_ret. apply (HQ _ []); try done; [by rewrite app_nil_r | by left]. }
  destruct (awaiting (warned X u m w) old); cbn [negb]; cbv iota.
  - apply wp_bind, wp_ret. apply Hmodal. intros w2 aria Hc Hp Ht Ha HP.
    split_and!; [done | by rewrite Hc | by rewrite Hp | |].
    + exists aria. split; [|done]. rewrite Ht. cbn. by rewrite <-!app_assoc.
    + intros HX. rewrite (HP HX). cbn. by rewrite !HX.
  - unfold callResolve. apply wp_bind, wp_bind, wp_emit, wp_modify.
    apply Hmodal. intros w2 aria Hc Hp Ht Ha HP.
    split_and!; [done | by rewrite Hc | by rewrite Hp | |].
    + exists aria. split; [|done]. rewrite Ht. cbn. by rewrite <-!app_assoc.
    + intros HX. rewrite (HP HX). cbn. by rewrite !HX.
Qed.

(** Once the eviction has returned, [_main] writes the registry and goes
    on from there. *)
Lemma main_from_evicted u m w :
  outcome (main_eviction X u m) w = Ok tt →
  let evicted := exec (main_eviction X u m) w in
  _main X u m w =
  main_after_install X u m (currentInstance evicted)
    (exec (install (currentInstance evicted)) evicted).
Proof.
  intros Hr. cbn zeta. rewrite main_split. unfold bind at 1. unfold outcome, exec in *.
  destruct (main_eviction X u m w) as [[[]|e] w1]; cbn [fst snd] in *; [done | discriminate].
Qed.

End Eviction.

(** ** What the eviction settles *)

Section Settling.
Context {Env : Type} (X : Externals Env).
Hypothesis HX : keeps_promises X.
Implicit Types (w : World Env).

Lemma promises_kept_refl w : promises_kept w w.
Proof. by intros p. Qed.

Lemma promises_kept_trans (a b c : World Env) :
  promises_kept a b → promises_kept b c → promises_kept a c.
Proof.
  intros Hab Hbc p Hp. rewrite Hbc; [by apply Hab|]. by rewrite Hab.
Qed.

Lemma promises_kept_same w w' :
  promises (shared w') = promises (shared w) → promises_kept w w'.
Proof. intros H p _. by rewrite H. Qed.

Lemma promises_kept_keeps : Keeps X (@promises_kept Env).
Proof.
  split.
  - apply promises_kept_refl.
  - apply promises_kept_trans.
  - intros c w _. apply promises_kept_same. apply HX.
  - intros e w. by apply promises_kept_same.
  - intros f w _ H _. by apply promises_kept_same.
Qed.

Lemma promises_kept_heap_free : heap_free (@promises_kept Env).
Proof. intros f w. by apply promises_kept_same. Qed.

Lemma promises_kept_swalPromise i dc l : always promises_kept (swalPromise X i dc l).
Proof.
  intros w. unfold swalPromise, newPromise, exec. unfold bind at 1. cbn [get fst snd].
  unfold bind at 1. cbn [modify fst snd].
  set (p := fresh (dom (promises (shared w)))).
  assert (Hp : promises (shared w) !! p = None) by apply not_elem_of_dom, is_fresh.
  set (w1 := on_shared _ w).
  assert (H1 : promises_kept w w1).
  { intros q Hq. cbn. rewrite lookup_insert_ne; [done|]. intros <-.
    rewrite Hp in Hq. by destruct Hq. }
  pose proof (stays_executor X _ promises_kept_keeps i dc l p w1) as H2. unfold exec in H2.
  match type of H2 with promises_kept _ (snd (?m w1)) => destruct (m w1) as [[[]|e] w2] end;
    cbn [fst snd] in *.
  - by apply (promises_kept_trans _ w1).
  - intros q Hq. cbn. rewrite lookup_partial_alter_ne.
    + by apply (promises_kept_trans _ w1).
    + intros <-. rewrite Hp in Hq. by destruct Hq.
Qed.

Lemma promises_kept_main_after_install u m current :
  always promises_kept (main_after_install X u m current).
Proof.
  apply (stays_main_after_install X _ promises_kept_keeps).
  - apply promises_kept_heap_free.
  - apply promises_kept_swalPromise.
Qed.

Lemma promises_kept_install current w : promises_kept w (exec (install current) w).
Proof. by apply promises_kept_same. Qed.

End Settling.

Section Registry.
Context {Env : Type} (X : Externals Env).
Hypothesis HX : keeps_registry X.
Implicit Types (w : World Env).

Lemma registry_kept_keeps : Keeps X (@registry_kept Env).
Proof.
  split; unfold registry_kept.
  - done.
  - intros a b c Hab Hbc. congruence.
  - intros c w Hc. by apply HX.
  - done.
  - by intros f w _ _ H.
Qed.

Lemma registry_kept_main_after_install u m current :
  always registry_kept (main_after_install X u m current).
Proof.
  apply (stays_main_after_install X _ registry_kept_keeps); [done|].
  intros i dc l. by apply (stays_swalPromise X _ registry_kept_keeps).
Qed.

End Registry.

(** ** The constructor up to the call of [_main] *)

Section Calling.
Context {Env : Type} (X : Externals Env).
Implicit Types (w : World Env).

Lemma constructor_calls_main args w :
  window_defined X = true →
  let this := fresh (dom (instances (shared w))) in
  let outerParams := fresh (dom (heap (shared w))) in
  let calling := exec (constructor_before_main X args) w in
  constructor_before_main X args w = (Ok (this, outerParams), calling) ∧
  currentInstance calling = Some this ∧
  gs_currentInstance (shared calling) = gs_currentInstance (shared w) ∧
  promises (shared calling) = promises (shared w) ∧
  swalPromiseResolve (shared calling) = swalPromiseResolve (shared w) ∧
  new_SweetAlert X args w =
    (promise <- _main X (VRef outerParams) VUndefined ;;
     set_promise_ this promise ;;
     ret this) calling.
Proof.
  intros Hwin. cbn zeta. split_and!; try reflexivity.
  unfold new_SweetAlert, constructor. rewrite Hwin. cbn [negb].
  unfold constructor_before_main, exec.
  unfold bind, set_currentInstance, get, alloc, freeze, set_params, set_isAwaitingPromise,
    get_currentInstance, modify, emit, ret, bind, on_shared.
  cbn -[_main]. unfold params_of. cbn -[_main].
  rewrite !lookup_alter_eq, lookup_insert_eq. cbn -[_main].
  by destruct (_main X _ _ _) as [[p|e] w'].
Qed.

End Calling.

(** C1. When [_main] runs while an instance [old] is registered in the
    global state, [old._destroy()] is the first thing the eviction does,
    and the resolve function of [old] is called, with
    [{ isDismissed: true }], if and only if [old.isAwaitingPromise] was
    not set when the eviction read it; the run calls no other resolve
    function. Where the imported modules settle no promise themselves,
    the result of [old], if it was pending, is fulfilled with
    [{ isDismissed: true }] when [_main] returns if [old] was not
    awaiting, and is still pending if it was; a result that was settled
    already stays as it was, and no other promise that existed is
    changed. *)
Theorem main_evicts_registered_instance {Env} (X : Externals Env)
    (userParams mixinParams : Value) (w : World Env) (old : iref) (resolve : pid) :
  gs_currentInstance (warned X userParams mixinParams w) = Some old →
  swalPromiseResolve (warned X userParams mixinParams w) !! old = Some resolve →
  let w' := exec (_main X userParams mixinParams) w in
  let was_awaiting := awaiting (warned X userParams mixinParams w) old in
  (∃ rest,
    new_events w w' =
      ECall (XshowWarningsForParams
               (assign [own_props (heap (shared w)) mixinParams;
                        own_props (heap (shared w)) userParams]))
      :: ECall (X_destroy old)
      :: (if was_awaiting then rest
          else EResolve resolve {[ "isDismissed" := VBool true ]} :: rest)
    ∧ ∀ p v, EResolve p v ∉ rest)
  ∧ (keeps_promises X →
     (promises (shared w) !! resolve = Some Pending →
      promises (shared w') !! resolve
      = Some (if was_awaiting then Pending
              else Fulfilled {[ "isDismissed" := VBool true ]}))
     ∧ (if was_awaiting then promises_kept w w'
        else promises (shared w') !! resolve
             = settle (Fulfilled {[ "isDismissed" := VBool true ]})
                 (promises (shared w) !! resolve)
             ∧ ∀ p, p ≠ resolve → is_Some (promises (shared w) !! p) →
                    promises (shared w') !! p = promises (shared w) !! p)).
Proof.
  intros Hold Hres. cbn zeta. split.
  - destruct (main_trace X userParams mixinParams w old resolve Hold Hres)
      as (aria & post & Ht & Haria & Hpost).
    exists (aria ++ ESetCurrent (currentInstance w) :: post)%list. split.
    + rewrite (new_events_app _ _ _ Ht). by destruct (awaiting _ old).
    + intros p v [Hin|Hin]%elem_of_app.
      * by destruct Haria as [-> | ->]; [apply not_elem_of_nil in Hin
                                         | apply list_elem_of_singleton in Hin].
      * apply elem_of_cons in Hin as [?|Hin]; [done|].
        by apply (leaves_file_no_resolve post p v).
  - intros HX.
    destruct (main_eviction_run X userParams mixinParams w old resolve Hold Hres)
      as (Hr & _ & _ & _ & Hprom).
    specialize (Hprom HX). fold superseded.
    set (evicted := exec (main_eviction X userParams mixinParams) w) in *.
    assert (Hkept : promises_kept evicted (exec (_main X userParams mixinParams) w)).
    { unfold exec at 1. rewrite (main_from_evicted X userParams mixinParams w Hr).
      fold evicted. apply (promises_kept_trans _ (exec (install (currentInstance evicted)) evicted)).
      - apply promises_kept_install.
      - apply (promises_kept_main_after_install X HX). }
    assert (Hall : if awaiting (warned X userParams mixinParams w) old
                   then promises_kept w (exec (_main X userParams mixinParams) w)
                   else promises (shared (exec (_main X userParams mixinParams) w)) !! resolve
                        = settle (Fulfilled superseded) (promises (shared w) !! resolve)
                        ∧ ∀ p, p ≠ resolve → is_Some (promises (shared w) !! p) →
                               promises (shared (exec (_main X userParams mixinParams) w)) !! p
                               = promises (shared w) !! p).
    { destruct (awaiting (warned X userParams mixinParams w) old).
      - intros p Hp. rewrite Hkept; rewrite Hprom; done.
      - split.
        + rewrite Hkept; rewrite Hprom, lookup_partial_alter_eq; [done|].
          by destruct (promises (shared w) !! resolve) as [[]|].
        + intros p Hne Hp. rewrite Hkept; rewrite Hprom, lookup_partial_alter_ne; done. }
    split; [|exact Hall]. intros Hpend.
    destruct (awaiting (warned X userParams mixinParams w) old).
    + rewrite Hall; [done|]. by rewrite Hpend.
    + destruct Hall as [-> _]. by rewrite Hpend.
Qed.

Lemma plain_page_keeps_promises : keeps_promises plain_page.
Proof. by intros c s. Qed.

Lemma plain_page_keeps_registry : keeps_registry plain_page.
Proof. by intros c s. Qed.

Lemma main_evicts_registered_instance_witness :
  let first := [("title", VStr "first")] in
  let w := reopening first in
  let w' := exec (_main plain_page (VRef 9) VUndefined) w in
  let a := reopening_awaited first in
  let a' := exec (_main plain_page (VRef 9) VUndefined) a in
  (promises (shared w) !! 1%positive = Some Pending
   ∧ (∃ rest,
        new_events w w' =
          ECall (XshowWarningsForParams {[ "title" := VStr "first" ]})
          :: ECall (X_destroy 1)
          :: EResolve 1 {[ "isDismissed" := VBool true ]} :: rest
        ∧ ∀ p v, EResolve p v ∉ rest)
   ∧ promises (shared w') !! 1%positive
     = Some (Fulfilled {[ "isDismissed" := VBool true ]}))
  ∧ (promises (shared a) !! 1%positive = Some Pending
     ∧ (∃ rest,
          new_events a a' =
            ECall (XshowWarningsForParams {[ "title" := VStr "first" ]})
            :: ECall (X_destroy 1) :: rest
          ∧ ∀ p v, EResolve p v ∉ rest)
     ∧ promises (shared a') !! 1%positive = Some Pending).
Proof.
  cbn zeta. split.
  - pose proof (main_evicts_registered_instance plain_page (VRef 9) VUndefined
                  (reopening [("title", VStr "first")]) 1 1) as H.
    cbn zeta in H.
    assert (awaiting (warned plain_page (VRef 9) VUndefined
                        (reopening [("title", VStr "first")])) 1 = false) as Haw
      by (vm_compute; reflexivity).
    rewrite Haw in H.
    destruct H as [Htrace Hstate]; [vm_compute; reflexivity ..|].
    destruct (Hstate plain_page_keeps_promises) as [Hp _].
    split_and!; [vm_compute; reflexivity | exact Htrace | apply Hp; vm_compute; reflexivity].
  - pose proof (main_evicts_registered_instance plain_page (VRef 9) VUndefined
                  (reopening_awaited [("title", VStr "first")]) 1 1) as H.
    cbn zeta in H.
    assert (awaiting (warned plain_page (VRef 9) VUndefined
                        (reopening_awaited [("title", VStr "first")])) 1 = true) as Haw
      by (vm_compute; reflexivity).
    rewrite Haw in H.
    destruct H as [Htrace Hstate]; [vm_compute; reflexivity ..|].
    destruct (Hstate plain_page_keeps_promises) as [Hp _].
    split_and!; [vm_compute; reflexivity | exact Htrace | apply Hp; vm_compute; reflexivity].
Defined.

(** C2. The registry [globalState.currentInstance] is one slot, which
    holds one instance or none. A run of [_main] writes it once, with the
    module-level [currentInstance], which in the constructor is the
    instance under construction. The eviction of the instance found
    there runs to its end before the write: [_destroy()] is called and,
    when the instance was not awaiting, its resolve function is called
    with [{ isDismissed: true }], which, where the imported modules
    settle no promise themselves, fulfills its pending result before the
    registry changes. After the write the run neither destroys nor
    resolves nor writes the registry again, no promise that existed
    changes, and where no function of the imported modules but
    [_destroy] writes the registry it holds the new instance when
    [_main] returns. *)
Theorem main_installs_after_eviction {Env} (X : Externals Env)
    (userParams mixinParams : Value) (w : World Env) (old : iref) (resolve : pid) :
  gs_currentInstance (warned X userParams mixinParams w) = Some old →
  swalPromiseResolve (warned X userParams mixinParams w) !! old = Some resolve →
  let was_awaiting := awaiting (warned X userParams mixinParams w) old in
  let evicted := exec (main_eviction X userParams mixinParams) w in
  let installed := exec (install (currentInstance w)) evicted in
  let w' := exec (_main X userParams mixinParams) w in
  (∃ pre post,
     new_events w w' = (pre ++ ESetCurrent (currentInstance w) :: post)%list
     ∧ ECall (X_destroy old) ∈ pre
     ∧ (was_awaiting = false →
        EResolve resolve {[ "isDismissed" := VBool true ]} ∈ pre)
     ∧ (∀ c, ESetCurrent c ∉ pre)
     ∧ (∀ c, ESetCurrent c ∉ post)
     ∧ (∀ i, ECall (X_destroy i) ∉ post)
     ∧ (∀ p v, EResolve p v ∉ post))
  ∧ main_eviction X userParams mixinParams w = (Ok tt, evicted)
  ∧ _main X userParams mixinParams w
    = main_after_install X userParams mixinParams (currentInstance w) installed
  ∧ (∃ aria,
       new_events w evicted =
         ECall (XshowWarningsForParams
                  (assign [own_props (heap (shared w)) mixinParams;
                           own_props (heap (shared w)) userParams]))
         :: ECall (X_destroy old)
         :: (if was_awaiting then []
             else [EResolve resolve {[ "isDismissed" := VBool true ]}])
         ++ aria
       ∧ (aria = [] ∨ aria = [ECall XunsetAriaHidden]))
  ∧ (keeps_promises X →
     promises (shared evicted) =
       (if was_awaiting then promises (shared w)
        else partial_alter (settle (Fulfilled {[ "isDismissed" := VBool true ]})) resolve
               (promises (shared w)))
     ∧ (was_awaiting = false → promises (shared w) !! resolve = Some Pending →
        promises (shared evicted) !! resolve
        = Some (Fulfilled {[ "isDismissed" := VBool true ]}))
     ∧ promises_kept evicted w')
  ∧ shared installed = set_gs_currentInstance (currentInstance w) (shared evicted)
  ∧ new_events evicted installed = [ESetCurrent (currentInstance w)]
  ∧ (keeps_registry X → gs_currentInstance (shared w') = currentInstance w)
  ∧ (∀ args (w0 : World Env),
       window_defined X = true →
       let this := fresh (dom (instances (shared w0))) in
       let outerParams := fresh (dom (heap (shared w0))) in
       let calling := exec (constructor_before_main X args) w0 in
       constructor_before_main X args w0 = (Ok (this, outerParams), calling)
       ∧ currentInstance calling = Some this
       ∧ gs_currentInstance (shared calling) = gs_currentInstance (shared w0)
       ∧ new_SweetAlert X args w0 =
           (promise <- _main X (VRef outerParams) VUndefined ;;
            set_promise_ this promise ;;
            ret this) calling).
Proof.
  intros Hold Hres. cbn zeta.
  destruct (main_eviction_run X userParams mixinParams w old resolve Hold Hres)
    as (Hr & Hc & _ & (aria & Ht & Haria) & Hprom).
  pose proof (main_from_evicted X userParams mixinParams w Hr) as Hmain. cbn zeta in Hmain.
  set (evicted := exec (main_eviction X userParams mixinParams) w) in *.
  rewrite Hc in Hmain. fold superseded in *.
  split_and!.
  - destruct (main_trace X userParams mixinParams w old resolve Hold Hres)
      as (aria' & post & Ht' & Haria' & Hpost).
    eexists (_ :: _ :: _ ++ aria')%list, post. split_and!.
    + rewrite (new_events_app _ _ _ Ht'). cbn. by rewrite <-app_assoc.
    + apply elem_of_cons. right. apply elem_of_cons. by left.
    + intros ->. do 2 (apply elem_of_cons; right). apply elem_of_app. left.
      by apply list_elem_of_singleton.
    + intros c Hin. apply elem_of_cons in Hin as [?|Hin]; [done|].
      apply elem_of_cons in Hin as [?|Hin]; [done|].
      apply elem_of_app in Hin as [Hin|Hin].
      * destruct (awaiting _ old); [by apply not_elem_of_nil in Hin|].
        by apply list_elem_of_singleton in Hin.
      * by destruct Haria' as [-> | ->]; [apply not_elem_of_nil in Hin
                                          | apply list_elem_of_singleton in Hin].
    + intros c. by apply leaves_file_no_install.
    + intros i Hin. by apply (proj1 (Forall_forall _ _) Hpost) in Hin.
    + intros p v. by apply leaves_file_no_resolve.
  - unfold outcome in Hr. unfold evicted, exec.
    destruct (main_eviction X userParams mixinParams w) as [r w1]. cbn in *. by subst r.
  - exact Hmain.
  - exists aria. split; [|done]. by apply new_events_app.
  - intros HX. specialize (Hprom HX). split_and!.
    + exact Hprom.
    + intros Haw Hpend. rewrite Hprom, Haw, lookup_partial_alter_eq, Hpend. done.
    + unfold exec at 1. rewrite Hmain.
      apply (promises_kept_trans _ (exec (install (currentInstance w)) evicted)).
      * apply promises_kept_install.
      * apply (promises_kept_main_after_install X HX).
  - reflexivity.
  - by apply new_events_app.
  - intros HX. unfold exec at 1. rewrite Hmain.
    apply (registry_kept_main_after_install X HX).
  - intros args w0 Hwin.
    destruct (constructor_calls_main X args w0 Hwin) as (H1 & H2 & H3 & _ & _ & H6).
    by split_and!.
Qed.

Lemma main_installs_after_eviction_witness :
  let w := reopening [("title", VStr "first")] in
  let evicted := exec (main_eviction plain_page (VRef 9) VUndefined) w in
  let installed := exec (install (Some 2%positive)) evicted in
  let w' := exec (_main plain_page (VRef 9) VUndefined) w in
  currentInstance w = Some 2%positive
  ∧ gs_currentInstance (shared w) = Some 1%positive
  ∧ promises (shared w) !! 1%positive = Some Pending
  ∧ main_eviction plain_page (VRef 9) VUndefined w = (Ok tt, evicted)
  ∧ promises (shared evicted) !! 1%positive
    = Some (Fulfilled {[ "isDismissed" := VBool true ]})
  ∧ gs_currentInstance (shared evicted) = Some 1%positive
  ∧ gs_currentInstance (shared installed) = Some 2%positive
  ∧ _main plain_page (VRef 9) VUndefined w
    = main_after_install plain_page (VRef 9) VUndefined (Some 2%positive) installed
  ∧ gs_currentInstance (shared w') = Some 2%positive
  ∧ promises (shared w') !! 1%positive
    = Some (Fulfilled {[ "isDismissed" := VBool true ]}).
Proof.
  cbn zeta.
  pose proof (main_installs_after_eviction plain_page (VRef 9) VUndefined
                (reopening [("title", VStr "first")]) 1 1) as H.
  cbn zeta in H.
  assert (currentInstance (reopening [("title", VStr "first")]) = Some 2%positive) as Hcur
    by (vm_compute; reflexivity).
  rewrite Hcur in H.
  destruct H as (_ & Hev & Hmain & _ & Hprom & Hinst & _ & Hreg & _);
    [vm_compute; reflexivity ..|].
  destruct (Hprom plain_page_keeps_promises) as (_ & Hsettled & Hkept).
  assert (promises (shared (exec (main_eviction plain_page (VRef 9) VUndefined)
                              (reopening [("title", VStr "first")]))) !! 1%positive
          = Some (Fulfilled {[ "isDismissed" := VBool true ]})) as Hp
    by (apply Hsettled; vm_compute; reflexivity).
  split_and!.
  - exact Hcur.
  - vm_compute; reflexivity.
  - vm_compute; reflexivity.
  - exact Hev.
  - exact Hp.
  - vm_compute; reflexivity.
  - rewrite Hinst. reflexivity.
  - exact Hmain.
  - exact (Hreg plain_page_keeps_registry).
  - rewrite Hkept; [exact Hp|]. rewrite Hp. eauto.
Defined.

(** ** Construction *)

(** C10. Where [window] is undefined the constructor returns at once: the
    module-level [currentInstance], the global state, the trace and the
    private promises are as before, and the new instance has neither
    [params] nor [isAwaitingPromise] nor a result promise. *)
Theorem constructor_without_window {Env} (X : Externals Env) (args : list Value)
    (w : World Env) :
  window_defined X = false →
  let this := fresh (dom (instances (shared w))) in
  constructor X this args (exec new_instance w) = (Ok tt, exec new_instance w)
  ∧ new_SweetAlert X args w
    = (Ok this, on_shared (set_instances <[this := mkInstance None None]>) w).
Proof.
  intros Hw. cbn zeta. unfold new_SweetAlert, constructor, bind. rewrite Hw. by cbn.
Qed.

Lemma constructor_without_window_witness :
  new_SweetAlert headless [VRef 4] (stock_page [("title", VStr "first")])
  = (Ok 1%positive,
     on_shared (set_instances <[1%positive := mkInstance None None]>)
       (stock_page [("title", VStr "first")])).
Proof.
  apply (constructor_without_window headless [VRef 4] (stock_page [("title", VStr "first")])).
  reflexivity.
Defined.

(** ** Focus *)

Section Focus.
Context {Env : Type} (X : Externals Env).
Implicit Types (w : World Env).

Lemma new_events_focused e w : new_events w (focused X e w) = [ECall (Xfocus e)].
Proof. by apply new_events_app. Qed.

Lemma new_events_same w : new_events w w = [].
Proof. apply new_events_app. by rewrite app_nil_r. Qed.

Lemma focusAutofocus_loop_find es w :
  focusAutofocus_loop X es w =
  match find (λ e, isHTMLElement X (shared w) e && isVisible X (shared w) (Some e)) es with
  | Some e => (Ok true, focused X e w)
  | None => (Ok false, w)
  end.
Proof.
  induction es as [|e es IH]; [done|]. cbn [focusAutofocus_loop find].
  unfold bind at 1 2, get. cbn.
  destruct (isHTMLElement X (shared w) e && isVisible X (shared w) (Some e)); [done|].
  apply IH.
Qed.

Lemma focusAutofocus_first dc popup w :
  dc_popup dc = Some popup →
  focusAutofocus X dc w =
  match first_autofocus X (shared w) popup with
  | Some e => (Ok true, focused X e w)
  | None => (Ok false, w)
  end.
Proof.
  intros Hp. unfold focusAutofocus. rewrite Hp. unfold bind, get. cbn.
  apply focusAutofocus_loop_find.
Qed.

Lemma focusButton_cases dc ip w :
  focusButton X dc ip w =
  if wants X w ip "focusDeny" (dc_denyButton dc)
  then (focus X (dc_denyButton dc) ;; ret true) w
  else if wants X w ip "focusCancel" (dc_cancelButton dc)
  then (focus X (dc_cancelButton dc) ;; ret true) w
  else if wants X w ip "focusConfirm" (dc_confirmButton dc)
  then (focus X (dc_confirmButton dc) ;; ret true) w
  else (Ok false, w).
Proof.
  unfold focusButton, wants, getProp, bind, get. cbn.
  by repeat match goal with |- context [if ?b then _ else _] => destruct b end.
Qed.

Lemma focus_some e w : (focus X (Some e) ;; ret true) w = (Ok true, focused X e w).
Proof. done. Qed.

Lemma setFocus_first w :
  setFocus X (-1) 1 w =
  match head (getFocusableElements X (shared w)) with
  | Some e => (Ok tt, focused X e w)
  | None => (Ok tt, w)
  end.
Proof.
  unfold setFocus, bind, get. cbn. by destruct (getFocusableElements X (shared w)).
Qed.

Lemma blurActiveElement_cases w :
  blurActiveElement X w =
  match activeElement X (shared w) with
  | Some e =>
      if isHTMLElement X (shared w) e && hasBlur X (shared w) e
      then (Ok tt, exec (call X (Xblur e)) w)
      else (Ok tt, w)
  | None => (Ok tt, w)
  end.
Proof.
  unfold blurActiveElement, bind, get. cbn.
  destruct (activeElement X (shared w)) as [e|]; [|done]. cbn.
  by destruct (isHTMLElement X (shared w) e && hasBlur X (shared w) e).
Qed.

Lemma call_then {A} c (k : M Env A) w : (call X c ;; k) w = k (exec (call X c) w).
Proof. done. Qed.

Lemma callIfFunction_evaluated v w :
  outcome (callIfFunction X v) w = Ok (evaluated X (shared w) v).
Proof. by destruct v. Qed.

Lemma focusButton_false dc ip w :
  outcome (focusButton X dc ip) w = Ok false → focusButton X dc ip w = (Ok false, w).
Proof.
  unfold outcome. rewrite focusButton_cases.
  repeat match goal with |- context [if ?b then _ else _] => destruct b end;
    try done;
    unfold focus, bind;
    by repeat match goal with |- context [match ?o with Some _ => _ | None => _ end] =>
                destruct o
              end.
Qed.

Lemma initFocus_cases dc ip w :
  initFocus X dc ip w =
  if truthy (prop_of (shared w) ip "toast") then (Ok tt, w)
  else
    let allowEnterKey := prop_of (shared w) ip "allowEnterKey" in
    let w1 := exec (callIfFunction X allowEnterKey) w in
    (if negb (truthy (evaluated X (shared w) allowEnterKey))
     then call X (XwarnAboutDeprecation "allowEnterKey") ;; blurActiveElement X
     else focused <- focusAutofocus X dc ;;
          if focused then ret tt
          else focused <- focusButton X dc ip ;;
               if focused then ret tt else setFocus X (-1) 1) w1.
Proof.
  unfold initFocus, getProp. unfold bind at 1, get at 1. cbn [fst snd].
  destruct (truthy (prop_of (shared w) ip "toast")); [done|].
  unfold bind at 1, get at 1. cbn [fst snd]. unfold bind at 1.
  destruct (prop_of (shared w) ip "allowEnterKey"); reflexivity.
Qed.

End Focus.

(** C6. In the button step the directives are tried in the order
    focusDeny, focusCancel, focusConfirm, each only when its button is
    visible; the first that applies has its button focused and ends the
    step. In particular, with focusDeny set and the deny and confirm
    buttons visible, the deny button is the one element focused, whether
    focusConfirm is set or not. *)
Theorem focusButton_order {Env} (X : Externals Env) (domCache : DomCache)
    (innerParams : loc) (w : World Env) :
  let deny := wants X w innerParams "focusDeny" (dc_denyButton domCache) in
  let cancel := wants X w innerParams "focusCancel" (dc_cancelButton domCache) in
  let confirm := wants X w innerParams "focusConfirm" (dc_confirmButton domCache) in
  (∀ d, dc_denyButton domCache = Some d → deny = true →
        focusButton X domCache innerParams w = (Ok true, focused X d w))
  ∧ (∀ c, dc_cancelButton domCache = Some c → deny = false → cancel = true →
          focusButton X domCache innerParams w = (Ok true, focused X c w))
  ∧ (∀ k, dc_confirmButton domCache = Some k →
          deny = false → cancel = false → confirm = true →
          focusButton X domCache innerParams w = (Ok true, focused X k w))
  ∧ (deny = false → cancel = false → confirm = false →
     focusButton X domCache innerParams w = (Ok false, w))
  ∧ (∀ d, dc_denyButton domCache = Some d →
          truthy (prop_of (shared w) innerParams "focusDeny") = true →
          isVisible X (shared w) (dc_denyButton domCache) = true →
          isVisible X (shared w) (dc_confirmButton domCache) = true →
          new_events w (exec (focusButton X domCache innerParams) w) = [ECall (Xfocus d)]).
Proof.
  cbn zeta. split_and!.
  - intros d Hd Hdeny. by rewrite focusButton_cases, Hdeny, Hd.
  - intros c Hc Hdeny Hcancel. by rewrite focusButton_cases, Hdeny, Hcancel, Hc.
  - intros k Hk Hdeny Hcancel Hconfirm.
    by rewrite focusButton_cases, Hdeny, Hcancel, Hconfirm, Hk.
  - intros Hdeny Hcancel Hconfirm. by rewrite focusButton_cases, Hdeny, Hcancel, Hconfirm.
  - intros d Hd Hset Hvis _. unfold exec.
    rewrite focusButton_cases. unfold wants. rewrite Hset, Hvis, Hd. cbn [andb].
    rewrite focus_some. apply new_events_focused.
Qed.

Lemma focusButton_order_witness :
  new_events
    (stock_page [("focusDeny", VBool true); ("focusConfirm", VBool true)])
    (exec (focusButton plain_page rendered 4)
       (stock_page [("focusDeny", VBool true); ("focusConfirm", VBool true)]))
  = [ECall (Xfocus 5)].
Proof.
  apply (focusButton_order plain_page rendered 4
           (stock_page [("focusDeny", VBool true); ("focusConfirm", VBool true)]));
    reflexivity.
Defined.

(** C7, as stated, fails: on a dialog whose first visible autofocus
    element is an SVG element, the chain skips it, because
    [focusAutofocus] only takes an [HTMLElement], and focuses the button
    after it. *)
Lemma autofocus_step_skips_svg : ¬ autofocus_step_as_stated.
Proof.
  intros H.
  specialize (H unit svg_page rendered 1%positive (stock_page []) 1%positive 20%positive).
  vm_compute in H. by specialize (H eq_refl eq_refl eq_refl eq_refl).
Qed.

(** C7, amended. Focus acquisition follows a fixed chain whose earlier
    steps, when they apply, prevent the later ones: (1) with toast set
    nothing is focused; (2) else, if the allowEnterKey directive evaluates
    to a falsy value, a deprecation warning is logged, the active element
    is blurred if it is an HTMLElement with a blur method, and the chain
    stops; (3) else the first element marked autofocus that is an
    HTMLElement and visible is focused; (4) else the button step runs;
    (5) else the first focusable element of the dialog is focused, or
    nothing if there is none. *)
Theorem initFocus_chain {Env} (X : Externals Env) (domCache : DomCache)
    (innerParams : loc) (w : World Env) :
  let toast := truthy (prop_of (shared w) innerParams "toast") in
  let allowEnterKey := prop_of (shared w) innerParams "allowEnterKey" in
  let allowed := truthy (evaluated X (shared w) allowEnterKey) in
  let w1 := exec (callIfFunction X allowEnterKey) w in
  (toast = true → initFocus X domCache innerParams w = (Ok tt, w))
  ∧ (toast = false → allowed = false →
     let w2 := exec (call X (XwarnAboutDeprecation "allowEnterKey")) w1 in
     initFocus X domCache innerParams w =
     match activeElement X (shared w2) with
     | Some e =>
         if isHTMLElement X (shared w2) e && hasBlur X (shared w2) e
         then (Ok tt, exec (call X (Xblur e)) w2)
         else (Ok tt, w2)
     | None => (Ok tt, w2)
     end)
  ∧ (∀ popup e, toast = false → allowed = true → dc_popup domCache = Some popup →
       first_autofocus X (shared w1) popup = Some e →
       initFocus X domCache innerParams w = (Ok tt, focused X e w1))
  ∧ (∀ popup, toast = false → allowed = true → dc_popup domCache = Some popup →
       first_autofocus X (shared w1) popup = None →
       outcome (focusButton X domCache innerParams) w1 = Ok true →
       initFocus X domCache innerParams w
       = (Ok tt, exec (focusButton X domCache innerParams) w1))
  ∧ (∀ popup, toast = false → allowed = true → dc_popup domCache = Some popup →
       first_autofocus X (shared w1) popup = None →
       outcome (focusButton X domCache innerParams) w1 = Ok false →
       initFocus X domCache innerParams w =
       match head (getFocusableElements X (shared w1)) with
       | Some e => (Ok tt, focused X e w1)
       | None => (Ok tt, w1)
       end).
Proof.
  cbn zeta. rewrite initFocus_cases. cbn zeta.
  split_and!.
  - by intros ->.
  - intros -> Hallowed. rewrite Hallowed. cbn [negb].
    by rewrite call_then, blurActiveElement_cases.
  - intros popup e -> Hallowed Hpopup Hfirst. rewrite Hallowed. cbn [negb].
    unfold bind at 1. by rewrite (focusAutofocus_first X _ popup), Hfirst.
  - intros popup -> Hallowed Hpopup Hfirst Hbutton. rewrite Hallowed. cbn [negb].
    unfold bind at 1. rewrite (focusAutofocus_first X _ popup), Hfirst by done.
    unfold bind at 1. unfold outcome, exec in *.
    destruct (focusButton X domCache innerParams _) as [r w2]. cbn in Hbutton. by subst r.
  - intros popup -> Hallowed Hpopup Hfirst Hbutton. rewrite Hallowed. cbn [negb].
    unfold bind at 1. rewrite (focusAutofocus_first X _ popup), Hfirst by done.
    unfold bind at 1.
    rewrite (focusButton_false X domCache innerParams _ Hbutton).
    apply setFocus_first.
Qed.

Lemma initFocus_chain_witness :
  initFocus svg_page rendered 1 (stock_page []) =
  (Ok tt, focused svg_page 21 (stock_page [])).
Proof.
  apply (proj1 (proj2 (proj2
           (initFocus_chain svg_page rendered 1%positive (stock_page []))))
           1%positive 21%positive); reflexivity.
Defined.

(** ** The static proxies *)

Section Proxies.
Context {Env : Type} (X : Externals Env).

Lemma same_currentInstance_frame : Frame X (@same_currentInstance Env) (λ _, True).
Proof.
  split; try done. intros a b c Hab Hbc. unfold same_currentInstance in *. congruence.
Qed.



End Proxies.




(** ** Frozen configurations *)

Section Frozen.
Context {Env : Type} (X : Externals Env).
Hypothesis HX : respects_frozen X.
Implicit Types (w : World Env).

Lemma frozen_kept_frame : Frame X (@frozen_kept Env) (λ _, True).
Proof.
  split.
  - by intros w l o.
  - intros a b c Hab Hbc l o Hl Hf. apply Hbc; [by apply Hab | done].
  - intros f w Hf l o. apply Hf.
  - intros c w l o Hl Hf. cbn.
    destruct (HX c (shared w) l o Hl) as (o' & Ho' & Heq). by rewrite Ho', Heq.
  - by intros e w _ l o.
  - by intros i p w l o.
Qed.

Lemma frozen_at_kept w w' l :
  frozen_kept w w' → frozen_at w l = true → frozen_at w' l = true.
Proof.
  unfold frozen_at. intros Hk Hf.
  destruct (heap (shared w) !! l) as [o|] eqn:Hl; [|done]. cbn in Hf.
  by rewrite (Hk l o Hl Hf).
Qed.

Lemma attached_nil l : ¬ attached l [].
Proof. intros [i [H|H]]; by apply not_elem_of_nil in H. Qed.

Lemma attached_app l evs1 evs2 :
  attached l (evs1 ++ evs2) → attached l evs1 ∨ attached l evs2.
Proof.
  intros [i [H|H]]; apply elem_of_app in H as [H|H]; [left|right|left|right];
    exists i; auto.
Qed.

Lemma attached_frozen_refl w : attached_frozen w w.
Proof.
  split; [by intros l o|]. exists []. split; [by rewrite app_nil_r|].
  intros l H. by apply attached_nil in H.
Qed.

Lemma attached_frozen_trans (a b c : World Env) :
  attached_frozen a b → attached_frozen b c → attached_frozen a c.
Proof.
  intros [Hk1 (e1 & Ht1 & Ha1)] [Hk2 (e2 & Ht2 & Ha2)]. split.
  - intros l o Hl Hf. apply Hk2; [by apply Hk1 | done].
  - exists (e1 ++ e2)%list. split; [by rewrite Ht2, Ht1, <-app_assoc|].
    intros l [H|H]%attached_app; [|by apply Ha2].
    apply (frozen_at_kept b); [done | by apply Ha1].
Qed.

Lemma attached_frozen_quiet w w' :
  frozen_kept w w' → trace w' = trace w → attached_frozen w w'.
Proof.
  intros Hk Ht. split; [done|]. exists []. split; [by rewrite app_nil_r|].
  intros l H. by apply attached_nil in H.
Qed.

Lemma attached_frozen_frame : Frame X (@attached_frozen Env) (λ e, ¬ attaches e).
Proof.
  split.
  - apply attached_frozen_refl.
  - apply attached_frozen_trans.
  - intros f w Hf. by apply attached_frozen_quiet.
  - intros c w. apply attached_frozen_quiet; [|done]. apply (R_effect frozen_kept_frame).
  - intros e w He. split; [by intros l o|]. exists [e]. split; [done|].
    intros l [i [H|H]]; apply list_elem_of_singleton in H; subst e; by destruct He.
  - intros i p w. apply attached_frozen_quiet; [by intros l o | done].
Qed.

Lemma attach_when_frozen e l w0 w :
  (∃ i, e = EInnerParams i l ∨ e = EParams i l) →
  holds_frozen l w0 w → holds_frozen l w0 (exec (emit e) w).
Proof.
  intros He [HR Hf]. split; [|done].
  apply (attached_frozen_trans _ w); [done|].
  split; [by intros l' o|]. exists [e]. split; [done|].
  intros l' [i [H|H]]; apply list_elem_of_singleton in H; subst e;
    destruct He as [j [He|He]]; by simplify_eq.
Qed.

Lemma keep_bind {A B} l w0 (m : M Env A) (k : A → M Env B) w :
  always attached_frozen m →
  holds_frozen l w0 w →
  (∀ a w', holds_frozen l w0 w' → wp (k a) (λ _ w'', attached_frozen w0 w'') w') →
  wp (bind m k) (λ _ w'', attached_frozen w0 w'') w.
Proof.
  intros Hm [HR Hf] Hk. apply wp_bind. unfold wp at 1.
  assert (holds_frozen l w0 (exec m w)) as Hinv.
  { split; [by apply (attached_frozen_trans _ w) | apply (frozen_at_kept w); [apply Hm | done]]. }
  destruct (outcome m w); [by apply Hk | apply Hinv].
Qed.

Lemma holds_frozen_step {A} l w0 (m : M Env A) w :
  always attached_frozen m → holds_frozen l w0 w → holds_frozen l w0 (exec m w).
Proof.
  intros Hm [HR Hf]. split; [by apply (attached_frozen_trans _ w)|].
  apply (frozen_at_kept w); [apply Hm | done].
Qed.

Lemma keep_last {A} l w0 (m : M Env A) w :
  always attached_frozen m →
  holds_frozen l w0 w →
  wp m (λ _ w'', attached_frozen w0 w'') w.
Proof. intros Hm [HR Hf]. by apply (attached_frozen_trans _ w). Qed.

Lemma carry_bind {A B} w0 (m : M Env A) (k : A → M Env B) w :
  always attached_frozen m →
  attached_frozen w0 w →
  (∀ a, outcome m w = Ok a → attached_frozen w0 (exec m w) →
        wp (k a) (λ _ w'', attached_frozen w0 w'') (exec m w)) →
  wp (bind m k) (λ _ w'', attached_frozen w0 w'') w.
Proof.
  intros Hm HR Hk. apply wp_bind. unfold wp at 1.
  assert (attached_frozen w0 (exec m w)) as Hinv by by apply (attached_frozen_trans _ w).
  destruct (outcome m w) eqn:E; [by apply Hk | apply Hinv].
Qed.

Lemma freeze_holds l w0 w :
  attached_frozen w0 w → is_Some (heap (shared w) !! l) →
  holds_frozen l w0 (exec (freeze l) w).
Proof.
  intros HR [o Ho]. split.
  - apply (attached_frozen_trans _ w); [done|].
    apply (always_freeze X _ _ attached_frozen_frame).
  - unfold frozen_at. cbn. rewrite Ho. by rewrite lookup_insert_eq.
Qed.

Lemma update_attaches_frozen i v : always attached_frozen (update X i v).
Proof.
  intros w. change (wp (update X i v) (λ _ w', attached_frozen w w') w).
  unfold update. apply wp_bind, wp_get.
  destruct (pp_innerParams (shared w) !! i) as [ip|]; [|apply attached_frozen_refl].
  apply wp_bind, wp_get.
  apply carry_bind; [apply (always_alloc X _ _ attached_frozen_frame)
                    | apply attached_frozen_refl |].
  intros l Hl HR. injection Hl as <-.
  set (w1 := exec (alloc _) w) in *.
  assert (holds_frozen (fresh (dom (heap (shared w)))) w (exec (freeze (fresh (dom (heap (shared w))))) w1))
    as Hinv.
  { apply freeze_holds; [done|]. subst w1. cbn. rewrite lookup_insert_eq. eauto. }
  apply wp_bind. unfold wp at 1. change (outcome (freeze _) w1) with (@Ok unit tt). cbv iota.
  apply wp_bind. unfold wp at 1.
  change (outcome (emit ?e) ?w') with (@Ok unit tt). cbv iota.
  apply (keep_last (fresh (dom (heap (shared w))))).
  - apply (always_bind X _ _ attached_frozen_frame).
    + by apply (always_modify_noheap X _ _ attached_frozen_frame).
    + intros _. apply (always_call X _ _ attached_frozen_frame). by intros [].
  - apply attach_when_frozen; [eauto | done].
Qed.

Lemma quiet_not_attaching e : quiet_call e → ¬ attaches e.
Proof. destruct e as [[]| | | | |]; cbn; tauto. Qed.

Lemma main_after_install_attaches_frozen u m current :
  always attached_frozen (main_after_install X u m current).
Proof.
  intros w. change (wp (main_after_install X u m current) (λ _ w', attached_frozen w w') w).
  unfold main_after_install.
  apply carry_bind;
    [keeps X attached_frozen_frame quiet_not_attaching | apply attached_frozen_refl |].
  intros params Hr HR.
  destruct (prepareParams_spec X u m w)
    as (params' & P & sc & hc & S & H & Hr' & _ & HP & _).
  unfold wp in Hr', HP. rewrite Hr in Hr'. injection Hr' as <-.
  set (w1 := exec (prepareParams X u m) w) in *.
  apply carry_bind; [keeps X attached_frozen_frame quiet_not_attaching | done |].
  intros _ _ HR2.
  set (w2 := exec (call X (XsetParameters params)) w1) in *.
  assert (is_Some (heap (shared w2) !! params)) as Halloc.
  { destruct (HX (XsetParameters params) (shared (exec (emit (ECall (XsetParameters params))) w1))
                params _ HP) as (o' & Ho' & _). by exists o'. }
  pose proof (freeze_holds params w w2 HR2 Halloc) as Hinv.
  apply wp_bind. unfold wp at 1. change (outcome (freeze params) w2) with (@Ok unit tt).
  cbv iota.
  apply (keep_bind params); [keeps X attached_frozen_frame quiet_not_attaching | done |].
  intros t w3 Hinv3.
  apply (keep_bind params); [keeps X attached_frozen_frame quiet_not_attaching | done |].
  intros _ w4 Hinv4.
  apply (keep_bind params); [keeps X attached_frozen_frame quiet_not_attaching | done |].
  intros _ w5 Hinv5.
  apply (keep_bind params); [keeps X attached_frozen_frame quiet_not_attaching | done |].
  intros domCache w6 Hinv6.
  apply (keep_bind params); [keeps X attached_frozen_frame quiet_not_attaching | done |].
  intros i w7 Hinv7.
  apply (keep_bind params); [keeps X attached_frozen_frame quiet_not_attaching | done |].
  intros _ w8 Hinv8.
  apply wp_bind. unfold wp at 1. change (outcome (emit ?e) ?w') with (@Ok unit tt). cbv iota.
  apply (keep_last params); [keeps X attached_frozen_frame quiet_not_attaching|].
  apply attach_when_frozen; [eauto | done].
Qed.

Lemma constructor_attaches_frozen this args :
  always attached_frozen (constructor X this args).
Proof.
  intros w. change (wp (constructor X this args) (λ _ w', attached_frozen w w') w).
  unfold constructor. destruct (window_defined X); cbn [negb]; [|apply attached_frozen_refl].
  apply wp_bind. unfold wp at 1. change (outcome (set_currentInstance ?c) ?w') with (@Ok unit tt).
  cbv iota. set (w1 := exec (set_currentInstance (Some this)) w).
  assert (attached_frozen w w1) as HR1 by (apply attached_frozen_quiet; [by intros l o | done]).
  apply carry_bind; [keeps X attached_frozen_frame quiet_not_attaching | done |].
  intros outer _ HR2.
  apply carry_bind; [apply (always_alloc X _ _ attached_frozen_frame) | done |].
  intros l Hl HR3. injection Hl as <-.
  set (l := fresh _) in *. set (w3 := exec (alloc outer) _) in *.
  assert (holds_frozen l w (exec (freeze l) w3)) as Hinv.
  { apply freeze_holds; [done|]. subst w3. cbn. rewrite lookup_insert_eq. eauto. }
  apply wp_bind. unfold wp at 1. change (outcome (freeze l) w3) with (@Ok unit tt). cbv iota.
  assert (holds_frozen l w (exec (set_params this l) (exec (freeze l) w3))) as Hinv2.
  { apply (holds_frozen_step l w
             (modify (set_instances (alter (λ o, mkInstance (Some l) (isAwaitingPromise o)) this)))
             (exec (emit (EParams this l)) (exec (freeze l) w3))).
    - keeps X attached_frozen_frame quiet_not_attaching.
    - apply attach_when_frozen; [eauto | done]. }
  apply wp_bind. unfold wp at 1.
  change (outcome (set_params this l) ?w') with (@Ok unit tt). cbv iota.
  apply (keep_last l); [|done].
  keeps X attached_frozen_frame quiet_not_attaching.
  apply (always__main X _ _ attached_frozen_frame quiet_not_attaching); [done|].
  apply main_after_install_attaches_frozen.
Qed.

Lemma session_attaches_frozen ops : always attached_frozen (session X ops).
Proof.
  apply (always_session_any X _ _ attached_frozen_frame quiet_not_attaching); [done | |].
  - apply update_attaches_frozen.
  - apply constructor_attaches_frozen.
Qed.

End Frozen.

(** ** Parameter preparation: the class maps and the heap *)

Section Classes.
Context {Env : Type} (X : Externals Env).
Implicit Types (w : World Env) (s : Shared Env).

Ltac fresh_facts H :=
  cbn [shared on_shared heap set_heap] in H;
  repeat (apply lookup_insert_None in H as [H ?]).

Ltac heap_lookup :=
  unfold prop_of;
  cbn [shared on_shared heap set_heap];
  repeat first [ rewrite lookup_insert_eq | rewrite lookup_insert_ne by congruence ];
  cbn [obj_props obj_frozen].

Ltac name_object l S :=
  match goal with
  | |- context [<[l := mkObj ?p false]>] => set (S := p)
  end.

Lemma own_props_weaken (h h' : gmap positive Obj) s v :
  heap s = h → h ⊆ h' → refers_inside s v → own_props h' v = own_props h v.
Proof.
  intros <- Hsub Hv. destruct v as [| | | | |l|]; try done. cbn in *.
  destruct Hv as [o Ho]. by rewrite Ho, (lookup_weaken _ _ _ _ Ho Hsub).
Qed.

Lemma prepareParams_run u m w :
  wp (prepareParams X u m) (λ r w', ∃ params sc hc P S H,
    r = Ok params ∧
    w' = on_shared (set_heap (λ _, heap (shared w'))) w ∧
    heap (shared w) ⊆ heap (shared w') ∧
    (heap (shared w) !! params = None ∧ heap (shared w) !! sc = None ∧
     heap (shared w) !! hc = None) ∧
    (params ≠ sc ∧ params ≠ hc ∧ sc ≠ hc) ∧
    heap (shared w') !! params = Some (mkObj P false) ∧
    heap (shared w') !! sc = Some (mkObj S false) ∧
    heap (shared w') !! hc = Some (mkObj H false) ∧
    P !! "showClass" = Some (VRef sc) ∧
    P !! "hideClass" = Some (VRef hc) ∧
    (merged_params X u m w !! "animation" ≠ Some (VBool false) →
     ∃ h1 h3 d d',
       heap (shared w) ⊆ h1 ∧ heap (shared w) ⊆ h3 ∧
       (is_Some (heap (shared w) !! defaultParams X) →
        d = default_class X w "showClass" ∧ d' = default_class X w "hideClass") ∧
       S = assign [own_props h1 d; own_props h1 (merged_class X u m w "showClass")] ∧
       H = assign [own_props h3 d'; own_props h3 (merged_class X u m w "hideClass")])) w.
Proof.
  unfold prepareParams.
  apply wp_bind, wp_get, wp_bind, wp_get, wp_bind, wp_alloc. intros params Hparams.
  fold (merged_params X u m w). set (M0 := merged_params X u m w).
  apply wp_bind, wp_getProp, wp_bind, wp_getProp, wp_bind, wp_get, wp_bind, wp_alloc.
  intros sc Hsc. fresh_facts Hsc. name_object sc showClass0.
  eapply wp_bind, wp_setProp; [by heap_lookup|].
  apply wp_bind, wp_getProp, wp_bind, wp_getProp, wp_bind, wp_get, wp_bind, wp_alloc.
  intros hc Hhc. fresh_facts Hhc. name_object hc hideClass0.
  eapply wp_bind, wp_setProp; [by heap_lookup|].
  apply wp_bind, wp_getProp. heap_lookup.
  rewrite !lookup_insert_ne by done.
  assert (E1 : ∀ s1, heap s1 = <[params := mkObj M0 false]> (heap (shared w)) →
                prop_of s1 params "showClass" = merged_class X u m w "showClass").
  { intros s1 Hs1. unfold prop_of, merged_class. by rewrite Hs1, lookup_insert_eq. }
  assert (E2 : ∀ s3 h, heap s3 = <[params := mkObj (<["showClass" := VRef sc]> M0) false]> h →
                prop_of s3 params "hideClass" = merged_class X u m w "hideClass").
  { intros s3 h Hs3. unfold prop_of, merged_class. rewrite Hs3, lookup_insert_eq. cbn.
    by rewrite lookup_insert_ne. }
  assert (D1 : ∀ s1 k, heap s1 = <[params := mkObj M0 false]> (heap (shared w)) →
                is_Some (heap (shared w) !! defaultParams X) →
                prop_of s1 (defaultParams X) k = default_class X w k).
  { intros s1 k Hs1 [o Ho]. unfold prop_of, default_class, prop_of.
    rewrite Hs1, lookup_insert_ne; [done|]. intros Heq. congruence. }
  assert (D2 : ∀ s3 k P0 S1 P1,
                heap s3 = <[params := mkObj P0 false]>
                            (<[sc := mkObj S1 false]>
                               (<[params := mkObj P1 false]> (heap (shared w)))) →
                is_Some (heap (shared w) !! defaultParams X) →
                prop_of s3 (defaultParams X) k = default_class X w k).
  { intros s3 k P0 S1 P1 Hs3 [o Ho]. unfold prop_of, default_class, prop_of.
    rewrite Hs3, !lookup_insert_ne; [done|..]; intros Heq; congruence. }
  assert (Sub1 : ∀ o, heap (shared w) ⊆ <[params := o]> (heap (shared w))).
  { intros o. by apply insert_subseteq. }
  assert (Sub3 : ∀ o1 o2 o3, heap (shared w) ⊆
            <[params := o1]> (<[sc := o2]> (<[params := o3]> (heap (shared w))))).
  { intros o1 o2 o3. apply insert_subseteq_r; [done|]. apply insert_subseteq_r; [done|].
    by apply insert_subseteq. }
  destruct (strict_eq_false (default VUndefined (M0 !! "animation"))) eqn:Hs.
  - apply wp_bind, wp_bind, wp_alloc. intros sc2 Hsc2. fresh_facts Hsc2.
    eapply wp_bind, wp_setProp; [by heap_lookup|].
    apply wp_bind, wp_alloc. intros hc2 Hhc2. fresh_facts Hhc2.
    eapply wp_setProp; [by heap_lookup|]. apply wp_ret.
    exists params, sc2, hc2,
      (<["hideClass" := VRef hc2]>
         (<["showClass" := VRef sc2]>
            (<["hideClass" := VRef hc]> (<["showClass" := VRef sc]> M0)))),
      {[ "backdrop" := VStr "swal2-noanimation" ]}, ∅.
    split_and!;
      first [ done | by heap_lookup | by destruct w as [[]]
            | by rewrite lookup_insert_ne, lookup_insert_eq
            | by rewrite lookup_insert_eq
            | idtac ].
    + cbn. repeat (apply insert_subseteq_r; [done|]). done.
    + intros Ha. destruct (M0 !! "animation") as [[| |[]| | | |]|]; by cbn in Hs.
  - apply wp_bind, wp_ret, wp_ret.
    exists params, sc, hc, (<["hideClass" := VRef hc]> (<["showClass" := VRef sc]> M0)),
      showClass0, hideClass0.
    split_and!;
      first [ done | by heap_lookup | by destruct w as [[]]
            | by rewrite lookup_insert_ne, lookup_insert_eq
            | by rewrite lookup_insert_eq
            | idtac ].
    + cbn. repeat (apply insert_subseteq_r; [done|]). done.
    + intros _. do 4 eexists. split_and!; cycle 3.
      * unfold showClass0. erewrite E1 by reflexivity. reflexivity.
      * unfold hideClass0. erewrite E2 by reflexivity. reflexivity.
      * apply Sub1.
      * apply Sub3.
      * intros Hd. split; [by apply D1 | by eapply D2].
Qed.

End Classes.

Section Shallow.
Context {Env : Type} (X : Externals Env).
Implicit Types (w : World Env).

Lemma frozen_rejects_writes w l k v :
  frozen_at w l = true →
  exec (setProp l k v) w = w ∧ exec (deleteProp l k) w = w.
Proof.
  unfold frozen_at, exec, setProp, deleteProp, bind, get. cbn. intros Hf.
  destruct (heap (shared w) !! l) as [[p []]|]; by cbn in *.
Qed.

Lemma freeze_is_shallow w l l' :
  l ≠ l' → heap (shared (exec (freeze l) w)) !! l' = heap (shared w) !! l'.
Proof.
  intros Hne. cbn. destruct (heap (shared w) !! l); [|done]. by rewrite lookup_insert_ne.
Qed.

Lemma prepareParams_unfrozen u m w :
  ∃ params sc hc,
    outcome (prepareParams X u m) w = Ok params ∧
    let w' := exec (prepareParams X u m) w in
    own_prop w' params "showClass" = Some (VRef sc) ∧
    own_prop w' params "hideClass" = Some (VRef hc) ∧
    frozen_at w' params = false ∧ frozen_at w' sc = false ∧ frozen_at w' hc = false ∧
    is_Some (object_at w' sc) ∧ is_Some (object_at w' hc).
Proof.
  destruct (prepareParams_spec X u m w)
    as (params & P & sc & hc & S & H & Hr & _ & HP & _ & Hsc & Hhc & HS & HH & _).
  exists params, sc, hc. split; [done|]. cbn zeta.
  unfold own_prop, frozen_at, object_at. rewrite HP, HS, HH. cbn. by rewrite Hsc, Hhc.
Qed.

Lemma update_attaches_new_object w i l v :
  pp_innerParams (shared w) !! i = Some l →
  ∃ l', heap (shared w) !! l' = None ∧
        new_events w (exec (update X i v) w) = [EInnerParams i l'; ECall (Xrender i l')].
Proof.
  intros Hl. exists (fresh (dom (heap (shared w)))). split.
  - apply not_elem_of_dom, is_fresh.
  - apply new_events_app. unfold exec, update, bind at 1, get at 1. cbn [fst snd].
    rewrite Hl. cbn. by rewrite <-app_assoc.
Qed.

End Shallow.

Section Freezing.
Context {Env : Type} (X : Externals Env).
Hypothesis HX : respects_frozen X.
Implicit Types (w : World Env).

Lemma frozen_kept_keeps : Keeps X (@frozen_kept Env).
Proof.
  split.
  - by intros w l o.
  - intros a b c Hab Hbc l o Hl Hf. apply Hbc; [by apply Hab | done].
  - intros c w _. apply (R_effect (frozen_kept_frame X HX)).
  - by intros e w l o.
  - intros f w Hh _ _ l o. cbn. by rewrite Hh.
Qed.

Lemma frozen_kept_promise_free : promise_free (@frozen_kept Env).
Proof. by intros f w l o. Qed.

(** [_main] freezes the object [prepareParams] returned as
    [setParameters] left it, and nothing changes it afterwards. *)
Lemma main_after_install_freezes u m current w l o :
  outcome (prepareParams X u m) w = Ok l →
  heap (shared (exec (call X (XsetParameters l)) (exec (prepareParams X u m) w))) !! l
    = Some o →
  heap (shared (exec (main_after_install X u m current) w)) !! l
    = Some (mkObj (obj_props o) true).
Proof.
  intros Hr Ho.
  change (wp (main_after_install X u m current)
            (λ _ w', heap (shared w') !! l = Some (mkObj (obj_props o) true)) w).
  unfold main_after_install. apply wp_bind. unfold wp at 1. rewrite Hr.
  set (w1 := exec (prepareParams X u m) w) in *.
  apply wp_bind, wp_call. change (on_shared _ (exec _ w1)) with (exec (call X (XsetParameters l)) w1).
  set (w2 := exec (call X (XsetParameters l)) w1) in *.
  unfold freeze at 1. apply wp_bind, wp_modify.
  set (w3 := on_shared _ w2).
  assert (H3 : heap (shared w3) !! l = Some (mkObj (obj_props o) true)).
  { unfold w3. cbn [shared on_shared heap set_heap]. by rewrite Ho, lookup_insert_eq. }
  clearbody w3.
  pose proof frozen_kept_keeps as K. pose proof frozen_kept_promise_free as Kp.
  apply (wp_always frozen_kept).
  - stays K.
  - intros r w' Hk. by apply Hk.
Qed.

(** The calls of [_main] from [setParameters] on, where an instance is
    under construction. *)
Lemma main_after_install_trace u m i w l :
  outcome (prepareParams X u m) w = Ok l →
  ∃ post,
    new_events w (exec (main_after_install X u m (Some i)) w) =
      ECall (XsetParameters l) :: ECall XclearTimeout :: ECall (Xrender i l)
      :: EInnerParams i l :: post
    ∧ Forall quiet_call post.
Proof.
  intros Hr.
  enough (wp (main_after_install X u m (Some i))
            (λ _ w', ∃ post,
               trace w' = (trace w ++ ECall (XsetParameters l) :: ECall XclearTimeout
                             :: ECall (Xrender i l) :: EInnerParams i l :: post)%list
               ∧ Forall quiet_call post) w) as (post & Ht & Hq).
  { exists post. split; [by apply new_events_app | done]. }
  destruct (prepareParams_spec X u m w)
    as (l' & _ & _ & _ & _ & _ & Hr' & _ & _ & _ & _ & _ & _ & _ & _ & Htr & _).
  unfold main_after_install. apply wp_bind. unfold wp at 1. rewrite Hr.
  set (w1 := exec (prepareParams X u m) w) in *.
  apply wp_bind, wp_call. unfold freeze at 1. apply wp_bind, wp_modify.
  set (w3 := on_shared _ (on_shared _ _)).
  assert (T3 : trace w3 = (trace w ++ [ECall (XsetParameters l)])%list).
  { unfold w3. cbn. by rewrite Htr. }
  clearbody w3.
  assert (Hrest : ∀ w4, trace w4 = trace w3 →
    wp (call X XclearTimeout ;;
        domCache <- populateDomCache X (Some i) ;;
        i0 <- requireKey (Some i) ;;
        call X (Xrender i0 l) ;;
        emit (EInnerParams i0 l) ;;
        modify (set_pp_innerParams <[i0 := l]>) ;;
        swalPromise X (Some i) domCache l)
       (λ _ w', ∃ post,
          trace w' = (trace w ++ ECall (XsetParameters l) :: ECall XclearTimeout
                        :: ECall (Xrender i l) :: EInnerParams i l :: post)%list
          ∧ Forall quiet_call post) w4).
  { intros w4 T4. apply wp_bind, wp_call. unfold populateDomCache.
    apply wp_bind, wp_bind, wp_get. cbn [requireKey].
    apply wp_bind, wp_ret, wp_bind, wp_modify, wp_ret, wp_bind, wp_ret.
    apply wp_bind, wp_call, wp_bind, wp_emit, wp_bind, wp_modify.
    match goal with |- wp _ _ ?w => set (w9 := w) end.
    assert (T9 : trace w9 = (trace w ++ [ECall (XsetParameters l); ECall XclearTimeout;
                                          ECall (Xrender i l); EInnerParams i l])%list).
    { unfold w9. cbn. rewrite T4, T3. by rewrite <-!app_assoc. }
    clearbody w9.
    apply (wp_always (extends quiet_call)).
    - apply (always_swalPromise X _ _ (extends_frame X quiet_call)). by intros e.
    - intros r w' (post & Ht & Hq). exists post. split; [|done].
      rewrite Ht, T9. by rewrite <-app_assoc. }
  apply wp_bind, wp_get. destruct (gs_timeout (shared w3)) as [t|].
  - unfold timer_stop. apply wp_bind, wp_bind, wp_modify, wp_modify. by apply Hrest.
  - apply wp_bind, wp_ret. by apply Hrest.
Qed.

(** The constructor freezes the object it builds before anything can
    see it. *)
Lemma constructor_freezes_params args w :
  window_defined X = true →
  let this := fresh (dom (instances (shared w))) in
  let l := fresh (dom (heap (shared w))) in
  let w' := exec (new_SweetAlert X args) w in
  heap (shared w) !! l = None ∧
  heap (shared w') !! l
    = Some (mkObj (argsToParams X (shared (exec new_instance w)) args) true) ∧
  ∃ rest, new_events w w' = EParams this l :: rest.
Proof.
  intros Hwin. cbn zeta. split; [apply not_elem_of_dom, is_fresh|].
  destruct (constructor_calls_main X args w Hwin) as (_ & _ & _ & _ & _ & Hnew).
  set (this := fresh (dom (instances (shared w)))) in *.
  set (l := fresh (dom (heap (shared w)))) in *.
  set (calling := exec (constructor_before_main X args) w) in *.
  assert (Hl : heap (shared calling) !! l
               = Some (mkObj (argsToParams X (shared (exec new_instance w)) args) true)).
  { unfold calling, l. cbn. by rewrite !lookup_insert_eq. }
  assert (Ht : trace calling = (trace w ++ [EParams this l])%list) by reflexivity.
  unfold exec at 1 3. rewrite Hnew. clearbody calling.
  set (rest := (promise <- _main X (VRef l) VUndefined ;; set_promise_ this promise ;; ret this)).
  assert (Hk : always frozen_kept rest).
  { pose proof (frozen_kept_frame X HX) as F.
    apply (always_bind X _ _ F).
    - apply (always__main X _ _ F (λ _ _, I) (λ _ _, I)).
      intros u m c. by apply (always_main_after_install X _ _ F).
    - intros p. apply (always_bind X _ _ F); [apply (always_set_promise_ X _ _ F)|].
      intros _. apply (always_ret X _ _ F). }
  assert (He : always (extends (λ _, True)) rest).
  { pose proof (extends_frame X (λ _, True)) as F.
    apply (always_bind X _ _ F).
    - apply (always__main X _ _ F (λ _ _, I) (λ _ _, I)).
      intros u m c. by apply (always_main_after_install X _ _ F).
    - intros p. apply (always_bind X _ _ F); [apply (always_set_promise_ X _ _ F)|].
      intros _. apply (always_ret X _ _ F). }
  split.
  - by apply (Hk calling).
  - destruct (He calling) as (evs & Hevs & _). exists evs. apply new_events_app.
    fold (exec rest calling). rewrite Hevs, Ht. by rewrite <-app_assoc.
Qed.

End Freezing.

Section ClassMaps.
Context {Env : Type} (X : Externals Env).
Hypothesis HX : freezes_nothing X.
Implicit Types (w : World Env).

Lemma freezes_at_most_keeps l : Keeps X (@freezes_at_most Env l).
Proof.
  split.
  - by intros w x.
  - intros a b c Hab Hbc x Hx Ha. by apply Hbc, Hab.
  - intros c w _ x Hx (o & Ho & Hf). by apply (HX c (shared w) x o).
  - by intros e w x.
  - intros f w Hh _ _ x Hx (o & Ho & Hf). exists o. cbn. by rewrite Hh.
Qed.

Lemma freezes_at_most_promise_free l : promise_free (@freezes_at_most Env l).
Proof. by intros f w x. Qed.

Lemma freezes_at_most_freeze l : always (@freezes_at_most Env l) (freeze l).
Proof.
  intros w x Hx (o & Ho & Hf). exists o. cbn.
  destruct (heap (shared w) !! l); [by rewrite lookup_insert_ne | done].
Qed.

Lemma mutable_write w l k v :
  mutable_at w l → own_prop (exec (setProp l k v) w) l k = Some v.
Proof.
  intros ([p f] & Ho & Hf). cbn in Hf. subst f.
  unfold own_prop, exec, setProp, bind, get. cbn. rewrite Ho. cbn.
  by rewrite lookup_insert_eq; cbn; rewrite lookup_insert_eq.
Qed.

(** [_main] freezes the configuration and not its class maps. *)
Lemma main_after_install_class_maps u m current w :
  let w1 := exec (prepareParams X u m) w in
  let w' := exec (main_after_install X u m current) w in
  ∃ l sc hc,
    outcome (prepareParams X u m) w = Ok l ∧
    own_prop w1 l "showClass" = Some (VRef sc) ∧
    own_prop w1 l "hideClass" = Some (VRef hc) ∧
    mutable_at w' sc ∧ mutable_at w' hc.
Proof.
  cbn zeta.
  destruct (prepareParams_run X u m w)
    as (l & sc & hc & P & S & H & Hr & _ & _ & _ & (N1 & N2 & N3) &
        HP & HS & HH & HPs & HPh & _).
  unfold wp in Hr, HP, HS, HH. exists l, sc, hc.
  set (w1 := exec (prepareParams X u m) w) in *.
  split_and!; [done | by unfold own_prop; rewrite HP | by unfold own_prop; rewrite HP | |].
  all: enough (freezes_at_most l w1 (exec (main_after_install X u m current) w)) as Hk;
    [apply Hk; [done | eexists; split; [eassumption | done]] |].
  all: change (wp (main_after_install X u m current) (λ _ w', freezes_at_most l w1 w') w);
    unfold main_after_install; apply wp_bind; unfold wp at 1; rewrite Hr; fold w1;
    apply (wp_always (freezes_at_most l)); [|done];
    apply (stays_after_prepare X _ (freezes_at_most_keeps l));
    [apply freezes_at_most_freeze |];
    intros i dc l'; apply (stays_swalPromise X _ (freezes_at_most_keeps l));
    apply freezes_at_most_promise_free.
Qed.

End ClassMaps.

(** C8, as stated, fails: the class maps of the configuration attached
    to an open dialog are not frozen, and a write to one of them changes
    it in place. *)
Lemma nested_class_map_is_mutable : ¬ deep_frozen_as_stated.
Proof.
  intros H.
  assert (HX : respects_frozen plain_page) by (intros c s l o Hl; by exists o).
  specialize (H unit plain_page tt (<[4%positive := obj [("title", VStr "first")]]> stock_defaults)
                [VRef 4] HX 1%positive 6%positive 7%positive "popup" (VStr "x")).
  vm_compute in H. by specialize (H eq_refl (or_introl eq_refl)).
Qed.

(** C8, amended. The configuration attached to an instance is frozen by
    [Object.freeze], the object itself and not the objects it refers to.
    [prepareParams] returns its object unfrozen, and so are its showClass
    and hideClass maps; [_main] hands it to [setParameters] unfrozen,
    freezes it as [setParameters] left it and only then renders and
    attaches it as the inner parameters, and nothing changes it
    afterwards. The constructor freezes [this.params] as soon as it is
    built, before anything else can see it. Every configuration a run of
    the controller attaches is frozen from then on, no operation changes
    a frozen object in place, a write to one is rejected, and [update]
    attaches a new object. The class maps are not frozen by [_main]:
    where the imported modules freeze nothing either, they can still be
    written when [_main] has returned. *)
Theorem configuration_frozen_shallowly {Env} (X : Externals Env) :
  respects_frozen X →
  (∀ ops (w : World Env) l,
     attached l (new_events w (exec (session X ops) w)) →
     frozen_at (exec (session X ops) w) l = true)
  ∧ (∀ ops (w : World Env) l o,
       heap (shared w) !! l = Some o → obj_frozen o = true →
       heap (shared (exec (session X ops) w)) !! l = Some o)
  ∧ (∀ (w : World Env) l k v,
       frozen_at w l = true →
       exec (setProp l k v) w = w ∧ exec (deleteProp l k) w = w)
  ∧ (∀ (w : World Env) l l',
       l ≠ l' → heap (shared (exec (freeze l) w)) !! l' = heap (shared w) !! l')
  ∧ (∀ userParams mixinParams (w : World Env),
       ∃ params showClass hideClass,
         outcome (prepareParams X userParams mixinParams) w = Ok params ∧
         let w' := exec (prepareParams X userParams mixinParams) w in
         own_prop w' params "showClass" = Some (VRef showClass) ∧
         own_prop w' params "hideClass" = Some (VRef hideClass) ∧
         frozen_at w' params = false ∧
         frozen_at w' showClass = false ∧ frozen_at w' hideClass = false ∧
         is_Some (object_at w' showClass) ∧ is_Some (object_at w' hideClass))
  ∧ (∀ (w : World Env) instance l partialConfig,
       pp_innerParams (shared w) !! instance = Some l →
       ∃ l', heap (shared w) !! l' = None ∧
             new_events w (exec (update X instance partialConfig) w)
             = [EInnerParams instance l'; ECall (Xrender instance l')])
  ∧ (∀ userParams mixinParams (w : World Env),
       _main X userParams mixinParams w =
       (main_eviction X userParams mixinParams ;;
        current <- get_currentInstance ;;
        install current ;;
        main_after_install X userParams mixinParams current) w)
  ∧ (∀ userParams mixinParams instance (w : World Env),
       let prepared := exec (prepareParams X userParams mixinParams) w in
       let w' := exec (main_after_install X userParams mixinParams (Some instance)) w in
       ∃ innerParams o post,
         outcome (prepareParams X userParams mixinParams) w = Ok innerParams ∧
         frozen_at prepared innerParams = false ∧
         heap (shared (exec (call X (XsetParameters innerParams)) prepared)) !! innerParams
           = Some o ∧
         heap (shared w') !! innerParams = Some (mkObj (obj_props o) true) ∧
         new_events w w' =
           ECall (XsetParameters innerParams) :: ECall XclearTimeout
           :: ECall (Xrender instance innerParams)
           :: EInnerParams instance innerParams :: post ∧
         Forall quiet_call post)
  ∧ (∀ args (w : World Env),
       window_defined X = true →
       let this := fresh (dom (instances (shared w))) in
       let outerParams := fresh (dom (heap (shared w))) in
       let w' := exec (new_SweetAlert X args) w in
       heap (shared w) !! outerParams = None ∧
       heap (shared w') !! outerParams
         = Some (mkObj (argsToParams X (shared (exec new_instance w)) args) true) ∧
       ∃ rest, new_events w w' = EParams this outerParams :: rest)
  ∧ (freezes_nothing X →
     ∀ userParams mixinParams current (w : World Env),
       let prepared := exec (prepareParams X userParams mixinParams) w in
       let w' := exec (main_after_install X userParams mixinParams current) w in
       ∃ innerParams showClass hideClass,
         outcome (prepareParams X userParams mixinParams) w = Ok innerParams ∧
         own_prop prepared innerParams "showClass" = Some (VRef showClass) ∧
         own_prop prepared innerParams "hideClass" = Some (VRef hideClass) ∧
         mutable_at w' showClass ∧ mutable_at w' hideClass ∧
         (∀ k v, own_prop (exec (setProp showClass k v) w') showClass k = Some v) ∧
         (∀ k v, own_prop (exec (setProp hideClass k v) w') hideClass k = Some v) ∧
         (∀ key c,
            own_prop (exec (call X (XsetParameters innerParams)) prepared) innerParams key
              = Some c →
            own_prop w' innerParams key = Some c)).
Proof.
  intros HX. split_and!.
  - intros ops w l Hl.
    destruct (session_attaches_frozen X HX ops w) as [_ (evs & Ht & Ha)].
    rewrite (new_events_app _ _ _ Ht) in Hl. by apply Ha.
  - intros ops w l o. apply (session_attaches_frozen X HX ops w).
  - apply frozen_rejects_writes.
  - apply freeze_is_shallow.
  - apply prepareParams_unfrozen.
  - apply update_attaches_new_object.
  - apply main_split.
  - intros u m i w. cbn zeta.
    destruct (prepareParams_spec X u m w)
      as (l & P & sc & hc & S & H & Hr & _ & HP & _).
    unfold wp in Hr, HP.
    destruct (HX (XsetParameters l)
                (shared (exec (emit (ECall (XsetParameters l))) (exec (prepareParams X u m) w)))
                l _ HP) as (o & Ho & _).
    destruct (main_after_install_trace X u m i w l Hr) as (post & Ht & Hq).
    exists l, o, post. split_and!; try done.
    + unfold frozen_at. by rewrite HP.
    + by apply (main_after_install_freezes X HX).
  - apply (constructor_freezes_params X HX).
  - intros HF u m current w. cbn zeta.
    destruct (main_after_install_class_maps X HF u m current w)
      as (l & sc & hc & Hr & Hsc & Hhc & Msc & Mhc).
    exists l, sc, hc. split_and!; try done.
    + intros k v. by apply mutable_write.
    + intros k v. by apply mutable_write.
    + intros key c Hc. unfold own_prop in Hc |- *.
      destruct (heap (shared (exec (call X (XsetParameters l)) _)) !! l) as [o|] eqn:Ho;
        [|done].
      by rewrite (main_after_install_freezes X HX u m current w l o Hr Ho).
Qed.

Lemma plain_page_respects_frozen : respects_frozen plain_page.
Proof. intros c s l o Hl. by exists o. Qed.

Lemma plain_page_freezes_nothing : freezes_nothing plain_page.
Proof. intros c s l o Hl Hf. by exists o. Qed.

Lemma configuration_frozen_shallowly_witness :
  let first := [("title", VStr "first")] in
  let prepared := exec (prepareParams plain_page (VRef 5) VUndefined) (installing first) in
  let w' := exec (main_after_install plain_page (VRef 5) VUndefined (Some 1%positive))
              (installing first) in
  frozen_at (exec (session plain_page [New [VRef 4]]) (stock_page first)) 6 = true
  ∧ frozen_at prepared 6 = false
  ∧ frozen_at w' 6 = true
  ∧ own_prop w' 6 "showClass" = Some (VRef 7)
  ∧ frozen_at w' 7 = false
  ∧ own_prop (exec (setProp 7 "popup" (VStr "x")) w') 7 "popup" = Some (VStr "x").
Proof.
  cbn zeta.
  pose proof (configuration_frozen_shallowly plain_page plain_page_respects_frozen)
    as (H1 & _ & _ & _ & _ & _ & _ & H8 & _ & H10).
  specialize (H8 (VRef 5) VUndefined 1%positive (installing [("title", VStr "first")])).
  specialize (H10 plain_page_freezes_nothing (VRef 5) VUndefined (Some 1%positive)
                (installing [("title", VStr "first")])).
  cbn zeta in H8, H10.
  destruct H8 as (l & o & post & Hr & Hunfrozen & Ho & Hfrozen & _).
  destruct H10 as (l' & sc & hc & Hr' & Hsc & _ & Msc & _ & Hwrite & _ & Hkey).
  assert (l = 6%positive) as -> by (vm_compute in Hr; congruence).
  assert (l' = 6%positive) as -> by (vm_compute in Hr'; congruence).
  assert (sc = 7%positive) as -> by (vm_compute in Hsc; congruence).
  split_and!.
  - apply (H1 [New [VRef 4]] (stock_page [("title", VStr "first")]) 6%positive).
    exists 1%positive. left. apply list_elem_of_lookup. exists 6%nat. vm_compute. reflexivity.
  - exact Hunfrozen.
  - unfold frozen_at. by rewrite Hfrozen.
  - apply Hkey. vm_compute. reflexivity.
  - destruct Msc as (o' & Ho' & Hf'). unfold frozen_at. by rewrite Ho'.
  - apply Hwrite.
Defined.

(** ** The timer *)

Section Timing.
Context {Env : Type} (X : Externals Env).
Hypothesis HX : quiet X.
Implicit Types (w : World Env).

Lemma exec_then {B} (m : M Env unit) (k : M Env B) w :
  outcome m w = Ok tt → exec (m ;; k) w = exec k (exec m w).
Proof. unfold outcome, exec, bind. by destruct (m w) as [[[]|e] w']. Qed.

Lemma exec_then_modify (m : M Env unit) f w :
  exec (m ;; modify f) w = exec m w ∨ exec (m ;; modify f) w = on_shared f (exec m w).
Proof. unfold exec, bind. destruct (m w) as [[[]|e] w']; cbn; auto. Qed.

Lemma exec_get {A B} (q : Shared Env → A) (k : A → M Env B) w :
  exec (a <- get q ;; k a) w = exec (k (q (shared w))) w.
Proof. done. Qed.

Lemma fires_app t evs1 evs2 : fires t (evs1 ++ evs2) = (fires t evs1 + fires t evs2)%nat.
Proof. unfold fires. by rewrite List.filter_app, length_app. Qed.

Lemma inert_refl t w : inert t w w.
Proof. done. Qed.

Lemma inert_trans t (a b c : World Env) : inert t a b → inert t b c → inert t a c.
Proof. intros (?&?&?&?) (?&?&?&?). unfold inert. split_and!; congruence. Qed.

Lemma inert_call t c w : inert t w (exec (call X c) w).
Proof.
  destruct (HX c (shared w)) as (_ & Ht & Hp & Hr & _).
  split_and!; [exact Ht | exact Hp | exact Hr |].
  change (trace (exec (call X c) w)) with (trace w ++ [ECall c])%list.
  by rewrite fires_app, Nat.add_0_r.
Qed.

Lemma inert_run_task t f w : inert t w (exec (run_task X f) w).
Proof.
  destruct f as [ip|[e|]|]; unfold exec, run_task, bind, get, getProp; cbn.
  - destruct (from_option _ _ _); [apply inert_call | apply inert_refl].
  - apply inert_call.
  - apply inert_refl.
  - apply inert_call.
Qed.

Lemma inert_run_tasks t q w : inert t w (exec (run_tasks X q) w).
Proof.
  revert w. induction q as [|f q IH]; intros w; [apply inert_refl|].
  apply (inert_trans t _ (exec (run_task X f) w)); [apply inert_run_task|].
  apply IH.
Qed.

Lemma armed_inert t i p n r w w' : inert t w w' → armed t i p n r w → armed t i p n r w'.
Proof.
  intros (Ht & Hp & Hr & Hf) (H1 & H2 & H3 & H4 & H5 & H6).
  unfold armed, timer_running. rewrite Ht, Hp, Hr, Hf. by split_and!.
Qed.

Lemma dismissed_inert t p n w w' : inert t w w' → dismissed t p n w → dismissed t p n w'.
Proof.
  intros (Ht & Hp & Hr & Hf) (H1 & H2 & H3).
  unfold dismissed, timer_running. rewrite Ht, Hp, Hf. by split_and!.
Qed.

Lemma advance_not_running dt t w :
  timer_running (shared w) t = false → advance X dt t w = (Ok tt, w).
Proof.
  unfold timer_running, advance, bind, get. cbn.
  destruct (timers (shared w) !! t) as [[cb r []]|]; by cbn.
Qed.

Lemma advance_all_not_running dt ts w :
  (∀ t, t ∈ ts → timer_running (shared w) t = false) → advance_all X dt ts w = (Ok tt, w).
Proof.
  induction ts as [|t ts IH]; intros H; [done|]. cbn [advance_all].
  unfold bind, attempt. rewrite advance_not_running by (apply H; by left). cbn.
  apply IH. intros t' Ht'. apply H. by right.
Qed.

Lemma advance_later dt t i p n r w :
  armed t i p n r w → dt < r →
  armed t i p n (r - dt) (exec (advance X dt t) w).
Proof.
  intros (H1 & H2 & H3 & H4 & H5 & H6) Hdt.
  unfold exec, advance, bind, get. cbn. rewrite H1. cbn.
  destruct (Z.leb_spec r dt); [lia|]. cbn.
  unfold armed, timer_running. cbn. rewrite lookup_insert_eq. split_and!; try done; [lia|].
  intros t' Hne. rewrite lookup_insert_ne by done. apply (H3 t' Hne).
Qed.

Lemma fill_timer_result :
  fillResult {[ "isDismissed" := VBool true; "dismiss" := VStr "timer" ]} = timer_result.
Proof. vm_compute. reflexivity. Qed.

Lemma timer_stop_not_running t0 w :
  (∀ t', timer_running (shared w) t' = false) →
  ∀ t', timer_running (shared (exec (timer_stop t0) w)) t' = false.
Proof.
  intros H t'. specialize (H t'). unfold timer_running in *. cbn.
  destruct (decide (t0 = t')) as [->|Hne].
  - rewrite lookup_alter_eq. destruct (timers (shared w) !! t') as [tm|]; [|done]. cbn in *.
    unfold stopped. by destruct (t_state tm) eqn:E; cbn; rewrite ?E.
  - by rewrite lookup_alter_ne.
Qed.

Lemma close_settles t i p partial w :
  swalPromiseResolve (shared w) !! i = Some p →
  promises (shared w) !! p = Some Pending →
  (∀ t', timer_running (shared w) t' = false) →
  let w' := exec (close X i partial) w in
  (∀ t', timer_running (shared w') t' = false) ∧
  promises (shared w') !! p = Some (Fulfilled (fillResult partial)) ∧
  fires t (trace w') = fires t (trace w).
Proof.
  intros Hres Hpend Hrun. cbn zeta.
  assert (Hsettle : ∀ w1,
    promises (shared w1) !! p = Some Pending →
    (∀ t', timer_running (shared w1) t' = false) →
    fires t (trace w1) = fires t (trace w) →
    let w' := exec (callResolve (Some p) (fillResult partial) ;;
                    call X (Xteardown i) ;;
                    cur <- get gs_currentInstance ;;
                    when (bool_decide (cur = Some i))
                      (emit (ESetCurrent None) ;; modify (set_gs_currentInstance None)) ;;
                    setTimeout RestoreFocus) w1 in
    (∀ t', timer_running (shared w') t' = false) ∧
    promises (shared w') !! p = Some (Fulfilled (fillResult partial)) ∧
    fires t (trace w') = fires t (trace w)).
  { intros w1 Hp1 Hr1 Hf1. cbn zeta.
    rewrite exec_then by reflexivity. rewrite exec_then by reflexivity.
    rewrite exec_get.
    set (w2 := exec (call X (Xteardown i)) _).
    assert (timers (shared w2) = timers (shared w1)
            ∧ promises (shared w2) = partial_alter (settle (Fulfilled (fillResult partial))) p
                                       (promises (shared w1))
            ∧ trace w2 = (trace w1 ++ [EResolve p (fillResult partial); ECall (Xteardown i)])%list)
      as (Ht2 & Hp2 & Htr2).
    { subst w2. unfold exec, call, callResolve, bind, emit, modify. cbn.
      match goal with |- context [effect X ?c ?s] =>
        destruct (HX c s) as (_ & Ht & Hp & _) end.
      rewrite Ht, Hp. cbn. by rewrite <-app_assoc. }
    assert (Hfinal : ∀ w3, timers (shared w3) = timers (shared w2) →
                           promises (shared w3) = promises (shared w2) →
                           fires t (trace w3) = fires t (trace w2) →
              (∀ t', timer_running (shared w3) t' = false) ∧
              promises (shared w3) !! p = Some (Fulfilled (fillResult partial)) ∧
              fires t (trace w3) = fires t (trace w)).
    { intros w3 Ht3 Hp3 Hf3. split_and!.
      - intros t'. unfold timer_running. rewrite Ht3, Ht2. apply Hr1.
      - rewrite Hp3, Hp2, lookup_partial_alter_eq, Hp1. done.
      - rewrite Hf3, Htr2, fires_app, Hf1. cbn. lia. }
    destruct (bool_decide (gs_currentInstance (shared w2) = Some i)); cbn [when].
    - rewrite exec_then by reflexivity.
      apply Hfinal; [done | done |].
      change (trace (exec (setTimeout RestoreFocus) _))
        with (trace w2 ++ [ESetCurrent None])%list.
      by rewrite fires_app, Nat.add_0_r.
    - rewrite exec_then by reflexivity. by apply Hfinal. }
  unfold close. rewrite exec_get, Hres, exec_get. cbn [mbind option_bind]. rewrite Hpend.
  rewrite exec_get.
  destruct (gs_timeout (shared w)) as [t0|].
  - rewrite exec_then by reflexivity.
    apply Hsettle; cbn; try done. apply (timer_stop_not_running t0 w Hrun).
  - rewrite exec_then by reflexivity. by apply Hsettle.
Qed.

Lemma advance_fires dt t i p n r w :
  armed t i p n r w → r ≤ dt →
  dismissed t p n (exec (advance X dt t) w).
Proof.
  intros (H1 & H2 & H3 & H4 & H5 & H6) Hdt.
  unfold advance. rewrite exec_get, H1. cbn [t_state t_remaining t_callback].
  destruct (Z.leb_spec r dt); [|lia].
  rewrite exec_then by reflexivity. rewrite exec_then by reflexivity.
  set (w1 := exec (emit (ETimerFired t)) _).
  assert (Hrun1 : ∀ t', timer_running (shared w1) t' = false).
  { intros t'. unfold timer_running. subst w1. cbn.
    destruct (decide (t = t')) as [<-|Hne]; [by rewrite lookup_insert_eq|].
    rewrite lookup_insert_ne by done. by apply H3. }
  assert (Hf1 : fires t (trace w1) = S n).
  { subst w1. change (trace (exec _ _)) with (trace w ++ [ETimerFired t])%list.
    rewrite fires_app, H6. cbn. rewrite Pos.eqb_refl. cbn. lia. }
  destruct (close_settles t i p {[ "isDismissed" := VBool true; "dismiss" := VStr "timer" ]}
              w1 H4 H5 Hrun1) as (Hr & Hp & Hf).
  rewrite fill_timer_result in Hp. rewrite Hf1 in Hf.
  unfold run_closure, dismissWith.
  destruct (exec_then_modify
              (close X i {[ "isDismissed" := VBool true; "dismiss" := VStr "timer" ]})
              (set_gs_timeout None) w1) as [-> | ->]; by split_and!.
Qed.

Lemma advance_all_armed dt ts t i p n r w :
  NoDup ts → armed t i p n r w →
  let w' := exec (advance_all X dt ts) w in
  (t ∉ ts → w' = w) ∧
  (t ∈ ts → dt < r → armed t i p n (r - dt) w') ∧
  (t ∈ ts → r ≤ dt → dismissed t p n w').
Proof.
  intros Hnd. revert r w.
  induction Hnd as [|t0 ts Hnotin Hnd IH]; intros r w Harmed; cbn zeta.
  - split_and!; [done | by intros ?%not_elem_of_nil ..].
  - change (exec (advance_all X dt (t0 :: ts)) w)
      with (exec (advance_all X dt ts) (exec (advance X dt t0) w)).
    destruct (decide (t0 = t)) as [->|Hne].
    + split_and!.
      * intros []. by left.
      * intros _ Hdt. pose proof (advance_later dt t i p n r w Harmed Hdt) as H1.
        destruct (IH _ _ H1) as (Hsame & _). by rewrite Hsame.
      * intros _ Hdt. pose proof (advance_fires dt t i p n r w Harmed Hdt) as H1.
        unfold exec at 1. rewrite advance_all_not_running; [done|].
        intros t' _. apply H1.
    + assert (exec (advance X dt t0) w = w) as ->.
      { unfold exec. rewrite advance_not_running; [done|]. by apply Harmed. }
      destruct (IH r w Harmed) as (Ha & Hb & Hc). split_and!.
      * intros Hn. apply Ha. intros Hin. apply Hn. by right.
      * intros [?|Hin]%elem_of_cons; [done|]. by apply Hb.
      * intros [?|Hin]%elem_of_cons; [done|]. by apply Hc.
Qed.

Lemma outcome_run_tasks q w : outcome (run_tasks X q) w = Ok tt.
Proof. revert w. induction q as [|f q IH]; intros w; [done|]. apply IH. Qed.

Lemma outcome_advance_all dt ts w : outcome (advance_all X dt ts) w = Ok tt.
Proof. revert w. induction ts as [|t ts IH]; intros w; [done|]. apply IH. Qed.

Lemma exec_idle dt w :
  let w1 := exec (run_tasks X (tasks (shared w))) (on_shared (set_tasks (λ _, [])) w) in
  exec (idle X dt) w = exec (advance_all X dt (map_to_list (timers (shared w1))).*1) w1
  ∧ outcome (idle X dt) w = Ok tt.
Proof.
  cbn zeta. unfold idle. split.
  - rewrite exec_get, exec_then by reflexivity.
    by rewrite exec_then by apply outcome_run_tasks.
  - unfold outcome, bind at 1, get at 1. cbn [fst snd]. unfold bind at 1, modify at 1.
    cbn [fst snd]. unfold bind at 1.
    pose proof (outcome_run_tasks (tasks (shared w)) (on_shared (set_tasks (λ _, [])) w)) as Ho.
    unfold outcome in Ho.
    destruct (run_tasks X _ _) as [[[]|e] w1]; [|done]. unfold bind at 1, get at 1. cbn [fst snd].
    apply outcome_advance_all.
Qed.

Lemma inert_before_advance t w :
  inert t w (exec (run_tasks X (tasks (shared w))) (on_shared (set_tasks (λ _, [])) w)).
Proof.
  apply (inert_trans t _ (on_shared (set_tasks (λ _, [])) w)); [done|].
  apply inert_run_tasks.
Qed.

Lemma idle_armed dt t i p n r w :
  armed t i p n r w →
  (dt < r → armed t i p n (r - dt) (exec (idle X dt) w)) ∧
  (r ≤ dt → dismissed t p n (exec (idle X dt) w)).
Proof.
  intros Harmed. rewrite (proj1 (exec_idle dt w)).
  set (w1 := exec (run_tasks X _) _).
  assert (armed t i p n r w1) as H1
    by (apply (armed_inert t i p n r w w1); [apply inert_before_advance | done]).
  destruct (advance_all_armed dt (map_to_list (timers (shared w1))).*1 t i p n r w1)
    as (_ & Hb & Hc); [apply NoDup_fst_map_to_list | done |].
  assert (t ∈ (map_to_list (timers (shared w1))).*1) as Hin.
  { apply list_elem_of_fmap. eexists (t, _). split; [done|].
    apply elem_of_map_to_list. apply H1. }
  split; [by apply Hb | by apply Hc].
Qed.

Lemma idle_dismissed dt t p n w :
  dismissed t p n w → dismissed t p n (exec (idle X dt) w).
Proof.
  intros Hd. rewrite (proj1 (exec_idle dt w)).
  set (w1 := exec (run_tasks X _) _).
  assert (dismissed t p n w1) as H1
    by (apply (dismissed_inert t p n w w1); [apply inert_before_advance | done]).
  unfold exec. rewrite advance_all_not_running; [done|]. intros t' _. apply H1.
Qed.

Lemma exec_idle_for dt dts w :
  exec (idle_for X (dt :: dts)) w = exec (idle_for X dts) (exec (idle X dt) w).
Proof. cbn [idle_for]. apply exec_then, exec_idle. Qed.

Lemma idle_for_dismissed dts t p n w :
  dismissed t p n w → dismissed t p n (exec (idle_for X dts) w).
Proof.
  revert w. induction dts as [|dt dts IH]; intros w Hd; [done|].
  rewrite exec_idle_for. by apply IH, idle_dismissed.
Qed.

Lemma elapsed_nonneg dts : Forall (λ dt, 0 ≤ dt) dts → 0 ≤ elapsed dts.
Proof. unfold elapsed. induction 1; cbn; lia. Qed.

Lemma idle_for_armed dts t i p n r w :
  Forall (λ dt, 0 ≤ dt) dts → armed t i p n r w →
  (elapsed dts < r → armed t i p n (r - elapsed dts) (exec (idle_for X dts) w)) ∧
  (r ≤ elapsed dts → dismissed t p n (exec (idle_for X dts) w)).
Proof.
  intros Hdts. revert r w.
  induction Hdts as [|dt dts Hdt Hdts IH]; intros r w Harmed.
  - cbn. split; [intros _; by rewrite Z.sub_0_r | intros Hr].
    destruct Harmed as (_ & Hpos & _). lia.
  - rewrite exec_idle_for. pose proof (elapsed_nonneg dts Hdts) as Hnn.
    change (elapsed (dt :: dts)) with (dt + elapsed dts).
    destruct (idle_armed dt t i p n r w Harmed) as [Hlater Hnow].
    destruct (Z.lt_ge_cases dt r) as [Hlt|Hge].
    + destruct (IH (r - dt) _ (Hlater Hlt)) as [H1 H2]. split.
      * intros H. replace (r - (dt + elapsed dts)) with (r - dt - elapsed dts) by lia.
        apply H1. lia.
      * intros H. apply H2. lia.
    + split; [lia|]. intros _. by apply idle_for_dismissed, Hnow.
Qed.

Lemma exec_newTimer {B} callback delay (k : positive → M Env B) w :
  exec (t <- newTimer callback delay ;; k t) w =
  exec (k (fresh (dom (timers (shared w)))))
    (on_shared (set_timers <[fresh (dom (timers (shared w)))
                             := mkTimer callback (to_ms delay) TRunning]>) w).
Proof. done. Qed.

Lemma setupTimer_arms ip i p d w :
  prop_of (shared w) ip "timer" = VNum d → 0 < d →
  swalPromiseResolve (shared w) !! i = Some p →
  promises (shared w) !! p = Some Pending →
  (∀ t, timer_running (shared w) t = false) →
  let t := fresh (dom (timers (shared w))) in
  armed t i p (fires t (trace w)) d (exec (setupTimer X ip i) w)
  ∧ gs_timeout (shared (exec (setupTimer X ip i) w)) = Some t.
Proof.
  intros Htimer Hd Hres Hpend Hrun t.
  pose (Q := λ w' : World Env,
          armed t i p (fires t (trace w)) d w' ∧ gs_timeout (shared w') = Some t).
  change (Q (exec (setupTimer X ip i) w)).
  unfold setupTimer. rewrite exec_get, exec_then by reflexivity.
  set (w1 := exec (call X (Xhide _)) w).
  assert (inert t w w1) as Hin by apply inert_call.
  assert (heap (shared w1) = heap (shared w)) as Hheap.
  { subst w1. cbn. match goal with |- context [effect X ?c ?s] =>
                     by destruct (HX c s) as (Hh & _) end. }
  unfold getProp at 1. rewrite exec_get.
  assert (prop_of (shared w1) ip "timer" = VNum d) as ->
    by (unfold prop_of in *; by rewrite Hheap).
  assert (truthy (VNum d) = true) as -> by (cbn; destruct (Z.eqb_spec d 0); [lia | done]).
  cbv iota. rewrite exec_newTimer.
  destruct Hin as (Ht & Hp & Hr & Hf). clearbody w1.
  replace (fresh (dom (timers (shared w1)))) with t by (subst t; by rewrite Ht).
  rewrite exec_then by reflexivity.
  set (w2 := exec (modify (set_gs_timeout (Some t))) _).
  assert (Q w2) as [H2 Hg2].
  { split; [|done]. unfold armed, timer_running. subst w2. cbn. rewrite Ht, Hp, Hr.
    rewrite lookup_insert_eq. split_and!; try done.
    intros t' Hne. rewrite lookup_insert_ne by done. apply (Hrun t'). }
  unfold getProp at 1. rewrite exec_get.
  destruct (truthy (prop_of (shared w2) ip "timerProgressBar")); [|by split].
  rewrite exec_then by reflexivity. rewrite exec_then by reflexivity.
  set (w3 := exec (call X (Xshow _)) w2). set (w4 := exec (call X (XapplyCustomClass _ _)) w3).
  assert (inert t w2 w4) as Hin4.
  { apply (inert_trans t _ w3); apply inert_call. }
  split.
  - apply (armed_inert t i p _ d w4); [done|]. by apply (armed_inert t i p _ d w2).
  - cbn. subst w4 w3. cbn.
    repeat match goal with |- context [effect X ?c ?s] =>
             destruct (HX c s) as (_ & _ & _ & _ & ->) end.
    done.
Qed.

End Timing.

Lemma quiet_plain_page : quiet plain_page.
Proof. by intros c s. Qed.

Lemma fires_new_events {Env} t (w w' : World Env) :
  extends (λ _, True) w w' →
  fires t (trace w') = (fires t (trace w) + fires t (new_events w w'))%nat.
Proof.
  intros (evs & Ht & _). rewrite (new_events_app w w' evs Ht), Ht. apply fires_app.
Qed.

(** C3. A positive [timer] in the configuration makes [setupTimer] store
    a Timer in [globalState.timeout] that runs for that many milliseconds
    and whose callback dismisses the instance with the reason "timer".
    With nothing but time passing afterwards, the instance's result is
    pending and the callback has not run as long as less than the
    duration has passed; once the duration has passed, the result is
    settled with isDismissed true and dismiss "timer", the callback has
    run exactly once, and no Timer runs any more, however much more time
    passes. *)
Theorem timer_dismisses_once {Env} (X : Externals Env)
    innerParams instance p d dts (w : World Env) :
  quiet X →
  prop_of (shared w) innerParams "timer" = VNum d → 0 < d →
  swalPromiseResolve (shared w) !! instance = Some p →
  promises (shared w) !! p = Some Pending →
  (∀ t, timer_running (shared w) t = false) →
  Forall (λ dt, 0 ≤ dt) dts →
  let w1 := exec (setupTimer X innerParams instance) w in
  let w' := exec (idle_for X dts) w1 in
  ∃ t, gs_timeout (shared w1) = Some t
     ∧ timers (shared w1) !! t = Some (mkTimer (TimerExpired instance) d TRunning)
     ∧ fires t (new_events w w1) = 0%nat
     ∧ (elapsed dts < d →
          promises (shared w') !! p = Some Pending
          ∧ fires t (new_events w w') = 0%nat)
     ∧ (d ≤ elapsed dts →
          promises (shared w') !! p = Some (Fulfilled timer_result)
          ∧ fires t (new_events w w') = 1%nat
          ∧ ∀ t', timer_running (shared w') t' = false).
Proof.
  intros HX Htimer Hd Hres Hpend Hrun Hdts w1 w'.
  destruct (setupTimer_arms X HX innerParams instance p d w Htimer Hd Hres Hpend Hrun)
    as [Harmed Hg].
  set (t := fresh (dom (timers (shared w)))) in *. fold w1 in Harmed, Hg.
  assert (extends (λ _, True) w w1) as H1
    by apply (always_setupTimer X _ _ (extends_frame X _) (λ _ _, I)).
  assert (extends (λ _, True) w1 w') as H2
    by apply (always_idle_for X _ _ (extends_frame X _) (λ _ _, I) (λ _ _, I)).
  pose proof (fires_new_events t w w1 H1) as F1.
  pose proof (fires_new_events t w w' (extends_trans _ _ _ _ H1 H2)) as F2.
  destruct (idle_for_armed X HX dts t instance p _ d w1 Hdts Harmed) as [Hearly Hlate].
  fold w' in Hearly, Hlate.
  exists t. split_and!; [done | apply Harmed | | |].
  - destruct Harmed as (_ & _ & _ & _ & _ & Hn). lia.
  - intros Hlt. destruct (Hearly Hlt) as (_ & _ & _ & _ & Hp & Hn). split; [done | lia].
  - intros Hge. destruct (Hlate Hge) as (Hno & Hp & Hn). split_and!; [done | lia | done].
Qed.

Lemma timer_dismisses_once_witness :
  let w' := exec (idle_for plain_page [1000; 1000])
              (exec (setupTimer plain_page 4 1) timed_page) in
  promises (shared w') !! 1%positive = Some (Fulfilled timer_result)
  ∧ fires 1 (new_events timed_page w') = 1%nat.
Proof.
  assert (Forall (λ dt, 0 ≤ dt) [1000; 1000]) as Hdts
    by (repeat constructor; lia).
  destruct (timer_dismisses_once plain_page 4 1 1 1500 [1000; 1000] timed_page
              quiet_plain_page eq_refl eq_refl eq_refl eq_refl (λ _, eq_refl) Hdts)
    as (t & Hg & _ & _ & _ & Hlate).
  injection Hg as <-.
  destruct Hlate as (Hp & Hn & _); [vm_compute; discriminate|].
  by split.
Defined.

(** The same through the whole controller: a dialog opened with a timer
    of 1500 ms has a pending result after 1000 ms, and after 2000 ms it
    is dismissed by the timer, whose callback ran once. *)
Example timer_session :
  let w := stock_page [("timer", VNum 1500)] in
  let early := exec (session plain_page [New [VRef 4]; Idle 1000]) w in
  let late := exec (session plain_page [New [VRef 4]; Idle 1000; Idle 1000]) w in
  promises (shared early) !! 1%positive = Some Pending
  ∧ fires 1 (trace early) = 0%nat
  ∧ promises (shared late) !! 1%positive = Some (Fulfilled timer_result)
  ∧ fires 1 (trace late) = 1%nat.
Proof. vm_compute. repeat split; reflexivity. Qed.

(** ** The fields a run writes *)

Create HintDb writes.

Ltac in_fields :=
  first [ assumption
        | by repeat constructor
        | apply elem_of_app; first [ left; in_fields | right; in_fields ] ].

Ltac out_fields :=
  let H := fresh in
  intros H;
  repeat (apply elem_of_app in H as [H|H]; [done|]);
  repeat (apply elem_of_cons in H as [?|H]; [done|]);
  by apply elem_of_nil in H.

Section Footprints.
Context {Env : Type} (X : Externals Env).
Variables E F : list Field.
Hypothesis HE : footprint X E.
Hypothesis HEF : E ⊆ F.
Implicit Types (w : World Env) (s : Shared Env).

Lemma touches_refl G w : touches G w w.
Proof. by intros []. Qed.

Lemma touches_trans G (a b c : World Env) : touches G a b → touches G b c → touches G a c.
Proof.
  intros H1 H2 f Hf. specialize (H1 f Hf). specialize (H2 f Hf).
  destruct f; cbn in *; congruence.
Qed.

Lemma touches_mono G G' w w' : G ⊆ G' → touches G w w' → touches G' w w'.
Proof. intros Hsub H f Hf. apply H. intros Hin. by apply Hf, Hsub. Qed.

Lemma touches_field f G w w' : f ∈ G → (∀ g, g ≠ f → same_at g w w') → touches G w w'.
Proof. intros Hin H g Hg. apply H. by intros ->. Qed.

Lemma writes_bind {A B} (m : M Env A) (k : A → M Env B) :
  always (touches F) m → (∀ a, always (touches F) (k a)) → always (touches F) (bind m k).
Proof.
  intros Hm Hk w. specialize (Hm w). unfold exec, bind in *.
  destruct (m w) as [[a|e] w'] eqn:Hmw; cbn in *; [|done].
  eapply touches_trans; [exact Hm|]. apply Hk.
Qed.

Lemma writes_ret {A} (a : A) : always (touches F) (@ret Env A a).
Proof. intros w. apply touches_refl. Qed.

Lemma writes_throw {A} e : always (touches F) (@throw Env A e).
Proof. intros w. apply touches_refl. Qed.

Lemma writes_get {A} (q : Shared Env → A) : always (touches F) (get q).
Proof. intros w. apply touches_refl. Qed.

Lemma writes_get_currentInstance : always (touches F) (@get_currentInstance Env).
Proof. intros w. apply touches_refl. Qed.

Lemma writes_set_currentInstance c :
  FModuleInstance ∈ F → always (touches F) (@set_currentInstance Env c).
Proof. intros Hin w. apply (touches_field FModuleInstance); [done|]. by intros []. Qed.

Lemma writes_set_promise_ i p :
  FPrivatePromise ∈ F → always (touches F) (@set_promise_ Env i p).
Proof. intros Hin w. apply (touches_field FPrivatePromise); [done|]. by intros []. Qed.

Lemma writes_emit e : always (touches F) (@emit Env e).
Proof. intros w. by intros []. Qed.

Lemma writes_call c : always (touches F) (call X c).
Proof.
  intros w. apply (touches_mono E); [done|].
  apply (touches_trans _ _ (exec (emit (ECall c)) w)); [by intros []|]. apply HE.
Qed.

Lemma writes_attempt (m : M Env unit) : always (touches F) m → always (touches F) (attempt m).
Proof. intros H w. apply H. Qed.

Lemma writes_modify f (g : Shared Env → Shared Env) :
  f ∈ F → (∀ w h, h ≠ f → same_at h w (on_shared g w)) → always (touches F) (modify g).
Proof. intros Hin H w. apply (touches_field f); [done|]. apply H. Qed.

Ltac field f := apply (writes_modify f); [assumption | by intros ? [] ?].

Ltac writes_step :=
  lazymatch goal with
  | |- always _ (ret _) => apply writes_ret
  | |- always _ (throw _) => apply writes_throw
  | |- always _ (get _) => apply writes_get
  | |- always _ (getProp _ _) => apply writes_get
  | |- always _ get_currentInstance => apply writes_get_currentInstance
  | |- always _ (set_currentInstance _) => apply writes_set_currentInstance; assumption
  | |- always _ (set_promise_ _ _) => apply writes_set_promise_; assumption
  | |- always _ (bind _ _) => apply writes_bind; [|intros ?]
  | |- always _ (attempt _) => apply writes_attempt
  | |- always _ (call _ _) => apply writes_call
  | |- always _ (emit _) => apply writes_emit
  | |- always _ (modify (set_heap _)) => field FHeap
  | |- always _ (modify (set_instances _)) => field FInstances
  | |- always _ (modify (set_gs_currentInstance _)) => field FCurrentInstance
  | |- always _ (modify (set_gs_timeout _)) => field FTimeout
  | |- always _ (modify (set_swalPromiseResolve _)) => field FResolve
  | |- always _ (modify (set_swalPromiseReject _)) => field FReject
  | |- always _ (modify (set_pp_innerParams _)) => field FInnerParams
  | |- always _ (modify (set_pp_domCache _)) => field FDomCache
  | |- always _ (modify (set_promises _)) => field FPromises
  | |- always _ (modify (set_timers _)) => field FTimers
  | |- always _ (modify (set_tasks _)) => field FTasks
  | |- always _ (when ?b _) => destruct b; cbn [when]
  | |- always _ (if ?b then _ else _) => destruct b
  | |- always _ (match ?x with _ => _ end) => destruct x
  | |- always _ _ => solve [auto with writes]
  end.

Ltac writes := repeat writes_step.

(** Calls only *)

Lemma writes_callIfFunction v : always (touches F) (callIfFunction X v).
Proof. unfold callIfFunction. writes. Qed.

Lemma writes_requireKey i : always (touches F) (@requireKey Env i).
Proof. unfold requireKey. writes. Qed.

Lemma writes_focus e : always (touches F) (focus X e).
Proof. unfold focus. writes. Qed.

Lemma writes_setOnclick e f : always (touches F) (setOnclick X e f).
Proof. unfold setOnclick. writes. Qed.
Local Hint Resolve writes_callIfFunction writes_requireKey writes_focus writes_setOnclick
  : writes.

Lemma writes_blurActiveElement : always (touches F) (blurActiveElement X).
Proof. unfold blurActiveElement. writes. Qed.

Lemma writes_focusAutofocus_loop es : always (touches F) (focusAutofocus_loop X es).
Proof. induction es as [|e es IH]; cbn [focusAutofocus_loop]; writes. Qed.
Local Hint Resolve writes_blurActiveElement writes_focusAutofocus_loop : writes.

Lemma writes_focusAutofocus dc : always (touches F) (focusAutofocus X dc).
Proof. unfold focusAutofocus. writes. Qed.

Lemma writes_focusButton dc l : always (touches F) (focusButton X dc l).
Proof. unfold focusButton. writes. Qed.

Lemma writes_setFocus a b : always (touches F) (setFocus X a b).
Proof. unfold setFocus. writes. Qed.
Local Hint Resolve writes_focusAutofocus writes_focusButton writes_setFocus : writes.

Lemma writes_initFocus dc l : always (touches F) (initFocus X dc l).
Proof. unfold initFocus. writes. Qed.
Local Hint Resolve writes_initFocus : writes.

(** The heap *)

Section Heap.
Hypothesis Hheap : FHeap ∈ F.

Lemma writes_alloc p : always (touches F) (@alloc Env p).
Proof. unfold alloc. writes. Qed.

Lemma writes_setProp l k v : always (touches F) (@setProp Env l k v).
Proof. unfold setProp. writes. Qed.

Lemma writes_freeze l : always (touches F) (@freeze Env l).
Proof. unfold freeze. writes. Qed.
Local Hint Resolve writes_alloc writes_setProp writes_freeze : writes.

Lemma writes_prepareParams u m : always (touches F) (prepareParams X u m).
Proof. unfold prepareParams. writes. Qed.
End Heap.

(** The timer *)

Section Timer.
Hypothesis Htimers : FTimers ∈ F.
Hypothesis Htimeout : FTimeout ∈ F.
Hypothesis Htasks : FTasks ∈ F.

Lemma writes_newTimer f d : always (touches F) (@newTimer Env f d).
Proof. unfold newTimer. writes. Qed.

Lemma writes_timer_stop t : always (touches F) (@timer_stop Env t).
Proof. unfold timer_stop. writes. Qed.

Lemma writes_setTimeout f : always (touches F) (@setTimeout Env f).
Proof. unfold setTimeout. writes. Qed.
Local Hint Resolve writes_newTimer writes_timer_stop writes_setTimeout : writes.

Lemma writes_setupTimer l i : always (touches F) (setupTimer X l i).
Proof. unfold setupTimer. writes. Qed.
Local Hint Resolve writes_setupTimer : writes.

Lemma writes_opening i dc l :
  always (touches F)
    (setOnclick X (dc_confirmButton dc) (OnConfirmClick i) ;;
     setOnclick X (dc_denyButton dc) (OnDenyClick i) ;;
     setOnclick X (dc_cancelButton dc) (OnCancelClick i) ;;
     setOnclick X (dc_closeButton dc) (OnCloseClick i) ;;
     call X (XhandlePopupClick l dc (DismissWith i)) ;;
     call X (XaddKeydownHandler l (DismissWith i)) ;;
     call X (XhandleInputOptionsAndValue i l) ;;
     call X (XopenPopup l) ;;
     setupTimer X l i ;;
     initFocus X dc l ;;
     setTimeout (ScrollTop (dc_container dc))).
Proof. writes. Qed.
End Timer.

(** The whole of [_main] *)

Section Whole.
Hypothesis Hheap : FHeap ∈ F.
Hypothesis Hcurrent : FCurrentInstance ∈ F.
Hypothesis Htimeout : FTimeout ∈ F.
Hypothesis Hresolve : FResolve ∈ F.
Hypothesis Hreject : FReject ∈ F.
Hypothesis HinnerParams : FInnerParams ∈ F.
Hypothesis HdomCache : FDomCache ∈ F.
Hypothesis Hpromises : FPromises ∈ F.
Hypothesis Htimers : FTimers ∈ F.
Hypothesis Htasks : FTasks ∈ F.

Local Hint Resolve writes_prepareParams writes_freeze writes_setupTimer writes_timer_stop
  writes_setTimeout : writes.

Lemma writes_callResolve f v : always (touches F) (@callResolve Env f v).
Proof. unfold callResolve. writes. Qed.

Lemma writes_populateDomCache i : always (touches F) (populateDomCache X i).
Proof. unfold populateDomCache. writes. Qed.

Lemma writes_newPromise (executor : positive → M Env unit) :
  (∀ p, always (touches F) (executor p)) → always (touches F) (newPromise executor).
Proof.
  intros H. unfold newPromise. writes.
  intros w. unfold exec. specialize (H (fresh (dom a)) w). unfold exec in H.
  destruct (executor _ w) as [[[]|e] w']; cbn in *; [done|].
  eapply touches_trans; [exact H|].
  apply (touches_field FPromises); [done|]. by intros [].
Qed.

Lemma writes_swalPromise i dc l : always (touches F) (swalPromise X i dc l).
Proof. unfold swalPromise. apply writes_newPromise. intros p. writes. Qed.
Local Hint Resolve writes_callResolve writes_populateDomCache writes_swalPromise : writes.

Lemma writes_main u m : always (touches F) (_main X u m).
Proof. unfold _main. writes. Qed.

End Whole.

End Footprints.

(** ** The result promise *)

Section Promise.
Context {Env : Type} (X : Externals Env).
Implicit Types (w : World Env) (s : Shared Env).

Lemma wp_newPromise (executor : positive → M Env unit) (Q : Res positive → World Env → Prop) w :
  (let p := fresh (dom (promises (shared w))) in
   wp (executor p)
      (λ r w', match r with
               | Ok _ => Q (Ok p) w'
               | Throw e =>
                   Q (Ok p) (on_shared (set_promises (partial_alter (settle (Rejected e)) p)) w')
               end)
      (on_shared (set_promises <[p := Pending]>) w)) →
  wp (newPromise executor) Q w.
Proof.
  cbn zeta. unfold wp, outcome, exec, newPromise, bind, get, modify. cbn.
  by destruct (executor _ _) as [[[]|e] w'].
Qed.

(** What the executor of [swalPromise] does once the resolve and reject
    functions are registered. *)
Lemma swalPromise_executor i dc l :
  swalPromise X (Some i) dc l =
  newPromise (λ resolve,
    modify (set_swalPromiseResolve <[i := resolve]>) ;;
    modify (set_swalPromiseReject <[i := resolve]>) ;;
    setOnclick X (dc_confirmButton dc) (OnConfirmClick i) ;;
    setOnclick X (dc_denyButton dc) (OnDenyClick i) ;;
    setOnclick X (dc_cancelButton dc) (OnCancelClick i) ;;
    setOnclick X (dc_closeButton dc) (OnCloseClick i) ;;
    call X (XhandlePopupClick l dc (DismissWith i)) ;;
    call X (XaddKeydownHandler l (DismissWith i)) ;;
    call X (XhandleInputOptionsAndValue i l) ;;
    call X (XopenPopup l) ;;
    setupTimer X l i ;;
    initFocus X dc l ;;
    setTimeout (ScrollTop (dc_container dc))).
Proof. reflexivity. Qed.

Lemma swalPromise_spec E i dc l w :
  footprint X E → FPromises ∉ E → FResolve ∉ E → FReject ∉ E →
  wp (swalPromise X (Some i) dc l) (λ r w', ∃ p,
    r = Ok p ∧
    promises (shared w) !! p = None ∧
    swalPromiseResolve (shared w') = <[i := p]> (swalPromiseResolve (shared w)) ∧
    swalPromiseReject (shared w') = <[i := p]> (swalPromiseReject (shared w)) ∧
    (promises (shared w') !! p = Some Pending ∨
     ∃ e, promises (shared w') !! p = Some (Rejected e)) ∧
    (∀ q, q ≠ p → promises (shared w') !! q = promises (shared w) !! q) ∧
    touches (E ++ [FResolve; FReject; FPromises; FTimeout; FTimers; FTasks])%list w w') w.
Proof.
  intros HE HP HR HJ. rewrite swalPromise_executor. apply wp_newPromise. cbn zeta.
  set (p := fresh (dom (promises (shared w)))).
  assert (Hp : promises (shared w) !! p = None) by apply not_elem_of_dom, is_fresh.
  apply wp_bind, wp_modify, wp_bind, wp_modify.
  set (w2 := on_shared _ (on_shared _ (on_shared _ w))).
  set (F := (E ++ [FTimeout; FTimers; FTasks])%list).
  pose proof (writes_opening X E F HE ltac:(intros f Hf; apply elem_of_app; by left)
                ltac:(in_fields) ltac:(in_fields) ltac:(in_fields) i dc l w2) as Ht.
  unfold wp.
  match type of Ht with touches _ _ (exec ?m _) => set (body := m) in * end.
  pose proof (Ht FPromises ltac:(out_fields)) as Hpr.
  pose proof (Ht FResolve ltac:(out_fields)) as Hre.
  pose proof (Ht FReject ltac:(out_fields)) as Hrj.
  cbn in Hpr, Hre, Hrj.
  assert (Hfin : touches (E ++ [FResolve; FReject; FPromises; FTimeout; FTimers; FTasks])%list
                   w (exec body w2)).
  { apply (touches_trans _ _ w2).
    - intros f Hf. destruct f; try done; exfalso; apply Hf; in_fields.
    - apply (touches_mono F); [|done]. intros f [Hf|Hf]%elem_of_app; [in_fields|].
      repeat (apply elem_of_cons in Hf as [->|Hf]; [in_fields|]). by apply elem_of_nil in Hf. }
  destruct (outcome body w2) as [[]|e]; exists p.
  - split_and!; try done.
    + left. by rewrite Hpr, lookup_insert_eq.
    + intros q Hq. by rewrite Hpr, lookup_insert_ne.
  - split_and!; try done.
    + right. exists e. cbn. rewrite lookup_partial_alter_eq, Hpr, lookup_insert_eq. done.
    + intros q Hq. cbn. rewrite lookup_partial_alter_ne by done.
      by rewrite Hpr, lookup_insert_ne.
    + intros f Hf. specialize (Hfin f Hf).
      destruct f; try done. exfalso. apply Hf. in_fields.
Qed.

End Promise.

(** ** The Timer a dialog arms *)

Section Arming.
Context {Env : Type} (X : Externals Env).
Variable E : list Field.
Hypothesis HE : footprint X E.
Hypothesis HTimers : FTimers ∉ E.
Hypothesis HTimeout : FTimeout ∉ E.
Implicit Types (w : World Env) (s : Shared Env).

Lemma passive_effect c s : passive X → effect X c s = with_env (env (effect X c s)) s.
Proof.
  intros HX. specialize (HX c (mkWorld s None ∅ [])).
  assert (H : ∀ f, f ≠ FEnv → same_at f (mkWorld s None ∅ [])
                                 (on_shared (effect X c) (mkWorld s None ∅ []))).
  { intros f Hf. apply HX. by intros ->%list_elem_of_singleton. }
  pose proof (H FHeap ltac:(done)). pose proof (H FInstances ltac:(done)).
  pose proof (H FCurrentInstance ltac:(done)). pose proof (H FTimeout ltac:(done)).
  pose proof (H FResolve ltac:(done)). pose proof (H FReject ltac:(done)).
  pose proof (H FInnerParams ltac:(done)). pose proof (H FDomCache ltac:(done)).
  pose proof (H FPromises ltac:(done)). pose proof (H FTimers ltac:(done)).
  pose proof (H FTasks ltac:(done)).
  clear H HX. unfold on_shared in *. cbn in *.
  destruct (effect X c s), s. cbn in *. by subst.
Qed.

Lemma always_seq {A B} (R1 R2 R : World Env → World Env → Prop)
    (m : M Env A) (k : A → M Env B) :
  always R1 m → (∀ a, always R2 (k a)) →
  (∀ a b, R1 a b → R a b) → (∀ a b c, R1 a b → R2 b c → R a c) →
  always R (bind m k).
Proof.
  intros Hm Hk Hsub Hcomp w. specialize (Hm w). unfold exec, bind in *.
  destruct (m w) as [[a|e] w'] eqn:Hmw; cbn in *; [|by apply Hsub].
  eapply Hcomp; [exact Hm|]. apply Hk.
Qed.

(** The Timers and [globalState.timeout] are not among the fields [F]. *)
Lemma still_arms F w w' : FTimers ∉ F → FTimeout ∉ F → touches F w w' → arms w w'.
Proof. intros H1 H2 H. left. split; [apply (H FTimers H1) | apply (H FTimeout H2)]. Qed.

Lemma still_then_arms F (a b c : World Env) :
  FTimers ∉ F → FTimeout ∉ F → touches F a b → arms b c → arms a c.
Proof.
  intros H1 H2 H. pose proof (H FTimers H1) as Ht. pose proof (H FTimeout H2) as Hg.
  cbn in Ht, Hg. intros [[H3 H4]|(t & tm & H3 & H4 & H5 & H6)].
  - left. split; congruence.
  - right. exists t, tm. rewrite <-Ht. by split_and!.
Qed.

Lemma arms_then_still F (a b c : World Env) :
  FTimers ∉ F → FTimeout ∉ F → arms a b → touches F b c → arms a c.
Proof.
  intros H1 H2 Hab H. pose proof (H FTimers H1) as Ht. pose proof (H FTimeout H2) as Hg.
  cbn in Ht, Hg. destruct Hab as [[H3 H4]|(t & tm & H3 & H4 & H5 & H6)].
  - left. split; congruence.
  - right. exists t, tm. rewrite Ht, Hg. by split_and!.
Qed.

Lemma not_in_tasks : (FTimers ∉ (E ++ [FTasks])%list) ∧ (FTimeout ∉ (E ++ [FTasks])%list).
Proof. split; out_fields. Qed.

Lemma always_arms_setupTimer l i : always arms (setupTimer X l i).
Proof.
  intros w. unfold setupTimer. rewrite exec_get, exec_then by reflexivity.
  set (w1 := exec (call X (Xhide _)) w).
  assert (H1 : touches E w w1) by apply (writes_call X E E HE (λ _ H, H)).
  unfold getProp at 1. rewrite exec_get.
  destruct (truthy (prop_of (shared w1) l "timer")); [|by apply (still_arms E)].
  rewrite exec_newTimer, exec_then by reflexivity.
  set (t := fresh (dom (timers (shared w1)))).
  match goal with |- arms _ (exec ?m ?w0) => set (w2 := w0); set (rest := m) end.
  assert (H2 : arms w1 w2).
  { right. exists t, (mkTimer (TimerExpired i) (to_ms (prop_of (shared w1) l "timer")) TRunning).
    split_and!; try done. apply not_elem_of_dom, is_fresh. }
  assert (H3 : always (touches (E ++ [FTasks])%list) rest).
  { subst rest. unfold getProp.
    pose proof (writes_call X E (E ++ [FTasks])%list HE
                  ltac:(intros f Hf; apply elem_of_app; by left)) as Hcall.
    apply writes_bind; [apply writes_get|]. intros bar.
    destruct (truthy bar); [|apply writes_ret].
    apply writes_bind; [apply Hcall|]. intros _.
    apply writes_bind; [apply Hcall|]. intros _.
    unfold setTimeout. apply (writes_modify _ FTasks); [in_fields | by intros ? [] ?]. }
  destruct not_in_tasks as [N1 N2].
  apply (still_then_arms E _ w1); [done..|].
  by apply (arms_then_still (E ++ [FTasks])%list _ w2).
Qed.

Lemma always_arms_opening i dc l :
  always arms
    (setOnclick X (dc_confirmButton dc) (OnConfirmClick i) ;;
     setOnclick X (dc_denyButton dc) (OnDenyClick i) ;;
     setOnclick X (dc_cancelButton dc) (OnCancelClick i) ;;
     setOnclick X (dc_closeButton dc) (OnCloseClick i) ;;
     call X (XhandlePopupClick l dc (DismissWith i)) ;;
     call X (XaddKeydownHandler l (DismissWith i)) ;;
     call X (XhandleInputOptionsAndValue i l) ;;
     call X (XopenPopup l) ;;
     setupTimer X l i ;;
     initFocus X dc l ;;
     setTimeout (ScrollTop (dc_container dc))).
Proof.
  destruct not_in_tasks as [N1 N2].
  repeat (apply (always_seq (touches E) arms arms);
          [ first [ apply (writes_setOnclick X E E HE (λ _ H, H))
                  | apply (writes_call X E E HE (λ _ H, H)) ]
          | intros _
          | intros a b; by apply (still_arms E)
          | intros a b c; by apply (still_then_arms E) ]).
  apply (always_seq arms (touches (E ++ [FTasks])%list) arms).
  - apply always_arms_setupTimer.
  - intros _. apply writes_bind.
    + apply (writes_initFocus X E); [done|]. intros f Hf. apply elem_of_app. by left.
    + intros _. unfold setTimeout. apply (writes_modify _ FTasks); [in_fields | by intros ? [] ?].
  - done.
  - intros a b c. by apply arms_then_still.
Qed.

Lemma always_arms_swalPromise instance dc l : always arms (swalPromise X instance dc l).
Proof.
  intros w. destruct instance as [i|].
  - rewrite swalPromise_executor.
    pose proof (always_arms_opening i dc l
                  (on_shared (set_swalPromiseReject <[i := fresh (dom (promises (shared w)))]>)
                     (on_shared (set_swalPromiseResolve <[i := fresh (dom (promises (shared w)))]>)
                        (on_shared (set_promises <[fresh (dom (promises (shared w))) := Pending]>)
                           w)))) as H.
    unfold exec in *. unfold newPromise, bind at 1 2, get, modify. cbn [fst snd].
    unfold bind at 1 2. cbn [fst snd].
    match goal with |- context [match ?m ?w0 with _ => _ end] =>
      match type of H with arms _ (?m' ?w0').2 => change (m w0) with (m' w0') end end.
    match type of H with arms _ (?m' ?w0').2 => destruct (m' w0') as [[[]|e] w'] end;
      exact H.
  - by left.
Qed.

End Arming.

(** ** What an open wires up *)

Section Wiring.
Context {Env : Type} (X : Externals Env).
Hypothesis HX : passive X.
Implicit Types (w : World Env) (s : Shared Env).

Lemma wp_conseq {A} (m : M Env A) (Q Q' : Res A → World Env → Prop) w :
  wp m Q w → (∀ r w', Q r w' → Q' r w') → wp m Q' w.
Proof. intros H HQ. by apply HQ. Qed.

Ltac tidy :=
  unfold on_shared, with_env, set_heap, set_instances, set_gs_currentInstance,
    set_gs_timeout, set_swalPromiseResolve, set_swalPromiseReject, set_pp_innerParams,
    set_pp_domCache, set_promises, set_timers, set_tasks;
  cbn [shared currentInstance promise_ trace exec emit snd fst
       heap instances gs_currentInstance gs_timeout swalPromiseResolve swalPromiseReject
       pp_innerParams pp_domCache promises timers tasks env].

Ltac passive_call :=
  apply wp_call; unfold on_shared at 1;
  rewrite (passive_effect X _ _ HX);
  match goal with |- context [with_env ?e _] => generalize e; intros ? end;
  tidy.

Lemma main_after_install_spec u m i w :
  wp (main_after_install X u m (Some i)) (λ r w', ∃ p ip dc P,
    r = Ok p ∧
    heap (shared w) !! ip = None ∧
    heap (shared w') !! ip = Some (mkObj P true) ∧
    (∀ k, k ≠ "showClass" → k ≠ "hideClass" → P !! k = merged_params X u m w !! k) ∧
    heap (shared w) ⊆ heap (shared w') ∧
    pp_innerParams (shared w') = <[i := ip]> (pp_innerParams (shared w)) ∧
    pp_domCache (shared w') = <[i := dc]> (pp_domCache (shared w)) ∧
    swalPromiseResolve (shared w') = <[i := p]> (swalPromiseResolve (shared w)) ∧
    swalPromiseReject (shared w') = <[i := p]> (swalPromiseReject (shared w)) ∧
    promises (shared w) !! p = None ∧
    (promises (shared w') !! p = Some Pending ∨
     ∃ e, promises (shared w') !! p = Some (Rejected e)) ∧
    (∀ q, q ≠ p → promises (shared w') !! q = promises (shared w) !! q) ∧
    instances (shared w') = instances (shared w) ∧
    gs_currentInstance (shared w') = gs_currentInstance (shared w) ∧
    rearms w w' ∧
    currentInstance w' = currentInstance w ∧ promise_ w' = promise_ w) w.
Proof.
  unfold main_after_install.
  pose proof (prepareParams_spec X u m w) as Hspec.
  pose proof (prepareParams_run X u m w) as Hrun. unfold wp in Hspec, Hrun.
  apply wp_bind. unfold wp at 1.
  destruct Hspec as (ip' & P' & _ & _ & _ & _ & Hr' & _ & HP' & Hmerge & _).
  destruct Hrun as (ip & sc & hc & P & S & H & Hr & Hw1 & Hsub & (Hip & _) & _ & HP & _).
  rewrite Hr in Hr'. injection Hr' as <-. rewrite HP in HP'. injection HP' as <-.
  rewrite Hr. clear Hr. revert Hw1 Hsub HP.
  generalize (exec (prepareParams X u m) w). intros w1.
  generalize (heap (shared w1)). intros h1 -> Hsub HP.
  apply wp_bind. passive_call.
  apply wp_bind. unfold freeze. apply wp_modify. tidy. rewrite HP. cbn [obj_props].
  apply wp_bind, wp_get. tidy.
  set (h3 := <[ip := mkObj P true]> h1).
  assert (Hsub3 : heap (shared w) ⊆ h3) by (by apply insert_subseteq_r).
  assert (Hip3 : h3 !! ip = Some (mkObj P true)) by apply lookup_insert_eq.
  clearbody h3. clear HP Hsub h1.
  apply wp_bind.
  match goal with |- wp _ ?Q0 _ => set (Q := Q0) end.
  assert (Hrest : ∀ e0 tr,
    Q (Ok tt)
      {| shared :=
           {| heap := h3; instances := instances (shared w);
              gs_currentInstance := gs_currentInstance (shared w);
              gs_timeout := None;
              swalPromiseResolve := swalPromiseResolve (shared w);
              swalPromiseReject := swalPromiseReject (shared w);
              pp_innerParams := pp_innerParams (shared w);
              pp_domCache := pp_domCache (shared w);
              promises := promises (shared w);
              timers := timeout_stopped (shared w);
              tasks := tasks (shared w); env := e0 |};
         currentInstance := currentInstance w; promise_ := promise_ w; trace := tr |}).
  { intros e0 tr. subst Q. cbv beta iota.
    apply wp_bind. passive_call.
    unfold populateDomCache.
    apply wp_bind, wp_bind, wp_get, wp_bind, wp_ret, wp_bind, wp_modify, wp_ret.
    apply wp_bind, wp_ret, wp_bind. passive_call.
    apply wp_bind, wp_emit, wp_bind, wp_modify. tidy.
    match goal with |- wp (swalPromise _ _ ?d _) _ ?w0 => set (w9 := w0); set (dc := d) in * end.
    pose proof (swalPromise_spec X [FEnv] i dc ip w9 HX
                  ltac:(out_fields) ltac:(out_fields) ltac:(out_fields)) as Hsp.
    pose proof (always_arms_swalPromise X [FEnv] HX ltac:(out_fields) ltac:(out_fields)
                  (Some i) dc ip w9) as Harms.
    unfold wp in *.
    destruct Hsp as (p & Hrp & Hfresh & Hres & Hrej & Hstate & Hothers & Htouch).
    exists p, ip, dc, P.
    assert (Hout : ∀ f, f ≠ FEnv → f ≠ FResolve → f ≠ FReject → f ≠ FPromises →
                    f ≠ FTimeout → f ≠ FTimers → f ≠ FTasks →
                    same_at f w9 (exec (swalPromise X (Some i) dc ip) w9)).
    { intros f ? ? ? ? ? ? ?. apply Htouch. out_fields. }
    pose proof (Hout FHeap) as Hh. pose proof (Hout FInstances) as Hi.
    pose proof (Hout FCurrentInstance) as Hc. pose proof (Hout FInnerParams) as Hpi.
    pose proof (Hout FDomCache) as Hpd. pose proof (Hout FModuleInstance) as Hmi.
    pose proof (Hout FPrivatePromise) as Hpp. cbn in Hh, Hi, Hc, Hpi, Hpd, Hmi, Hpp.
    rewrite Hh, Hi, Hc, Hpi, Hpd, Hmi, Hpp, Hres, Hrej by done.
    split_and!; try done.
    destruct Harms as [[Ht Hg]|(t & tm & Hnew & Hrun & Ht & Hg)]; [by left|].
    right. exists t, tm. split_and!; try done.
    cbn in Hnew. unfold timeout_stopped in Hnew.
    destruct (gs_timeout (shared w)); [|done]. by apply lookup_alter_None in Hnew. }
  unfold timeout_stopped in Hrest.
  destruct (gs_timeout (shared w)) as [t0|].
  - unfold timer_stop. apply wp_bind, wp_modify, wp_modify. tidy. apply Hrest.
  - apply wp_ret. apply Hrest.
Qed.
Lemma main_spec u m i w :
  currentInstance w = Some i → evicts_cleanly (shared w) →
  wp (_main X u m) (λ r w', ∃ p ip dc P,
    r = Ok p ∧
    heap (shared w) !! ip = None ∧
    heap (shared w') !! ip = Some (mkObj P true) ∧
    (∀ k v, k ≠ "showClass" → k ≠ "hideClass" →
            own_props (heap (shared w)) u !! k = Some v → P !! k = Some v) ∧
    heap (shared w) ⊆ heap (shared w') ∧
    pp_innerParams (shared w') = <[i := ip]> (pp_innerParams (shared w)) ∧
    pp_domCache (shared w') = <[i := dc]> (pp_domCache (shared w)) ∧
    swalPromiseResolve (shared w') = <[i := p]> (swalPromiseResolve (shared w)) ∧
    swalPromiseReject (shared w') = <[i := p]> (swalPromiseReject (shared w)) ∧
    after_eviction (shared w) !! p = None ∧
    (promises (shared w') !! p = Some Pending ∨
     ∃ e, promises (shared w') !! p = Some (Rejected e)) ∧
    (∀ q, q ≠ p → promises (shared w') !! q = after_eviction (shared w) !! q) ∧
    instances (shared w') = instances (shared w) ∧
    gs_currentInstance (shared w') = Some i ∧
    rearms w w' ∧
    currentInstance w' = currentInstance w ∧ promise_ w' = promise_ w) w.
Proof.
  intros Hi Hclean. unfold _main.
  apply wp_bind, wp_get, wp_bind. passive_call. apply wp_bind, wp_get. tidy.
  apply wp_bind.
  match goal with |- wp _ ?Q0 _ => set (Q := Q0) end.
  assert (Hrest : ∀ e0 tr,
    Q (Ok tt)
      {| shared :=
           {| heap := heap (shared w); instances := instances (shared w);
              gs_currentInstance := gs_currentInstance (shared w);
              gs_timeout := gs_timeout (shared w);
              swalPromiseResolve := swalPromiseResolve (shared w);
              swalPromiseReject := swalPromiseReject (shared w);
              pp_innerParams := pp_innerParams (shared w);
              pp_domCache := pp_domCache (shared w);
              promises := after_eviction (shared w);
              timers := timers (shared w);
              tasks := tasks (shared w); env := e0 |};
         currentInstance := currentInstance w; promise_ := promise_ w; trace := tr |}).
  { intros e0 tr. subst Q. cbv beta iota.
    apply wp_bind, wp_get_currentInstance. tidy. rewrite Hi.
    apply wp_bind, wp_emit, wp_bind, wp_modify. tidy.
    match goal with |- wp ?prog _ ?w0 =>
      change prog with (main_after_install X u m (Some i));
      pose proof (main_after_install_spec u m i w0) as Hm
    end.
    unfold wp in *.
    destruct Hm as (p & ip & dc & P & H1 & H2 & H3 & H4 & H5 & H6 & H7 & H8 & H9 & H10 &
                    H11 & H12 & H13 & H14 & H15 & H16 & H17).
    exists p, ip, dc, P. split_and!; try done.
    intros k v Hs Hh Hk. rewrite (H4 k Hs Hh), merged_params_lookup. cbn. by rewrite Hk. }
  unfold evicts_cleanly, after_eviction in *.
  destruct (gs_currentInstance (shared w)) as [old|]; [|apply wp_ret, Hrest].
  apply wp_bind, wp_get, wp_bind, wp_get, wp_bind. passive_call.
  change (awaiting _ old) with (awaiting (shared w) old).
  assert (Hmodal : ∀ w0,
    (∀ e0 tr, Q (Ok tt) (mkWorld (with_env e0 (shared w0)) (currentInstance w0)
                            (promise_ w0) tr)) →
    wp (modal <- get (isModal X) ;; when modal (call X XunsetAriaHidden)) Q w0).
  { intros w0 H0. apply wp_bind, wp_get. destruct (isModal X (shared w0)); cbn [when].
    - passive_call. apply (H0 _ _).
    - apply wp_ret. specialize (H0 (env (shared w0)) (trace w0)).
      by destruct w0 as [[]]. }
  destruct (awaiting (shared w) old) eqn:Ha; cbn [negb]; cbv iota.
  - apply wp_bind, wp_ret. apply Hmodal. intros e1 tr. apply Hrest.
  - destruct Hclean as [?|[r Hr]]; [done|]. rewrite Hr in Hrest |- *.
    unfold callResolve. apply wp_bind, wp_bind, wp_emit, wp_modify. tidy.
    apply Hmodal. intros e1 tr. apply Hrest.
Qed.

Lemma awaiting_new_instance s s' this old o :
  instances s !! this = None →
  instances s' = alter (λ o, mkInstance (params o) (Some false)) this
                   (alter (λ o', mkInstance (Some o) (isAwaitingPromise o')) this
                      (<[this := mkInstance None None]> (instances s))) →
  awaiting s' old = awaiting s old.
Proof.
  intros Hnew Hs'. unfold awaiting. rewrite Hs'. destruct (decide (old = this)) as [->|Hne].
  - rewrite lookup_alter_eq, lookup_alter_eq, lookup_insert_eq, Hnew. done.
  - by rewrite !lookup_alter_ne, lookup_insert_ne.
Qed.

Lemma wp_set_currentInstance c (Q : Res unit → World Env → Prop) w :
  Q (Ok tt) (mkWorld (shared w) c (promise_ w) (trace w)) → wp (set_currentInstance c) Q w.
Proof. done. Qed.

Lemma wp_set_promise_ i p (Q : Res unit → World Env → Prop) w :
  Q (Ok tt) (mkWorld (shared w) (currentInstance w) (<[i := p]> (promise_ w)) (trace w)) →
  wp (set_promise_ i p) Q w.
Proof. done. Qed.

Lemma new_SweetAlert_spec args w :
  window_defined X = true → evicts_cleanly (shared w) →
  wp (new_SweetAlert X args) (λ r w', ∃ this p outerParams innerParams dc P,
    r = Ok this ∧
    instances (shared w) !! this = None ∧
    instances (shared w') =
      <[this := mkInstance (Some outerParams) (Some false)]> (instances (shared w)) ∧
    heap (shared w) !! outerParams = None ∧
    heap (shared w') !! outerParams
      = Some (mkObj (argsToParams X (shared (exec new_instance w)) args) true) ∧
    heap (shared w) !! innerParams = None ∧
    outerParams ≠ innerParams ∧
    heap (shared w') !! innerParams = Some (mkObj P true) ∧
    (∀ k v, k ≠ "showClass" → k ≠ "hideClass" →
            argsToParams X (shared (exec new_instance w)) args !! k = Some v →
            P !! k = Some v) ∧
    heap (shared w) ⊆ heap (shared w') ∧
    pp_innerParams (shared w') = <[this := innerParams]> (pp_innerParams (shared w)) ∧
    pp_domCache (shared w') = <[this := dc]> (pp_domCache (shared w)) ∧
    swalPromiseResolve (shared w') = <[this := p]> (swalPromiseResolve (shared w)) ∧
    swalPromiseReject (shared w') = <[this := p]> (swalPromiseReject (shared w)) ∧
    after_eviction (shared w) !! p = None ∧
    (promises (shared w') !! p = Some Pending ∨
     ∃ e, promises (shared w') !! p = Some (Rejected e)) ∧
    (∀ q, q ≠ p → promises (shared w') !! q = after_eviction (shared w) !! q) ∧
    gs_currentInstance (shared w') = Some this ∧
    rearms w w' ∧
    currentInstance w' = Some this ∧
    promise_ w' = <[this := p]> (promise_ w)) w.
Proof.
  intros Hwin Hclean. unfold new_SweetAlert, new_instance, constructor. rewrite Hwin.
  cbn [negb].
  apply wp_bind, wp_bind, wp_get, wp_bind, wp_modify, wp_ret.
  set (this := fresh (dom (instances (shared w)))).
  assert (Hthis : instances (shared w) !! this = None) by apply not_elem_of_dom, is_fresh.
  apply wp_bind, wp_bind, wp_set_currentInstance. tidy.
  apply wp_bind, wp_get. tidy.
  set (outer := argsToParams X _ args).
  apply wp_bind, wp_alloc. intros op Hop. tidy. cbn [shared heap] in Hop.
  apply wp_bind. unfold freeze. apply wp_modify. tidy. rewrite lookup_insert_eq.
  cbn [obj_props]. rewrite insert_insert_eq.
  unfold set_params. apply wp_bind, wp_bind, wp_emit, wp_modify. tidy.
  unfold set_isAwaitingPromise. apply wp_bind, wp_modify. tidy.
  apply wp_bind, wp_get_currentInstance. tidy. apply wp_bind, wp_get. tidy.
  unfold params_of. tidy. rewrite !lookup_alter_eq, lookup_insert_eq.
  cbn [fmap option_fmap option_map params from_option].
  apply wp_bind.
  match goal with |- wp _ _ ?w0' => set (w0 := w0') end.
  assert (Hinst : instances (shared w0)
                  = <[this := mkInstance (Some op) (Some false)]> (instances (shared w))).
  { subst w0. cbn. apply map_eq. intros j. destruct (decide (j = this)) as [->|Hne].
    - by rewrite !lookup_alter_eq, !lookup_insert_eq.
    - by rewrite !lookup_alter_ne, !lookup_insert_ne. }
  assert (Haw : ∀ old, awaiting (shared w0) old = awaiting (shared w) old).
  { intros old. by apply (awaiting_new_instance _ _ this old op). }
  assert (Hclean0 : evicts_cleanly (shared w0)).
  { unfold evicts_cleanly in *. change (gs_currentInstance (shared w0))
      with (gs_currentInstance (shared w)).
    destruct (gs_currentInstance (shared w)); [|done]. by rewrite Haw. }
  assert (Hev : after_eviction (shared w0) = after_eviction (shared w)).
  { unfold after_eviction. change (gs_currentInstance (shared w0))
      with (gs_currentInstance (shared w)).
    destruct (gs_currentInstance (shared w)); [|done]. by rewrite Haw. }
  pose proof (main_spec (VRef op) VUndefined this w0 eq_refl Hclean0) as Hm.
  unfold wp in Hm |- *.
  destruct Hm as (p & ip & dc & P & H1 & H2 & H3 & H4 & H5 & H6 & H7 & H8 & H9 & H10 &
                  H11 & H12 & H13 & H14 & H15 & H16 & H17).
  rewrite H1. cbv beta iota.
  change (outcome (set_promise_ this p) ?w1) with (@Ok unit tt). cbv iota.
  exists this, p, op, ip, dc, P.
  cbn [exec outcome ret set_promise_ fst snd shared currentInstance promise_].
  assert (Hh0 : heap (shared w0) = <[op := mkObj outer true]> (heap (shared w))) by done.
  rewrite Hh0 in H2, H4, H5. apply lookup_insert_None in H2 as [H2 Hne].
  rewrite Hev in H10, H12.
  split_and!; try done.
  - by rewrite H13.
  - apply (lookup_weaken _ _ _ _ (lookup_insert_eq _ _ _) H5).
  - intros k v Hs Hh Hk. apply (H4 k v Hs Hh). cbn. by rewrite lookup_insert_eq.
  - etrans; [|exact H5]. by apply insert_subseteq.
  - by rewrite H17.
Qed.

End Wiring.

(** X1. Unless the merged [animation] flag is strictly [false], the
    [showClass] and [hideClass] of the effective configuration are merged
    key by key: each is a new object in which a key has the value the
    merged class map gives it and, where that has none, the value of the
    class map of the defaults. A flag that is absent, [undefined], [null]
    or [0] does not collapse the class maps. *)
Theorem prepareParams_merges_class_maps {Env} (X : Externals Env)
    (userParams mixinParams : Value) (w : World Env) :
  merged_params X userParams mixinParams w !! "animation" ≠ Some (VBool false) →
  is_Some (heap (shared w) !! defaultParams X) →
  (∀ key, key = "showClass" ∨ key = "hideClass" →
     refers_inside (shared w) (default_class X w key) ∧
     refers_inside (shared w) (merged_class X userParams mixinParams w key)) →
  ∃ params showClass hideClass,
    outcome (prepareParams X userParams mixinParams) w = Ok params ∧
    let w' := exec (prepareParams X userParams mixinParams) w in
    own_prop w' params "showClass" = Some (VRef showClass) ∧
    own_prop w' params "hideClass" = Some (VRef hideClass) ∧
    heap (shared w) !! showClass = None ∧
    heap (shared w) !! hideClass = None ∧
    (∀ k, own_prop w' showClass k =
          first_of k [own_props (heap (shared w))
                        (merged_class X userParams mixinParams w "showClass");
                      own_props (heap (shared w)) (default_class X w "showClass")]) ∧
    (∀ k, own_prop w' hideClass k =
          first_of k [own_props (heap (shared w))
                        (merged_class X userParams mixinParams w "hideClass");
                      own_props (heap (shared w)) (default_class X w "hideClass")]).
Proof.
  intros Hanim Hdef Hrefs.
  destruct (prepareParams_run X userParams mixinParams w)
    as (params & sc & hc & P & S & H & Hr & _ & _ & (_ & Hsc & Hhc) & _ & HP & HS & HH &
        HPs & HPh & Hmaps).
  destruct (Hmaps Hanim) as (h1 & h3 & d & d' & Hsub1 & Hsub3 & Hd & -> & ->).
  destruct (Hd Hdef) as [-> ->].
  destruct (Hrefs "showClass" (or_introl eq_refl)) as [Rd Rm].
  destruct (Hrefs "hideClass" (or_intror eq_refl)) as [Rd' Rm'].
  exists params, sc, hc. split; [done|]. cbn zeta. unfold own_prop.
  rewrite HP, HS, HH. cbn [mbind option_bind obj_props]. split_and!; try done.
  - intros k. rewrite assign_lookup. cbn [rev app].
    by rewrite !(own_props_weaken (heap (shared w)) h1 (shared w)).
  - intros k. rewrite assign_lookup. cbn [rev app].
    by rewrite !(own_props_weaken (heap (shared w)) h3 (shared w)).
Qed.

Lemma prepareParams_merges_class_maps_witness :
  ∃ params showClass,
    outcome (prepareParams plain_page (VRef 4) VUndefined) classy_page = Ok params ∧
    let w' := exec (prepareParams plain_page (VRef 4) VUndefined) classy_page in
    own_prop w' params "showClass" = Some (VRef showClass) ∧
    own_prop w' showClass "popup" = Some (VStr "fade-in") ∧
    own_prop w' showClass "backdrop" = Some (VStr "swal2-backdrop-show").
Proof.
  destruct (prepareParams_merges_class_maps plain_page (VRef 4) VUndefined classy_page)
    as (params & sc & hc & Hr & Hsc & _ & _ & _ & Hshow & _).
  - vm_compute. discriminate.
  - vm_compute. eauto.
  - intros key [-> | ->]; vm_compute; eauto.
  - exists params, sc. split; [exact Hr|]. cbn zeta. split; [exact Hsc|].
    rewrite !Hshow. split; vm_compute; reflexivity.
Defined.

(** X2. Parameter preparation leaves every object that was in the heap
    as it was, frozen or not: the defaults, the caller's and the mixin's
    configuration are read and never written, and what is new in the
    heap are new objects. Of the state shared with the imported modules
    it writes the heap only. [getTemplateParams] is taken as a query of
    the page that answers with a configuration. *)
Theorem prepareParams_leaves_inputs {Env} (X : Externals Env)
    (userParams mixinParams : Value) (w : World Env) :
  let w' := exec (prepareParams X userParams mixinParams) w in
  (∀ l o, heap (shared w) !! l = Some o → heap (shared w') !! l = Some o) ∧
  touches [FHeap] w w'.
Proof.
  destruct (prepareParams_run X userParams mixinParams w)
    as (params & sc & hc & P & S & H & Hr & Hw' & Hsub & _).
  cbn zeta. split.
  - intros l o Hl. by apply (lookup_weaken _ _ _ _ Hl Hsub).
  - rewrite Hw'. intros f Hf. destruct f; try done. exfalso. apply Hf. by left.
Qed.

(** X3. The effective configuration and its two class maps are three
    different objects that were not in the heap before, each of them
    unfrozen when parameter preparation returns: the class maps are
    never the objects the defaults or the caller hold. *)
Theorem prepareParams_fresh_objects {Env} (X : Externals Env)
    (userParams mixinParams : Value) (w : World Env) :
  ∃ params showClass hideClass,
    outcome (prepareParams X userParams mixinParams) w = Ok params ∧
    let w' := exec (prepareParams X userParams mixinParams) w in
    own_prop w' params "showClass" = Some (VRef showClass) ∧
    own_prop w' params "hideClass" = Some (VRef hideClass) ∧
    heap (shared w) !! params = None ∧
    heap (shared w) !! showClass = None ∧
    heap (shared w) !! hideClass = None ∧
    params ≠ showClass ∧ params ≠ hideClass ∧ showClass ≠ hideClass ∧
    is_Some (heap (shared w') !! showClass) ∧ is_Some (heap (shared w') !! hideClass).
Proof.
  destruct (prepareParams_run X userParams mixinParams w)
    as (params & sc & hc & P & S & H & Hr & _ & _ & (H1 & H2 & H3) & (N1 & N2 & N3) &
        HP & HS & HH & HPs & HPh & _).
  exists params, sc, hc. split; [done|]. cbn zeta. unfold own_prop.
  rewrite HP, HS, HH. cbn. split_and!; eauto.
Qed.

Section Rejection.
Context {Env : Type} (X : Externals Env).
Variable E : list Field.
Hypothesis HE : footprint X E.
Implicit Types (w : World Env).

Lemma extends_call (P : Event → Prop) c w :
  P (ECall c) → extends P w (exec (call X c) w).
Proof. intros H. exists [ECall c]. split; [done | by constructor]. Qed.

Lemma opening_fails i dc l w :
  button_missing dc →
  let body :=
    setOnclick X (dc_confirmButton dc) (OnConfirmClick i) ;;
    setOnclick X (dc_denyButton dc) (OnDenyClick i) ;;
    setOnclick X (dc_cancelButton dc) (OnCancelClick i) ;;
    setOnclick X (dc_closeButton dc) (OnCloseClick i) ;;
    call X (XhandlePopupClick l dc (DismissWith i)) ;;
    call X (XaddKeydownHandler l (DismissWith i)) ;;
    call X (XhandleInputOptionsAndValue i l) ;;
    call X (XopenPopup l) ;;
    setupTimer X l i ;;
    initFocus X dc l ;;
    setTimeout (ScrollTop (dc_container dc)) in
  outcome body w = Throw (TypeError "Cannot set properties of null") ∧
  extends installs_handler w (exec body w) ∧
  touches E w (exec body w).
Proof.
  intros Hmiss. unfold button_missing in Hmiss. cbn zeta.
  pose proof (λ c w, writes_call X E E HE (λ _ H, H) c w) as Hcall.
  pose proof (λ c w, extends_call installs_handler c w) as Hext.
  destruct (dc_confirmButton dc) as [b1|].
  2:{ split_and!; [done | apply extends_refl | apply touches_refl]. }
  set (w1 := exec (call X (XsetOnclick b1 (OnConfirmClick i))) w).
  assert (H1 : extends installs_handler w w1 ∧ touches E w w1)
    by (split; [by apply Hext | apply Hcall]).
  destruct (dc_denyButton dc) as [b2|].
  2:{ split; [done|]. change (exec _ w) with w1. done. }
  set (w2 := exec (call X (XsetOnclick b2 (OnDenyClick i))) w1).
  assert (H2 : extends installs_handler w w2 ∧ touches E w w2).
  { destruct H1 as [Ha Hb]. split.
    - eapply extends_trans; [exact Ha | by apply Hext].
    - eapply touches_trans; [exact Hb | apply Hcall]. }
  destruct (dc_cancelButton dc) as [b3|].
  2:{ split; [done|]. change (exec _ w) with w2. done. }
  set (w3 := exec (call X (XsetOnclick b3 (OnCancelClick i))) w2).
  assert (H3 : extends installs_handler w w3 ∧ touches E w w3).
  { destruct H2 as [Ha Hb]. split.
    - eapply extends_trans; [exact Ha | by apply Hext].
    - eapply touches_trans; [exact Hb | apply Hcall]. }
  destruct (dc_closeButton dc) as [b4|].
  { by destruct Hmiss as [?|[?|[?|?]]]. }
  split; [done|]. change (exec _ w) with w3. done.
Qed.

End Rejection.

(** X4. [swalPromise] never throws: it returns a promise that was not
    there before, registers it as the resolve and as the reject function
    of the instance before it does anything else, and leaves it pending
    or, where the executor threw, rejected; it settles no other promise
    and resolves nothing. Besides what the imported modules write, it
    writes the two weak maps, the promises, the Timers,
    [globalState.timeout] and the queue of deferred callbacks only. *)
Theorem swalPromise_registers {Env} (X : Externals Env) (E : list Field)
    (instance : iref) (domCache : DomCache) (innerParams : loc) (w : World Env) :
  footprint X E → FPromises ∉ E → FResolve ∉ E → FReject ∉ E →
  ∃ p,
    outcome (swalPromise X (Some instance) domCache innerParams) w = Ok p ∧
    let w' := exec (swalPromise X (Some instance) domCache innerParams) w in
    promises (shared w) !! p = None ∧
    swalPromiseResolve (shared w') !! instance = Some p ∧
    swalPromiseReject (shared w') !! instance = Some p ∧
    (promises (shared w') !! p = Some Pending ∨
     ∃ e, promises (shared w') !! p = Some (Rejected e)) ∧
    (∀ q, q ≠ p → promises (shared w') !! q = promises (shared w) !! q) ∧
    Forall quiet_call (new_events w w') ∧
    touches (E ++ [FResolve; FReject; FPromises; FTimeout; FTimers; FTasks])%list w w'.
Proof.
  intros HE HP HR HJ.
  destruct (swalPromise_spec X E instance domCache innerParams w HE HP HR HJ)
    as (p & Hr & Hfresh & Hres & Hrej & Hstate & Hothers & Htouch).
  exists p. split; [done|]. cbn zeta. rewrite Hres, Hrej, !lookup_insert_eq.
  split_and!; try done.
  destruct (always_swalPromise X _ _ (extends_frame X quiet_call) (λ _ H, H)
              (Some instance) domCache innerParams w) as (evs & Hevs & Hall).
  by rewrite (new_events_app _ _ _ Hevs).
Qed.

Lemma passive_page window template autofocus focusable html visible :
  passive (page window template autofocus focusable html visible).
Proof. intros c w f Hf. by destruct f. Qed.

Lemma swalPromise_registers_witness :
  ∃ p,
    outcome (swalPromise plain_page (Some 1%positive) rendered 4%positive)
      (stock_page [("timer", VNum 1500)]) = Ok p ∧
    swalPromiseResolve
      (shared (exec (swalPromise plain_page (Some 1%positive) rendered 4%positive)
                 (stock_page [("timer", VNum 1500)]))) !! 1%positive = Some p.
Proof.
  destruct (swalPromise_registers plain_page [FEnv] 1%positive rendered 4%positive
              (stock_page [("timer", VNum 1500)]))
    as (p & Hr & _ & Hres & _).
  - apply passive_page.
  - intros H%list_elem_of_singleton. discriminate H.
  - intros H%list_elem_of_singleton. discriminate H.
  - intros H%list_elem_of_singleton. discriminate H.
  - exists p. split; [exact Hr | exact Hres].
Defined.

(** X5. Where one of the four buttons is missing from the DOM cache,
    the assignment of its click handler throws inside the executor: the
    promise [swalPromise] returns is rejected with that TypeError, the
    only calls made are the handler assignments that came before, so the
    popup is never opened, and no Timer is made and no callback
    deferred. *)
Theorem swalPromise_rejects_without_button {Env} (X : Externals Env) (E : list Field)
    (instance : iref) (domCache : DomCache) (innerParams : loc) (w : World Env) :
  footprint X E → FPromises ∉ E →
  button_missing domCache →
  ∃ p,
    outcome (swalPromise X (Some instance) domCache innerParams) w = Ok p ∧
    let w' := exec (swalPromise X (Some instance) domCache innerParams) w in
    promises (shared w') !! p
      = Some (Rejected (TypeError "Cannot set properties of null")) ∧
    Forall installs_handler (new_events w w') ∧
    touches (E ++ [FResolve; FReject; FPromises])%list w w'.
Proof.
  intros HE HP Hmiss.
  set (p := fresh (dom (promises (shared w)))).
  set (w2 := on_shared (set_swalPromiseReject <[instance := p]>)
               (on_shared (set_swalPromiseResolve <[instance := p]>)
                  (on_shared (set_promises <[p := Pending]>) w))).
  destruct (opening_fails X E HE instance domCache innerParams w2 Hmiss)
    as (Hout & (evs & Hevs & Hall) & Htouch).
  cbn zeta in Hout, Hevs, Htouch.
  match type of Hout with outcome ?b _ = _ => set (body := b) in * end.
  assert (Hrun : swalPromise X (Some instance) domCache innerParams w =
                 (Ok p, on_shared (set_promises
                                     (partial_alter
                                        (settle (Rejected (TypeError "Cannot set properties of null")))
                                        p))
                          (exec body w2))).
  { rewrite swalPromise_executor. unfold newPromise, bind at 1 2, get, modify.
    cbn [fst snd]. unfold bind at 1 2. cbn [fst snd]. fold p. fold w2.
    change (setOnclick X (dc_confirmButton domCache) (OnConfirmClick instance) ;; _)
      with body.
    unfold outcome, exec in *. destruct (body w2) as [r w']. cbn in Hout |- *. by subst r. }
  exists p. unfold outcome, exec at 1 2 3. rewrite Hrun. cbn [fst snd].
  split; [done|]. split_and!.
  - cbn. rewrite lookup_partial_alter_eq.
    pose proof (Htouch FPromises HP) as Hpr. cbn in Hpr. rewrite Hpr.
    by rewrite lookup_insert_eq.
  - rewrite (new_events_app w _ evs); [done|]. cbn. by rewrite Hevs.
  - intros f Hf.
    assert (Hf' : f ∉ E) by (intros Hin; apply Hf; in_fields).
    specialize (Htouch f Hf').
    destruct f; try done; exfalso; apply Hf; in_fields.
Qed.

Lemma swalPromise_rejects_without_button_witness :
  ∃ p,
    outcome (swalPromise plain_page (Some 1%positive) no_deny_button 4%positive)
      (stock_page []) = Ok p ∧
    promises
      (shared (exec (swalPromise plain_page (Some 1%positive) no_deny_button 4%positive)
                 (stock_page []))) !! p
      = Some (Rejected (TypeError "Cannot set properties of null")).
Proof.
  destruct (swalPromise_rejects_without_button plain_page [FEnv] 1%positive
              no_deny_button 4%positive (stock_page []))
    as (p & Hr & Hrej & _).
  - apply passive_page.
  - intros H%list_elem_of_singleton. discriminate H.
  - right. left. reflexivity.
  - exists p. split; [exact Hr | exact Hrej].
Defined.

Section TimerSetup.
Context {Env : Type} (X : Externals Env).
Implicit Types (w : World Env).

Lemma setupTimer_returns l i w : outcome (setupTimer X l i) w = Ok tt.
Proof.
  unfold outcome, setupTimer, getProp, newTimer, setTimeout, call, bind, get, modify, emit.
  cbn. by repeat match goal with |- context [if ?b then _ else _] => destruct b; cbn end.
Qed.

Lemma setupTimer_without_timer l i w :
  let w1 := exec (call X (Xhide (getTimerProgressBar X (shared w)))) w in
  truthy (prop_of (shared w1) l "timer") = false →
  exec (setupTimer X l i) w = w1.
Proof.
  cbn zeta. intros Hfalsy. unfold setupTimer.
  rewrite exec_get, exec_then by reflexivity. unfold getProp at 1. rewrite exec_get.
  by rewrite Hfalsy.
Qed.

End TimerSetup.

(** X6. [setupTimer] never throws and never stops or removes a Timer:
    it leaves the Timers and [globalState.timeout] as they were, or it
    makes one Timer, running, and stores it in [globalState.timeout].
    Besides what the imported modules write it writes the Timers,
    [globalState.timeout] and the queue of deferred callbacks only. Where
    [innerParams.timer] is falsy (absent, [0], [null]) its one effect is
    to hide the progress bar, whatever [timerProgressBar] says. *)
Theorem setupTimer_makes_at_most_one_timer {Env} (X : Externals Env) (E : list Field)
    (innerParams : loc) (instance : iref) (w : World Env) :
  footprint X E → FTimers ∉ E → FTimeout ∉ E →
  let w' := exec (setupTimer X innerParams instance) w in
  let hidden := exec (call X (Xhide (getTimerProgressBar X (shared w)))) w in
  outcome (setupTimer X innerParams instance) w = Ok tt ∧
  arms w w' ∧
  touches (E ++ [FTimeout; FTimers; FTasks])%list w w' ∧
  (truthy (prop_of (shared hidden) innerParams "timer") = false → w' = hidden).
Proof.
  intros HE HT HG. cbn zeta. split_and!.
  - apply setupTimer_returns.
  - by apply (always_arms_setupTimer X E).
  - apply (writes_setupTimer X E _ HE); [intros f Hf; in_fields | in_fields ..].
  - apply setupTimer_without_timer.
Qed.

Lemma setupTimer_makes_at_most_one_timer_witness :
  exec (setupTimer plain_page 4 1) (stock_page [("timerProgressBar", VBool true)])
  = exec (call plain_page (Xhide (Some 11%positive)))
      (stock_page [("timerProgressBar", VBool true)]).
Proof.
  apply (setupTimer_makes_at_most_one_timer plain_page [FEnv] 4%positive 1%positive
           (stock_page [("timerProgressBar", VBool true)])).
  - apply passive_page.
  - intros H%list_elem_of_singleton. discriminate H.
  - intros H%list_elem_of_singleton. discriminate H.
  - vm_compute. reflexivity.
Defined.

(** X7. A registered instance that awaits no promise and has no resolve
    function makes [_main] throw a TypeError where it calls that
    function: the instance was destroyed, and nothing else was done
    besides the warnings: the registry is not written, no configuration
    is prepared, no Timer stopped. *)
Theorem main_throws_without_resolver {Env} (X : Externals Env)
    (userParams mixinParams : Value) (old : iref) (w : World Env) :
  gs_currentInstance (warned X userParams mixinParams w) = Some old →
  swalPromiseResolve (warned X userParams mixinParams w) !! old = None →
  awaiting (warned X userParams mixinParams w) old = false →
  _main X userParams mixinParams w =
  (Throw (TypeError "swalPromiseResolve is not a function"),
   exec (call X (X_destroy old))
     (exec (call X (XshowWarningsForParams
                      (assign [own_props (heap (shared w)) mixinParams;
                               own_props (heap (shared w)) userParams]))) w)).
Proof.
  intros Hold Hres Haw.
  set (W := exec (call X (X_destroy old)) _).
  enough (wp (_main X userParams mixinParams)
            (λ r w', r = Throw (TypeError "swalPromiseResolve is not a function") ∧ w' = W) w)
    as [H1 H2].
  { unfold outcome, exec in H1, H2.
    destruct (_main X userParams mixinParams w) as [r w']. cbn in *. by subst. }
  unfold _main.
  apply wp_bind, wp_get, wp_bind, wp_call, wp_bind, wp_get.
  change (shared (on_shared _ _)) with (warned X userParams mixinParams w). rewrite Hold.
  apply wp_bind, wp_bind, wp_get, wp_bind, wp_get, wp_bind, wp_call.
  change (shared (on_shared _ (exec _ w))) with (warned X userParams mixinParams w).
  rewrite Hres, Haw. cbn [negb]. apply wp_bind, wp_throw. done.
Qed.

Lemma main_throws_without_resolver_witness :
  outcome (_main plain_page (VRef 4) VUndefined)
    (on_shared (set_gs_currentInstance (Some 7%positive)) (stock_page []))
  = Throw (TypeError "swalPromiseResolve is not a function").
Proof.
  unfold outcome.
  rewrite (main_throws_without_resolver plain_page (VRef 4) VUndefined 7%positive
             (on_shared (set_gs_currentInstance (Some 7%positive)) (stock_page []))
             eq_refl eq_refl eq_refl).
  reflexivity.
Defined.

(** X8. [_main] writes no field of an instance ([params],
    [isAwaitingPromise]), nor the module-level [currentInstance], nor a
    private [#promise]: besides what the imported modules write, it
    writes the heap, the registry, [globalState.timeout], the weak maps
    of [privateMethods] and [privateProps], the promises, the Timers and
    the queue of deferred callbacks only. *)
Theorem main_writes {Env} (X : Externals Env) (E : list Field)
    (userParams mixinParams : Value) (w : World Env) :
  footprint X E →
  touches (E ++ [FHeap; FCurrentInstance; FTimeout; FResolve; FReject; FInnerParams;
                 FDomCache; FPromises; FTimers; FTasks])%list
    w (exec (_main X userParams mixinParams) w).
Proof.
  intros HE. apply (writes_main X E _ HE); [intros f Hf; in_fields | in_fields ..].
Qed.

Lemma main_writes_witness :
  instances (shared (exec (_main plain_page (VRef 4) VUndefined) (stock_page [])))
  = instances (shared (stock_page [])).
Proof.
  apply (main_writes plain_page [FEnv] (VRef 4) VUndefined (stock_page [])
           (passive_page _ _ _ _ _ _) FInstances).
  intros H. repeat (apply elem_of_cons in H as [H|H]; [discriminate H|]).
  by apply elem_of_nil in H.
Defined.

Section Settled.
Context {Env : Type}.
Implicit Types (s : Shared Env).

Lemma after_eviction_None s p : after_eviction s !! p = None → promises s !! p = None.
Proof.
  unfold after_eviction. destruct (gs_currentInstance s) as [old|]; [|done].
  destruct (awaiting s old); [done|].
  destruct (swalPromiseResolve s !! old) as [r|]; [|done].
  destruct (decide (r = p)) as [->|Hne].
  - rewrite lookup_partial_alter_eq. by destruct (promises s !! p) as [[]|].
  - by rewrite lookup_partial_alter_ne.
Qed.

Lemma one_timer_rearms (w w' : World Env) :
  one_timer (shared w) → rearms w w' →
  one_timer (shared w') ∧
  ∀ t, is_Some (timers (shared w) !! t) → timer_running (shared w') t = false.
Proof.
  intros Hone Hre.
  assert (Hstopped : ∀ t, match timeout_stopped (shared w) !! t with
                          | Some tm => t_state tm ≠ TRunning
                          | None => True
                          end).
  { intros t. unfold timeout_stopped.
    destruct (gs_timeout (shared w)) as [t0|] eqn:Hg.
    - destruct (decide (t = t0)) as [->|Hne].
      + rewrite lookup_alter_eq. destruct (timers (shared w) !! t0) as [tm|]; [|done].
        cbn. unfold stopped. destruct (t_state tm) eqn:Hst; cbn; congruence.
      + rewrite lookup_alter_ne by done.
        destruct (timers (shared w) !! t) as [tm|] eqn:Ht; [|done].
        intros Hrun. specialize (Hone t). unfold timer_running in Hone.
        rewrite Ht, Hrun in Hone. specialize (Hone eq_refl). congruence.
    - destruct (timers (shared w) !! t) as [tm|] eqn:Ht; [|done].
      intros Hrun. specialize (Hone t). unfold timer_running in Hone.
      rewrite Ht, Hrun in Hone. specialize (Hone eq_refl). congruence. }
  assert (Hdom : ∀ t, timers (shared w) !! t = None → timeout_stopped (shared w) !! t = None).
  { intros t Ht. unfold timeout_stopped. destruct (gs_timeout (shared w)); [|done].
    by apply lookup_alter_None. }
  destruct Hre as [[Ht Hg]|(tn & tm & Hnew & Hrun & Ht & Hg)].
  - split.
    + intros t. unfold timer_running. rewrite Ht. specialize (Hstopped t).
      destruct (timeout_stopped (shared w) !! t) as [tm|]; [|done].
      by destruct (t_state tm).
    + intros t _. unfold timer_running. rewrite Ht. specialize (Hstopped t).
      destruct (timeout_stopped (shared w) !! t) as [tm|]; [|done].
      by destruct (t_state tm).
  - split.
    + intros t. unfold timer_running. rewrite Ht, Hg.
      destruct (decide (t = tn)) as [->|Hne]; [done|]. rewrite lookup_insert_ne by done.
      specialize (Hstopped t).
      destruct (timeout_stopped (shared w) !! t) as [tm'|]; [|done].
      by destruct (t_state tm').
    + intros t [tm' Htm']. unfold timer_running. rewrite Ht.
      assert (t ≠ tn) by congruence. rewrite lookup_insert_ne by done.
      specialize (Hstopped t).
      destruct (timeout_stopped (shared w) !! t) as [tm''|]; [|done].
      by destruct (t_state tm'').
Qed.

End Settled.

(** X9. Where [window] is defined, the imported modules write the
    rendering layer only and the eviction does not throw,
    [new SweetAlert(...args)] returns a new instance that is the
    module-level [currentInstance] and the registered instance at once;
    its [params] is a frozen new object holding what [argsToParams] gave,
    [isAwaitingPromise] is [false], its inner parameters are another
    frozen new object, its DOM cache is stored, and one new promise is
    its [#promise], its resolve and its reject function; that promise is
    pending, or rejected where the executor threw. *)
Theorem new_SweetAlert_wires {Env} (X : Externals Env) (args : list Value) (w : World Env) :
  passive X → window_defined X = true → evicts_cleanly (shared w) →
  ∃ this p outerParams innerParams,
    outcome (new_SweetAlert X args) w = Ok this ∧
    let w' := exec (new_SweetAlert X args) w in
    instances (shared w) !! this = None ∧
    currentInstance w' = Some this ∧
    gs_currentInstance (shared w') = Some this ∧
    instances (shared w') !! this = Some (mkInstance (Some outerParams) (Some false)) ∧
    heap (shared w) !! outerParams = None ∧
    frozen_at w' outerParams = true ∧
    object_at w' outerParams = Some (argsToParams X (shared (exec new_instance w)) args) ∧
    pp_innerParams (shared w') !! this = Some innerParams ∧
    heap (shared w) !! innerParams = None ∧
    innerParams ≠ outerParams ∧
    frozen_at w' innerParams = true ∧
    is_Some (pp_domCache (shared w') !! this) ∧
    promises (shared w) !! p = None ∧
    promise_ w' !! this = Some p ∧
    swalPromiseResolve (shared w') !! this = Some p ∧
    swalPromiseReject (shared w') !! this = Some p ∧
    (promises (shared w') !! p = Some Pending ∨
     ∃ e, promises (shared w') !! p = Some (Rejected e)).
Proof.
  intros HX Hwin Hclean.
  destruct (new_SweetAlert_spec X HX args w Hwin Hclean)
    as (this & p & op & ip & dc & P & Hr & Hthis & Hinst & Hop & Hop' & Hip & Hne & Hip' &
        Hkeys & Hsub & Hpi & Hpd & Hres & Hrej & Hfresh & Hstate & Hothers & Hreg & Hre &
        Hcur & Hpriv).
  exists this, p, op, ip. split; [done|]. cbn zeta. unfold frozen_at, object_at.
  rewrite Hinst, Hop', Hip', Hpi, Hpd, Hres, Hrej, Hpriv, !lookup_insert_eq.
  split_and!; try done; eauto using after_eviction_None.
Qed.

Lemma new_SweetAlert_wires_witness :
  ∃ this,
    outcome (new_SweetAlert plain_page [VRef 4]) (stock_page [("title", VStr "first")])
      = Ok this ∧
    gs_currentInstance (shared (opened [("title", VStr "first")])) = Some this.
Proof.
  destruct (new_SweetAlert_wires plain_page [VRef 4] (stock_page [("title", VStr "first")]))
    as (this & p & op & ip & Hr & _ & _ & Hreg & _).
  - apply passive_page.
  - reflexivity.
  - exact I.
  - exists this. split; [exact Hr | exact Hreg].
Defined.

Section CallerKeys.
Context {Env : Type} (X : Externals Env).
Hypothesis HX : respects_frozen X.
Implicit Types (w : World Env).

Lemma same_currentInstance_keeps : Keeps X (@same_currentInstance Env).
Proof.
  split; try done. intros a b c Hab Hbc. unfold same_currentInstance in *. congruence.
Qed.

Lemma extends_keeps : Keeps X (@extends Env (λ _, True)).
Proof.
  split.
  - apply extends_refl.
  - apply extends_trans.
  - intros c w _. apply extends_modify.
  - intros e w. by apply extends_emit.
  - intros f w _ _ _. apply extends_modify.
Qed.

(** Where the constructor returns, the eviction in its [_main] has
    returned, and [_main] went on with the frozen [params] of the new
    instance as the caller's configuration. *)
Lemma new_SweetAlert_returns args w this :
  window_defined X = true →
  outcome (new_SweetAlert X args) w = Ok this →
  let outerParams := fresh (dom (heap (shared w))) in
  let calling := exec (constructor_before_main X args) w in
  let evicted := exec (main_eviction X (VRef outerParams) VUndefined) calling in
  let installed := exec (install (Some this)) evicted in
  let w'' := exec (main_after_install X (VRef outerParams) VUndefined (Some this)) installed in
  shared (exec (new_SweetAlert X args) w) = shared w'' ∧
  trace (exec (new_SweetAlert X args) w) = trace w'' ∧
  own_props (heap (shared installed)) (VRef outerParams)
    = argsToParams X (shared (exec new_instance w)) args ∧
  extends (λ _, True) w installed.
Proof.
  intros Hwin Hout. cbn zeta.
  destruct (constructor_calls_main X args w Hwin) as (_ & Hcur & _ & _ & _ & Hnew).
  set (this0 := fresh (dom (instances (shared w)))) in *.
  set (op := fresh (dom (heap (shared w)))) in *.
  set (calling := exec (constructor_before_main X args) w) in *.
  assert (Hop : heap (shared calling) !! op
                = Some (mkObj (argsToParams X (shared (exec new_instance w)) args) true)).
  { unfold calling, op. cbn. by rewrite !lookup_insert_eq. }
  assert (Htr : extends (λ _, True) w calling).
  { exists [EParams this0 op]. by split; [|repeat constructor]. }
  clearbody calling.
  assert (this = this0) as ->.
  { unfold outcome in Hout. rewrite Hnew in Hout. unfold bind in Hout.
    destruct (_main X (VRef op) VUndefined calling) as [[p|e] w1]; cbn in Hout; congruence. }
  assert (Hev : outcome (main_eviction X (VRef op) VUndefined) calling = Ok tt).
  { unfold outcome in *. rewrite Hnew in Hout. unfold bind at 1 in Hout.
    rewrite main_split in Hout. unfold bind at 1 in Hout.
    destruct (main_eviction X (VRef op) VUndefined calling) as [[[]|e] ev];
      cbn in *; [done | discriminate]. }
  pose proof (main_from_evicted X _ _ calling Hev) as Hmain. cbn zeta in Hmain.
  assert (Hsame : same_currentInstance calling
                    (exec (main_eviction X (VRef op) VUndefined) calling)).
  { apply (stays_main_eviction X _ same_currentInstance_keeps); [done|].
    intros i. by apply (stays_destroy X _ same_currentInstance_keeps). }
  assert (Hkept : frozen_kept calling (exec (main_eviction X (VRef op) VUndefined) calling)).
  { apply (stays_main_eviction X _ (frozen_kept_keeps X HX)).
    - apply frozen_kept_promise_free.
    - intros i. apply (stays_destroy X _ (frozen_kept_keeps X HX)).
      apply (R_effect (frozen_kept_frame X HX)). }
  assert (Hext : extends (λ _, True) calling
                   (exec (main_eviction X (VRef op) VUndefined) calling)).
  { apply (stays_main_eviction X _ extends_keeps).
    - intros f w0. apply extends_modify.
    - intros i. apply (stays_destroy X _ extends_keeps). intros c w0. apply extends_modify. }
  set (evicted := exec (main_eviction X (VRef op) VUndefined) calling) in *.
  unfold same_currentInstance in Hsame. rewrite Hsame, Hcur in Hmain. clearbody evicted.
  unfold bind at 1 in Hnew. rewrite Hmain in Hnew.
  set (installed := exec (install (Some this0)) evicted) in *.
  assert (Hheap : heap (shared installed) = heap (shared evicted)) by reflexivity.
  assert (Hinst : extends (λ _, True) evicted installed).
  { apply (extends_trans _ _ (exec (emit (ESetCurrent (Some this0))) evicted)).
    - by apply extends_emit.
    - apply extends_modify. }
  clearbody installed.
  destruct (main_after_install X (VRef op) VUndefined (Some this0) installed)
    as [[p|e] w1] eqn:Hrun; cbv beta iota in Hnew; unfold outcome in Hout;
    rewrite Hnew in Hout; cbn in Hout; [|discriminate].
  clear Hout.
  unfold exec. rewrite Hnew, Hrun. cbn.
  split_and!; try done.
  - unfold own_props. rewrite Hheap. by rewrite (Hkept op _ Hop eq_refl).
  - apply (extends_trans _ _ calling); [done|].
    by apply (extends_trans _ _ evicted).
Qed.

End CallerKeys.

(** X10. Where [window] is defined, the imported modules leave frozen
    objects as they are and the constructor returns, every key the
    caller's configuration has, the two class maps apart, is in the
    frozen inner parameters attached to the new instance with the
    caller's value, provided [setParameters] does not rewrite that key:
    defaults, mixin and declarative configuration never override it, and
    nothing but [setParameters] can change it between the merge and the
    freeze. *)
Theorem new_SweetAlert_keeps_caller_configuration {Env} (X : Externals Env)
    (args : list Value) (w : World Env) (this : iref) (k : string) (v : Value) :
  respects_frozen X → window_defined X = true →
  setParameters_keeps X k →
  k ≠ "showClass" → k ≠ "hideClass" →
  argsToParams X (shared (exec new_instance w)) args !! k = Some v →
  outcome (new_SweetAlert X args) w = Ok this →
  let w' := exec (new_SweetAlert X args) w in
  ∃ innerParams,
    EInnerParams this innerParams ∈ new_events w w' ∧
    frozen_at w' innerParams = true ∧
    own_prop w' innerParams k = Some v.
Proof.
  intros HX Hwin Hkeeps Hs Hh Hk Hout. cbn zeta.
  pose proof (new_SweetAlert_returns X HX args w this Hwin Hout) as Hret. cbn zeta in Hret.
  set (outer := argsToParams X (shared (exec new_instance w)) args) in *.
  set (op := fresh (dom (heap (shared w)))) in *.
  set (installed := exec (install (Some this)) _) in Hret.
  set (w' := exec (new_SweetAlert X args) w) in *.
  clearbody outer op installed w'.
  destruct Hret as (Hshared & Htrace & Hcaller & (evs0 & Hevs0 & _)).
  destruct (prepareParams_spec X (VRef op) VUndefined installed)
    as (l & P & sc & hc & S & H & Hr & _ & HP & Hmerged & _).
  unfold wp in Hr, HP.
  set (prepared := exec (prepareParams X (VRef op) VUndefined) installed) in *.
  assert (HPk : P !! k = Some v).
  { rewrite (Hmerged k Hs Hh), merged_params_lookup. cbn [first_of]. by rewrite Hcaller, Hk. }
  assert (Ho : ∃ o, heap (shared (exec (call X (XsetParameters l)) prepared)) !! l = Some o
                    ∧ obj_props o !! k = Some v).
  { pose proof (Hkeeps (shared prepared) l) as Hset.
    rewrite HP in Hset. cbn [mbind option_bind obj_props] in Hset. rewrite HPk in Hset.
    change (heap (shared (exec (call X (XsetParameters l)) prepared)))
      with (heap (effect X (XsetParameters l) (shared prepared))).
    destruct (heap (effect X (XsetParameters l) (shared prepared)) !! l) as [o|]; [|done].
    by exists o. }
  destruct Ho as (o & Ho & Hok).
  pose proof (main_after_install_freezes X HX (VRef op) VUndefined (Some this) installed l o
                Hr Ho) as Hfrozen.
  destruct (main_after_install_trace X (VRef op) VUndefined this installed l Hr)
    as (post & Hpost & _).
  assert (Hext : extends (λ _, True) installed
                   (exec (main_after_install X (VRef op) VUndefined (Some this)) installed)).
  { apply (always_main_after_install X _ _ (extends_frame X _)); by intros. }
  set (w'' := exec (main_after_install X (VRef op) VUndefined (Some this)) installed) in *.
  clearbody w'' prepared.
  destruct Hext as (evs & Hevs & _).
  rewrite (new_events_app _ _ _ Hevs) in Hpost. subst evs.
  exists l. unfold frozen_at, own_prop. rewrite Hshared, Hfrozen. split_and!; [|done..].
  rewrite (new_events_app w w' (evs0 ++ ECall (XsetParameters l) :: ECall XclearTimeout
                                  :: ECall (Xrender this l) :: EInnerParams this l :: post)).
  - apply elem_of_app. right. do 3 (apply elem_of_cons; right). apply elem_of_cons. by left.
  - by rewrite Htrace, Hevs, Hevs0, <-app_assoc.
Qed.

Lemma setParameters_keeps_plain_page k : setParameters_keeps plain_page k.
Proof. by intros s l. Qed.

Lemma new_SweetAlert_keeps_caller_configuration_witness :
  let w' := opened [("timer", VNum 1500)] in
  ∃ innerParams,
    EInnerParams 1 innerParams ∈ new_events (stock_page [("timer", VNum 1500)]) w' ∧
    frozen_at w' innerParams = true ∧
    own_prop w' innerParams "timer" = Some (VNum 1500).
Proof.
  apply (new_SweetAlert_keeps_caller_configuration plain_page [VRef 4]
           (stock_page [("timer", VNum 1500)]) 1%positive "timer" (VNum 1500)).
  - apply plain_page_respects_frozen.
  - reflexivity.
  - apply setParameters_keeps_plain_page.
  - discriminate.
  - discriminate.
  - vm_compute. reflexivity.
  - vm_compute. reflexivity.
Defined.

(** X11. Under the same conditions, and where only the Timer in
    [globalState.timeout] could be running before, the same holds after
    [new SweetAlert(...args)], and no Timer that existed before is
    running: opening a dialog stops the Timer of the dialog before. *)
Theorem new_SweetAlert_stops_previous_timer {Env} (X : Externals Env)
    (args : list Value) (w : World Env) :
  passive X → window_defined X = true → evicts_cleanly (shared w) →
  one_timer (shared w) →
  let w' := exec (new_SweetAlert X args) w in
  one_timer (shared w') ∧
  ∀ t, is_Some (timers (shared w) !! t) → timer_running (shared w') t = false.
Proof.
  intros HX Hwin Hclean Hone. cbn zeta.
  destruct (new_SweetAlert_spec X HX args w Hwin Hclean)
    as (this & p & op & ip & dc & P & _ & _ & _ & _ & _ & _ & _ & _ & _ & _ & _ & _ & _ & _ &
        _ & _ & _ & _ & Hre & _).
  by apply one_timer_rearms.
Qed.

Lemma new_SweetAlert_stops_previous_timer_witness :
  timer_running
    (shared (exec (new_SweetAlert plain_page [VRef 4]) (opened [("timer", VNum 1500)])))
    1%positive = false.
Proof.
  apply (new_SweetAlert_stops_previous_timer plain_page [VRef 4]
           (opened [("timer", VNum 1500)])).
  - apply passive_page.
  - reflexivity.
  - vm_compute. right. eauto.
  - intros t. vm_compute. destruct t; try discriminate; reflexivity.
  - vm_compute. eauto.
Defined.

(** X12. Under the same conditions [new SweetAlert(...args)] settles at
    most one promise that existed before, that of the evicted instance:
    where a registered instance awaits no promise, its promise, if
    pending, is fulfilled with [{ isDismissed: true }], and every other
    promise, settled ones among them, is as it was. *)
Theorem new_SweetAlert_settles_only_evicted {Env} (X : Externals Env)
    (args : list Value) (w : World Env) :
  passive X → window_defined X = true → evicts_cleanly (shared w) →
  let w' := exec (new_SweetAlert X args) w in
  ∀ q state, promises (shared w) !! q = Some state →
    promises (shared w') !! q =
    match gs_currentInstance (shared w) with
    | Some old =>
        if bool_decide (swalPromiseResolve (shared w) !! old = Some q)
           && negb (awaiting (shared w) old)
        then Some (match state with
                   | Pending => Fulfilled {[ "isDismissed" := VBool true ]}
                   | _ => state
                   end)
        else Some state
    | None => Some state
    end.
Proof.
  intros HX Hwin Hclean. cbn zeta. intros q state Hq.
  destruct (new_SweetAlert_spec X HX args w Hwin Hclean)
    as (this & p & op & ip & dc & P & _ & _ & _ & _ & _ & _ & _ & _ & _ & _ & _ & _ & _ & _ &
        Hfresh & _ & Hothers & _).
  apply after_eviction_None in Hfresh as Hp.
  assert (q ≠ p) by congruence. rewrite (Hothers q) by done.
  unfold after_eviction. destruct (gs_currentInstance (shared w)) as [old|]; [|done].
  destruct (awaiting (shared w) old); [by rewrite andb_false_r|].
  rewrite andb_true_r.
  destruct (swalPromiseResolve (shared w) !! old) as [r|] eqn:Hr.
  - case_bool_decide as Hd.
    + injection Hd as ->. rewrite lookup_partial_alter_eq, Hq. by destruct state.
    + rewrite lookup_partial_alter_ne; [done|]. congruence.
  - by rewrite bool_decide_eq_false_2.
Qed.

Lemma new_SweetAlert_settles_only_evicted_witness :
  promises
    (shared (exec (new_SweetAlert plain_page [VRef 4]) (opened [("title", VStr "first")])))
    !! 1%positive
  = Some (Fulfilled {[ "isDismissed" := VBool true ]}).
Proof.
  assert (Hclean : evicts_cleanly (shared (opened [("title", VStr "first")])))
    by (vm_compute; right; eauto).
  rewrite (new_SweetAlert_settles_only_evicted plain_page [VRef 4]
             (opened [("title", VStr "first")]) (passive_page _ _ _ _ _ _) eq_refl
             Hclean 1%positive Pending); vm_compute; reflexivity.
Defined.

(** X13. On an instance made where [window] is undefined the private
    [#promise] was never set: [then] and [finally] throw a TypeError
    instead of returning a promise, so awaiting such an instance fails. *)
Theorem then_without_window {Env} (X : Externals Env) (args : list Value)
    (callback : Value) (w : World Env) :
  window_defined X = false →
  promise_ w !! fresh (dom (instances (shared w))) = None →
  outcome (this <- new_SweetAlert X args ;; then_ this callback) w
    = Throw (TypeError "Cannot read properties of undefined") ∧
  outcome (this <- new_SweetAlert X args ;; finally_ this callback) w
    = Throw (TypeError "Cannot read properties of undefined").
Proof.
  intros Hwin Hnone.
  assert (Hrun : new_SweetAlert X args w =
                 (Ok (fresh (dom (instances (shared w)))),
                  on_shared (set_instances
                               <[fresh (dom (instances (shared w))) := mkInstance None None]>) w)).
  { unfold new_SweetAlert, new_instance, constructor. rewrite Hwin. reflexivity. }
  unfold outcome, bind. rewrite Hrun. unfold then_, finally_. cbn. by rewrite Hnone.
Qed.

Lemma then_without_window_witness :
  outcome (this <- new_SweetAlert headless [VRef 4] ;; then_ this VUndefined) (stock_page [])
  = Throw (TypeError "Cannot read properties of undefined").
Proof.
  apply (then_without_window headless [VRef 4] VUndefined (stock_page [])); reflexivity.
Defined.

(** X14. On an instance whose constructor ran to its end, [then] and
    [finally] call the method of the promise [_main] returned, the one
    whose resolve function is registered for the instance, and they
    change nothing. *)
Theorem then_reaches_result_promise {Env} (X : Externals Env) (args : list Value)
    (callback : Value) (w : World Env) :
  passive X → window_defined X = true → evicts_cleanly (shared w) →
  ∃ this p,
    outcome (new_SweetAlert X args) w = Ok this ∧
    let w' := exec (new_SweetAlert X args) w in
    swalPromiseResolve (shared w') !! this = Some p ∧
    then_ this callback w' = (Ok (PThen p callback), w') ∧
    finally_ this callback w' = (Ok (PFinally p callback), w').
Proof.
  intros HX Hwin Hclean.
  destruct (new_SweetAlert_spec X HX args w Hwin Hclean)
    as (this & p & op & ip & dc & P & Hr & _ & _ & _ & _ & _ & _ & _ & _ & _ & _ & _ & Hres &
        _ & _ & _ & _ & _ & _ & _ & Hpriv).
  exists this, p. split; [done|]. cbn zeta. unfold then_, finally_.
  by rewrite Hres, Hpriv, !lookup_insert_eq.
Qed.

Lemma then_reaches_result_promise_witness :
  ∃ this p,
    outcome (new_SweetAlert plain_page [VRef 4]) (stock_page []) = Ok this ∧
    outcome (then_ this (VFun 1)) (opened []) = Ok (PThen p (VFun 1)).
Proof.
  destruct (then_reaches_result_promise plain_page [VRef 4] (VFun 1) (stock_page []))
    as (this & p & Hr & _ & Hthen & _).
  - apply passive_page.
  - reflexivity.
  - exact I.
  - exists this, p. split; [exact Hr|]. unfold outcome, opened. by rewrite Hthen.
Defined.

Section FocusMoves.
Context {Env : Type} (X : Externals Env).
Implicit Types (w : World Env).

(** The run appended events among which at most [n] move the focus. *)
Lemma moves_refl w : ∃ evs, trace w = (trace w ++ evs)%list ∧ (focus_moves evs ≤ 0)%nat.
Proof. exists []. by rewrite app_nil_r. Qed.

Lemma moves_call c w :
  ∃ evs, trace (exec (call X c) w) = (trace w ++ evs)%list ∧
         focus_moves evs = if moves_focus (ECall c) then 1%nat else 0%nat.
Proof. exists [ECall c]. split; [done|]. unfold focus_moves. cbn. by destruct c. Qed.

Lemma moves_trans (a b c : World Env) n m :
  (∃ evs, trace b = (trace a ++ evs)%list ∧ (focus_moves evs ≤ n)%nat) →
  (∃ evs, trace c = (trace b ++ evs)%list ∧ (focus_moves evs ≤ m)%nat) →
  ∃ evs, trace c = (trace a ++ evs)%list ∧ (focus_moves evs ≤ n + m)%nat.
Proof.
  intros (e1 & H1 & L1) (e2 & H2 & L2). exists (e1 ++ e2)%list.
  split; [by rewrite H2, H1, <-app_assoc|].
  unfold focus_moves in *. rewrite List.filter_app, length_app. lia.
Qed.

Lemma moves_focused e w :
  ∃ evs, trace (focused X e w) = (trace w ++ evs)%list ∧ (focus_moves evs ≤ 1)%nat.
Proof. exists [ECall (Xfocus e)]. split; [done|]. unfold focus_moves. cbn. lia. Qed.

Lemma moves_weaken (a b : World Env) n m :
  (n ≤ m)%nat →
  (∃ evs, trace b = (trace a ++ evs)%list ∧ (focus_moves evs ≤ n)%nat) →
  ∃ evs, trace b = (trace a ++ evs)%list ∧ (focus_moves evs ≤ m)%nat.
Proof. intros Hnm (evs & H & L). exists evs. split; [done | lia]. Qed.

Lemma moves_callIfFunction v w :
  ∃ evs, trace (exec (callIfFunction X v) w) = (trace w ++ evs)%list ∧
         (focus_moves evs ≤ 0)%nat.
Proof.
  destruct v; try apply moves_refl.
  exists [ECall (Xcall f)]. split; [done|]. unfold focus_moves. cbn. lia.
Qed.

Lemma moves_focusButton dc l w :
  ∃ evs, trace (exec (focusButton X dc l) w) = (trace w ++ evs)%list ∧
         (focus_moves evs ≤ 1)%nat.
Proof.
  unfold exec. rewrite focusButton_cases.
  repeat match goal with |- context [if ?b then _ else _] => destruct b end;
    try (apply (moves_weaken _ _ 0); [lia | apply moves_refl]);
    match goal with |- context [focus X ?b] => destruct b as [e|] end;
    first [ apply (moves_focused e w) | apply (moves_weaken _ _ 0); [lia | apply moves_refl] ].
Qed.

Lemma focus_step_outcomes dc l w :
  (∀ b, outcome (focusButton X dc l) w = Ok b →
        if b then ∃ e, exec (focusButton X dc l) w = focused X e w
        else exec (focusButton X dc l) w = w) ∧
  (∀ e, outcome (focusButton X dc l) w = Throw e → exec (focusButton X dc l) w = w) ∧
  (∀ b, outcome (focusAutofocus X dc) w = Ok b →
        if b then ∃ e, exec (focusAutofocus X dc) w = focused X e w
        else exec (focusAutofocus X dc) w = w) ∧
  (∀ e, outcome (focusAutofocus X dc) w = Throw e → exec (focusAutofocus X dc) w = w).
Proof.
  unfold outcome, exec. rewrite focusButton_cases.
  assert (Hbutton : ∀ b : option positive,
    (∀ r, ((focus X b ;; ret true) w).1 = Ok r →
          if r then ∃ e, ((focus X b ;; ret true) w).2 = focused X e w
          else ((focus X b ;; ret true) w).2 = w) ∧
    (∀ e, ((focus X b ;; ret true) w).1 = Throw e → ((focus X b ;; ret true) w).2 = w)).
  { intros [e|]; split; cbn; try done. intros r [= <-]. by exists e. }
  split_and!.
  - repeat match goal with |- context [if ?b then _ else _] => destruct b end;
      try apply Hbutton. cbn. by intros b [= <-].
  - repeat match goal with |- context [if ?b then _ else _] => destruct b end;
      try apply Hbutton. done.
  - destruct (dc_popup dc) as [popup|] eqn:Hp; [|by unfold focusAutofocus; rewrite Hp].
    rewrite (focusAutofocus_first X dc popup w Hp).
    destruct (first_autofocus X (shared w) popup) as [e|]; cbn; intros b [= <-]; eauto.
  - destruct (dc_popup dc) as [popup|] eqn:Hp.
    + rewrite (focusAutofocus_first X dc popup w Hp).
      by destruct (first_autofocus X (shared w) popup).
    + unfold focusAutofocus. by rewrite Hp.
Qed.

Lemma moves_initFocus dc l w :
  ∃ evs, trace (exec (initFocus X dc l) w) = (trace w ++ evs)%list ∧
         (focus_moves evs ≤ 1)%nat.
Proof.
  unfold exec. rewrite initFocus_cases.
  destruct (truthy (prop_of (shared w) l "toast")).
  { apply (moves_weaken _ _ 0); [lia | apply moves_refl]. }
  cbn zeta. set (w1 := exec (callIfFunction X _) w).
  pose proof (moves_callIfFunction (prop_of (shared w) l "allowEnterKey") w) as H1.
  fold w1 in H1.
  destruct (negb (truthy (evaluated X (shared w) (prop_of (shared w) l "allowEnterKey")))).
  - apply (moves_trans w w1 _ 0 1); [done|].
    rewrite call_then, blurActiveElement_cases.
    set (w2 := exec (call X (XwarnAboutDeprecation "allowEnterKey")) w1).
    assert (H2 : ∃ evs, trace w2 = (trace w1 ++ evs)%list ∧ (focus_moves evs ≤ 0)%nat).
    { exists [ECall (XwarnAboutDeprecation "allowEnterKey")]. split; [done|].
      unfold focus_moves. cbn. lia. }
    destruct (activeElement X (shared w2)) as [e|]; [|by apply (moves_weaken _ _ 0); [lia|]].
    destruct (isHTMLElement X (shared w2) e && hasBlur X (shared w2) e);
      [|by apply (moves_weaken _ _ 0); [lia|]].
    apply (moves_trans w1 w2 _ 0 1); [done|].
    exists [ECall (Xblur e)]. split; [done|]. unfold focus_moves. cbn. lia.
  - apply (moves_trans w w1 _ 0 1); [done|].
    destruct (focus_step_outcomes dc l w1) as (Hb1 & Hb2 & Ha1 & Ha2).
    unfold outcome, exec in *. unfold bind at 1.
    destruct (focusAutofocus X dc w1) as [[[]|e] wa] eqn:Hfa; cbn [fst snd] in *.
    + destruct (Ha1 true eq_refl) as [el ->]. apply moves_focused.
    + pose proof (Ha1 false eq_refl) as Heq. cbv iota in Heq. subst wa. unfold bind at 1.
      destruct (focusButton X dc l w1) as [[[]|e] wb] eqn:Hfb; cbn [fst snd] in *.
      * destruct (Hb1 true eq_refl) as [el ->]. apply moves_focused.
      * pose proof (Hb1 false eq_refl) as Heq. cbv iota in Heq. subst wb.
        rewrite setFocus_first.
        destruct (head (getFocusableElements X (shared w1))) as [el|]; cbn [snd].
        -- apply moves_focused.
        -- apply (moves_weaken _ _ 0); [lia | apply moves_refl].
      * rewrite (Hb2 e eq_refl). apply (moves_weaken _ _ 0); [lia | apply moves_refl].
    + rewrite (Ha2 e eq_refl). apply (moves_weaken _ _ 0); [lia | apply moves_refl].
Qed.

End FocusMoves.

(** X15. Whatever the page and the configuration, [initFocus] focuses
    or blurs at most one element, and it writes no state of its own:
    what changes is what the calls it makes change. *)
Theorem initFocus_moves_focus_at_most_once {Env} (X : Externals Env) (E : list Field)
    (domCache : DomCache) (innerParams : loc) (w : World Env) :
  footprint X E →
  let w' := exec (initFocus X domCache innerParams) w in
  (focus_moves (new_events w w') ≤ 1)%nat ∧ touches E w w'.
Proof.
  intros HE. cbn zeta. split.
  - destruct (moves_initFocus X domCache innerParams w) as (evs & Hevs & Hle).
    by rewrite (new_events_app _ _ _ Hevs).
  - apply (writes_initFocus X E E HE). by intros f Hf.
Qed.

Lemma initFocus_moves_focus_at_most_once_witness :
  (focus_moves
     (new_events (stock_page [("focusDeny", VBool true)])
        (exec (initFocus plain_page rendered 4) (stock_page [("focusDeny", VBool true)])))
   ≤ 1)%nat.
Proof.
  apply (initFocus_moves_focus_at_most_once plain_page [FEnv] rendered 4%positive
           (stock_page [("focusDeny", VBool true)])).
  apply passive_page.
Defined.

(** X16. The boolean [focusAutofocus] and [focusButton] return tells
    whether an element was focused: on [true] exactly one element was
    focused and nothing else happened, on [false] and on an exception
    nothing happened at all. *)
Theorem focus_step_tells_whether_focused {Env} (X : Externals Env)
    (domCache : DomCache) (innerParams : loc) (w : World Env) :
  (outcome (focusAutofocus X domCache) w = Ok true →
   ∃ e, exec (focusAutofocus X domCache) w = focused X e w) ∧
  (outcome (focusAutofocus X domCache) w ≠ Ok true →
   exec (focusAutofocus X domCache) w = w) ∧
  (outcome (focusButton X domCache innerParams) w = Ok true →
   ∃ e, exec (focusButton X domCache innerParams) w = focused X e w) ∧
  (outcome (focusButton X domCache innerParams) w ≠ Ok true →
   exec (focusButton X domCache innerParams) w = w).
Proof.
  destruct (focus_step_outcomes X domCache innerParams w) as (Hb1 & Hb2 & Ha1 & Ha2).
  split_and!.
  - intros H. apply (Ha1 true H).
  - intros H. destruct (outcome (focusAutofocus X domCache) w) as [[]|e] eqn:Ho.
    + done.
    + apply (Ha1 false eq_refl).
    + apply (Ha2 e eq_refl).
  - intros H. apply (Hb1 true H).
  - intros H. destruct (outcome (focusButton X domCache innerParams) w) as [[]|e] eqn:Ho.
    + done.
    + apply (Hb1 false eq_refl).
    + apply (Hb2 e eq_refl).
Qed.

Lemma focus_step_tells_whether_focused_witness :
  ∃ e, exec (focusButton plain_page rendered 4) (stock_page [("focusDeny", VBool true)])
       = focused plain_page e (stock_page [("focusDeny", VBool true)]).
Proof.
  apply (focus_step_tells_whether_focused plain_page rendered 4%positive
           (stock_page [("focusDeny", VBool true)])).
  vm_compute. reflexivity.
Defined.

Section CallOrder.
Context {Env : Type} (X : Externals Env).
Implicit Types (w : World Env).

Lemma after_frame : Frame X (extends timer_or_focus_call) timer_or_focus_call.
Proof. apply extends_frame. Qed.

Ltac order_step :=
  lazymatch goal with
  | |- always _ (ret _) => apply (always_ret X _ _ after_frame)
  | |- always _ (throw _) => apply (always_throw X _ _ after_frame)
  | |- always _ (get _) => apply (always_get X _ _ after_frame)
  | |- always _ (getProp _ _) => apply (always_get X _ _ after_frame)
  | |- always _ (bind _ _) => apply (always_bind X _ _ after_frame); [|intros ?]
  | |- always _ (modify _) => intros ?; apply extends_modify
  | |- always _ (call _ _) => apply (always_call X _ _ after_frame); exact I
  | |- always _ (when ?b _) => destruct b; cbn [when]
  | |- always _ (if ?b then _ else _) => destruct b
  | |- always _ (match ?x with _ => _ end) => destruct x
  | |- always _ _ => assumption
  end.

Ltac order := repeat order_step.

Lemma after_setupTimer l i : always (extends timer_or_focus_call) (setupTimer X l i).
Proof. unfold setupTimer, newTimer, setTimeout. order. Qed.

Lemma after_focusAutofocus_loop es : always (extends timer_or_focus_call) (focusAutofocus_loop X es).
Proof. induction es as [|e es IH]; cbn [focusAutofocus_loop]; unfold focus; order. Qed.

Lemma after_initFocus dc l : always (extends timer_or_focus_call) (initFocus X dc l).
Proof.
  pose proof after_focusAutofocus_loop as Hloop.
  unfold initFocus, callIfFunction, blurActiveElement, focusAutofocus, focusButton, setFocus,
    focus.
  order; apply Hloop.
Qed.

Lemma swalPromise_order i dc l b1 b2 b3 b4 w :
  dc_confirmButton dc = Some b1 → dc_denyButton dc = Some b2 →
  dc_cancelButton dc = Some b3 → dc_closeButton dc = Some b4 →
  wp (swalPromise X (Some i) dc l) (λ _ w', ∃ rest,
    trace w' = (trace w ++ opening_calls i dc l b1 b2 b3 b4 ++ rest)%list ∧
    Forall timer_or_focus_call rest) w.
Proof.
  intros H1 H2 H3 H4. rewrite swalPromise_executor. rewrite H1, H2, H3, H4.
  apply wp_newPromise. cbn zeta.
  apply wp_bind, wp_modify, wp_bind, wp_modify.
  cbn [setOnclick].
  do 8 apply wp_bind, wp_call.
  match goal with |- wp ?m _ ?w0 => set (tail := m); set (w10 := w0) end.
  assert (Ht10 : trace w10 = (trace w ++ opening_calls i dc l b1 b2 b3 b4)%list).
  { subst w10. cbn. by rewrite <-!app_assoc. }
  clearbody w10.
  apply (wp_always (extends timer_or_focus_call)).
  - subst tail. apply (always_bind X _ _ after_frame); [apply after_setupTimer|]. intros _.
    apply (always_bind X _ _ after_frame); [apply after_initFocus|]. intros _.
    intros ?. apply extends_modify.
  - intros r w' (rest & Hrest & Hall). destruct r; exists rest; (split; [|done]).
    + by rewrite Hrest, Ht10, <-app_assoc.
    + cbn. by rewrite Hrest, Ht10, <-app_assoc.
Qed.

End CallOrder.

(** X17. Where the four buttons are in the DOM cache, [swalPromise]
    calls, in this order: the click handlers of confirm, deny, cancel
    and close, [handlePopupClick], [addKeydownHandler],
    [handleInputOptionsAndValue] and [openPopup]; whatever it calls
    afterwards belongs to the timer setup and to the focus chain. The
    popup is thus opened once, after every handler is in place and
    before a Timer runs or the focus moves. *)
Theorem swalPromise_opens_before_timer_and_focus {Env} (X : Externals Env)
    (instance : iref) (domCache : DomCache) (innerParams : loc)
    (confirm deny cancel close : elem) (w : World Env) :
  dc_confirmButton domCache = Some confirm → dc_denyButton domCache = Some deny →
  dc_cancelButton domCache = Some cancel → dc_closeButton domCache = Some close →
  ∃ rest,
    new_events w (exec (swalPromise X (Some instance) domCache innerParams) w)
    = (opening_calls instance domCache innerParams confirm deny cancel close ++ rest)%list ∧
    Forall timer_or_focus_call rest.
Proof.
  intros H1 H2 H3 H4.
  destruct (swalPromise_order X instance domCache innerParams confirm deny cancel close w
              H1 H2 H3 H4) as (rest & Hrest & Hall).
  cbv beta in Hrest.
  exists rest. split; [|done]. by apply new_events_app.
Qed.

Lemma swalPromise_opens_before_timer_and_focus_witness :
  ∃ rest,
    new_events (stock_page [])
      (exec (swalPromise plain_page (Some 1%positive) rendered 4%positive) (stock_page []))
    = (opening_calls 1%positive rendered 4%positive 4%positive 5%positive 6%positive
         8%positive ++ rest)%list ∧
    Forall timer_or_focus_call rest.
Proof.
  apply (swalPromise_opens_before_timer_and_focus plain_page 1%positive rendered 4%positive
           4%positive 5%positive 6%positive 8%positive (stock_page []));
    reflexivity.
Defined.

(** X18. Where [window] is undefined no constructor call sets the
    module-level [currentInstance]: if it was unset, it is unset after
    any run of constructions, method calls, clicks and idle time, and
    every call of a static proxy returns [null] and does nothing. *)
Theorem static_proxy_without_window {Env} (X : Externals Env) (ops : list Op)
    (key : string) (args : list Value) (w : World Env) :
  window_defined X = false → currentInstance w = None →
  let w' := exec (session X ops) w in
  currentInstance w' = None ∧ static_proxy X key args w' = (Ok VNull, w').
Proof.
  intros Hwin Hnone. cbn zeta.
  assert (Hkeep : currentInstance (exec (session X ops) w) = currentInstance w).
  { apply (always_session_any X _ _ (same_currentInstance_frame X) (λ _ _, I) (λ _ _, I)).
    - intros i v. by apply (always_update X _ _ (same_currentInstance_frame X)).
    - intros this a w0. unfold constructor. by rewrite Hwin. }
  rewrite Hnone in Hkeep. split; [done|].
  unfold static_proxy, bind, get_currentInstance. cbn. by rewrite Hkeep.
Qed.

Lemma static_proxy_without_window_witness :
  static_proxy headless "close" []
    (exec (session headless [New [VRef 4]; Idle 100]) (stock_page []))
  = (Ok VNull, exec (session headless [New [VRef 4]; Idle 100]) (stock_page [])).
Proof.
  apply (static_proxy_without_window headless [New [VRef 4]; Idle 100] "close" []
           (stock_page [])); reflexivity.
Defined.

Section ProgressBar.
Context {Env : Type} (X : Externals Env).
Hypothesis HX : passive X.
Implicit Types (w : World Env).

Lemma passive_call_fields c w :
  ∃ e, shared (exec (call X c) w) = with_env e (shared w).
Proof. exists (env (effect X c (shared w))). cbn. by rewrite (passive_effect X c _ HX). Qed.

Lemma setupTimer_progress_bar l i w :
  truthy (prop_of (shared w) l "timer") = true →
  truthy (prop_of (shared w) l "timerProgressBar") = true →
  ∃ e t,
    timers (shared w) !! t = None ∧
    shared (exec (setupTimer X l i) w) =
    with_env e
      (set_tasks (λ q, (q ++ [ProgressBarStart l])%list)
         (set_gs_timeout (Some t)
            (set_timers <[t := mkTimer (TimerExpired i) (to_ms (prop_of (shared w) l "timer"))
                                 TRunning]>
               (shared w)))).
Proof.
  intros Htimer Hbar. unfold setupTimer.
  rewrite exec_get, exec_then by reflexivity.
  destruct (passive_call_fields (Xhide (getTimerProgressBar X (shared w))) w) as [e1 H1].
  set (w1 := exec (call X (Xhide _)) w) in *. clearbody w1.
  assert (Hp : ∀ k, prop_of (shared w1) l k = prop_of (shared w) l k).
  { intros k. unfold prop_of. by rewrite H1. }
  unfold getProp at 1. rewrite exec_get, Hp, Htimer. cbv iota.
  rewrite exec_newTimer, exec_then by reflexivity.
  set (t := fresh (dom (timers (shared w1)))).
  assert (Ht : timers (shared w) !! t = None).
  { subst t. rewrite H1. apply not_elem_of_dom, is_fresh. }
  unfold getProp at 1. rewrite exec_get.
  assert (Hp2 : ∀ (s : Shared Env) k,
            heap s = heap (shared w) → prop_of s l k = prop_of (shared w) l k).
  { intros s k Hh. unfold prop_of. by rewrite Hh. }
  rewrite (Hp2 _ "timerProgressBar") by (cbn; by rewrite H1).
  rewrite Hbar. cbv iota.
  rewrite exec_then by reflexivity. rewrite exec_then by reflexivity.
  match goal with |- context [exec (call X (Xshow ?b)) ?w0] =>
    destruct (passive_call_fields (Xshow b) w0) as [e2 H2];
    set (w3 := exec (call X (Xshow b)) w0) in *; clearbody w3
  end.
  match goal with |- context [exec (call X ?c) w3] =>
    destruct (passive_call_fields c w3) as [e3 H3];
    set (w4 := exec (call X c) w3) in *; clearbody w4
  end.
  exists e3, t. split; [done|]. cbn [exec setTimeout modify snd shared on_shared].
  rewrite H3, H2. cbn. rewrite H1. by destruct (shared w).
Qed.

End ProgressBar.

(** X19. With [timer] and [timerProgressBar] both set, [setupTimer]
    stores a running Timer in [globalState.timeout] and defers one
    callback. When that callback runs while the Timer is still there and
    running it starts the animation with the timer's duration, and
    nothing else; when the Timer was stopped, or stopped and removed
    from [globalState.timeout], as the next open does, the callback does
    nothing. *)
Theorem progress_bar_starts_while_timer_runs {Env} (X : Externals Env)
    (innerParams : loc) (instance : iref) (w : World Env) :
  passive X →
  truthy (prop_of (shared w) innerParams "timer") = true →
  truthy (prop_of (shared w) innerParams "timerProgressBar") = true →
  let w' := exec (setupTimer X innerParams instance) w in
  let callback := run_task X (ProgressBarStart innerParams) in
  ∃ t,
    gs_timeout (shared w') = Some t ∧
    tasks (shared w') = (tasks (shared w) ++ [ProgressBarStart innerParams])%list ∧
    new_events w' (exec callback w')
      = [ECall (XanimateTimerProgressBar (prop_of (shared w) innerParams "timer"))] ∧
    (let stopped := exec (timer_stop t) w' in callback stopped = (Ok tt, stopped)) ∧
    (let cleared := exec (timer_stop t ;; modify (set_gs_timeout None)) w' in
     callback cleared = (Ok tt, cleared)).
Proof.
  intros HX Htimer Hbar. cbn zeta.
  destruct (setupTimer_progress_bar X HX innerParams instance w Htimer Hbar)
    as (e & t & Hnew & Hs).
  set (w' := exec (setupTimer X innerParams instance) w) in *.
  exists t. rewrite Hs. cbn [with_env set_tasks set_gs_timeout set_timers gs_timeout tasks]. split; [done|]. split; [done|]. split_and!.
  - apply new_events_app. unfold run_task, exec, bind, get, getProp, timer_running, prop_of.
    cbn [fst snd]. rewrite Hs. cbn. rewrite lookup_insert_eq. cbn. by rewrite Hs.
  - unfold run_task, exec, bind, get, timer_stop, modify, timer_running. cbn [fst snd].
    cbn [shared on_shared]. rewrite Hs. cbn. by rewrite lookup_alter_eq, lookup_insert_eq.
  - unfold run_task, exec, bind, get, timer_stop, modify, timer_running. cbn [fst snd].
    cbn [shared on_shared]. rewrite Hs. done.
Qed.

Lemma progress_bar_starts_while_timer_runs_witness :
  ∃ t,
    gs_timeout
      (shared (exec (setupTimer plain_page 4 1)
                 (stock_page [("timer", VNum 1500); ("timerProgressBar", VBool true)])))
    = Some t.
Proof.
  destruct (progress_bar_starts_while_timer_runs plain_page 4%positive 1%positive
              (stock_page [("timer", VNum 1500); ("timerProgressBar", VBool true)]))
    as (t & Ht & _).
  - apply passive_page.
  - vm_compute. reflexivity.
  - vm_compute. reflexivity.
  - exists t. exact Ht.
Defined.

Section Opens.
Context {Env : Type} (X : Externals Env).
Hypothesis HX : passive X.
Hypothesis Hwin : window_defined X = true.
Implicit Types (w : World Env).

Lemma exec_open args ops w :
  exec (session X (New args :: ops)) w = exec (session X ops) (exec (new_SweetAlert X args) w).
Proof.
  cbn [session perform]. unfold exec, bind, attempt. cbn [fst snd].
  by destruct (new_SweetAlert X args w) as [[this|e] w1].
Qed.

Lemma exec_opens argss args w :
  exec (session X (New <$> (argss ++ [args])%list)) w
  = exec (new_SweetAlert X args) (exec (session X (New <$> argss)) w).
Proof.
  revert w. induction argss as [|a argss IH]; intros w.
  - cbn [app fmap list_fmap]. rewrite exec_open. reflexivity.
  - rewrite <-app_comm_cons, !fmap_cons, !exec_open. apply IH.
Qed.

Lemma open_registers args w :
  evicts_cleanly (shared w) →
  let w' := exec (new_SweetAlert X args) w in
  evicts_cleanly (shared w') ∧
  ∃ this,
    outcome (new_SweetAlert X args) w = Ok this ∧
    instances (shared w) !! this = None ∧
    currentInstance w' = Some this ∧
    gs_currentInstance (shared w') = Some this ∧
    is_Some (swalPromiseResolve (shared w') !! this).
Proof.
  intros Hclean. cbn zeta.
  destruct (new_SweetAlert_spec X HX args w Hwin Hclean)
    as (this & p & op & ip & dc & P & Hr & Hnew & _ & _ & _ & _ & _ & _ & _ & _ & _ & _ &
        Hres & _ & _ & _ & _ & Hreg & _ & Hcur & _).
  assert (Hp : swalPromiseResolve (shared (exec (new_SweetAlert X args) w)) !! this = Some p)
    by by rewrite Hres, lookup_insert_eq.
  split.
  - unfold evicts_cleanly. rewrite Hreg, Hp. right. by exists p.
  - exists this. split_and!; first [done | by exists p].
Qed.

End Opens.

(** X20. Dialogs opened one after the other never make the eviction
    throw: where [window] is defined and the imported modules write the
    rendering layer only, after any number of constructions the
    registered instance awaits a promise or has its resolve function.
    The instance constructed last, that is the one the last constructor
    call returned, which did not exist before that call, is the
    module-level [currentInstance] and the registered instance at once,
    and its resolve function is registered. *)
Theorem repeated_opens_stay_consistent {Env} (X : Externals Env)
    (argss : list (list Value)) (args : list Value) (w : World Env) :
  passive X → window_defined X = true → evicts_cleanly (shared w) →
  let before := exec (session X (New <$> argss)) w in
  let w' := exec (session X (New <$> (argss ++ [args])%list)) w in
  w' = exec (new_SweetAlert X args) before ∧
  evicts_cleanly (shared before) ∧
  evicts_cleanly (shared w') ∧
  ∃ this,
    outcome (new_SweetAlert X args) before = Ok this ∧
    instances (shared before) !! this = None ∧
    currentInstance w' = Some this ∧
    gs_currentInstance (shared w') = Some this ∧
    is_Some (swalPromiseResolve (shared w') !! this).
Proof.
  intros HX Hwin Hclean. cbn zeta. rewrite exec_opens.
  assert (Hbefore : evicts_cleanly (shared (exec (session X (New <$> argss)) w))).
  { revert w Hclean. induction argss as [|a argss IH]; intros w Hclean; [done|].
    rewrite fmap_cons, exec_open. apply IH.
    by apply (open_registers X HX Hwin a w). }
  destruct (open_registers X HX Hwin args _ Hbefore) as [Hafter Hthis].
  by split_and!.
Qed.

Lemma repeated_opens_stay_consistent_witness :
  let before := exec (session plain_page [New [VRef 4]; New [VRef 4]]) (stock_page []) in
  let w' := exec (session plain_page [New [VRef 4]; New [VRef 4]; New []]) (stock_page []) in
  evicts_cleanly (shared w')
  ∧ outcome (new_SweetAlert plain_page []) before = Ok 3%positive
  ∧ currentInstance w' = Some 3%positive
  ∧ gs_currentInstance (shared w') = Some 3%positive.
Proof.
  cbn zeta.
  destruct (repeated_opens_stay_consistent plain_page [[VRef 4]; [VRef 4]] []
              (stock_page []))
    as (_ & _ & Hclean & this & Hout & _ & Hcur & Hreg & _).
  - apply passive_page.
  - reflexivity.
  - exact I.
  - assert (outcome (new_SweetAlert plain_page [])
              (exec (session plain_page (New <$> [[VRef 4]; [VRef 4]])) (stock_page []))
            = Ok 3%positive) as Hthree by (vm_compute; reflexivity).
    rewrite Hthree in Hout. injection Hout as <-.
    split_and!; [exact Hclean | exact Hthree | exact Hcur | exact Hreg].
Defined.
